(** * Development-application register scraper (District Council of Lower
      Eyre Peninsula): a shallow embedding of the two page parsers and of the
      address normaliser.

    Two programs are embedded:
    - [scraper.ts], the anchor-column parser ("column mode", module [Column]);
    - the compiled grid parser ("grid mode", module [Grid]).
    Both share the geometry helpers, [formatStreetName] and [formatAddress].

    Modelling conventions.
    - A co-ordinate is an exact rational ([Q]): every binary64 number that
      is finite is one, and the comparisons of the source are the rational
      ones ([===] on numbers is [Qeq_bool]).  Sums, differences, products and
      quotients are exact in this model and rounded in the source, so a
      property that rests on a computed percentage is stated on the
      double-precision embedding of the same functions, module [Binary64].
    - A JavaScript string is a [string] of 8-bit characters; the documents are
      ASCII, and the case mappings act on the ASCII letters only.
    - [undefined] and [null] results are [None].
    - [console.log] output is a list of lines, returned next to the value.
    - The libraries [didyoumean2] and [moment] and the clock are not part of
      the repository: they are Section variables. *)

From Stdlib Require Import String Ascii List Bool Arith Lia.
From Stdlib Require Import ZArith QArith Qabs Qminmax Qround DecimalString Lqa.
From Stdlib Require Import Permutation Sorted.
From Stdlib Require Floats.
Import ListNotations.

Local Close Scope Q_scope.
Local Open Scope nat_scope.
Local Open Scope list_scope.

(* ------------------------------------------------------------------------- *)
(** ** JavaScript string primitives used by the source                        *)
(* ------------------------------------------------------------------------- *)

Module Js.

(** Characters matched by [\s] (and removed by [trim]) in the ASCII range. *)
Definition isWhiteSpace (c : ascii) : bool :=
  let n := nat_of_ascii c in
  ((9 <=? n) && (n <=? 13)) || (n =? 32).

Definition isDigit (c : ascii) : bool :=
  let n := nat_of_ascii c in (48 <=? n) && (n <=? 57).

Definition isUpper (c : ascii) : bool :=
  let n := nat_of_ascii c in (65 <=? n) && (n <=? 90).

Definition isLower (c : ascii) : bool :=
  let n := nat_of_ascii c in (97 <=? n) && (n <=? 122).

Definition upperChar (c : ascii) : ascii :=
  if isLower c then ascii_of_nat (nat_of_ascii c - 32) else c.

Definition lowerChar (c : ascii) : ascii :=
  if isUpper c then ascii_of_nat (nat_of_ascii c + 32) else c.

Fixpoint mapString (f : ascii -> ascii) (s : string) : string :=
  match s with
  | EmptyString => EmptyString
  | String c s' => String (f c) (mapString f s')
  end.

Fixpoint filterString (p : ascii -> bool) (s : string) : string :=
  match s with
  | EmptyString => EmptyString
  | String c s' => if p c then String c (filterString p s') else filterString p s'
  end.

(** [s.toUpperCase()] and [s.toLowerCase()]. *)
Definition toUpperCase : string -> string := mapString upperChar.
Definition toLowerCase : string -> string := mapString lowerChar.

(** [s.replace(/\s/g, "")]. *)
Definition removeWhiteSpace : string -> string :=
  filterString (fun c => negb (isWhiteSpace c)).

(** [s.replace(/[^A-Z]/g, "")]. *)
Definition keepUpperLetters : string -> string := filterString isUpper.

Fixpoint trimStart (s : string) : string :=
  match s with
  | EmptyString => EmptyString
  | String c s' => if isWhiteSpace c then trimStart s' else s
  end.

Fixpoint trimEnd (s : string) : string :=
  match s with
  | EmptyString => EmptyString
  | String c s' =>
      match trimEnd s' with
      | EmptyString => if isWhiteSpace c then EmptyString else String c EmptyString
      | r => String c r
      end
  end.

(** [s.trim()]. *)
Definition trim (s : string) : string := trimEnd (trimStart s).

(** [s.replace(/\s\s+/g, " ")]: every maximal run of two or more white-space
    characters becomes one space; a lone white-space character is kept.
    [inRun] says that the run being read has already been replaced. *)
Fixpoint collapseRuns (inRun : bool) (s : string) : string :=
  match s with
  | EmptyString => EmptyString
  | String c s' =>
      if isWhiteSpace c then
        if inRun then collapseRuns true s'
        else match s' with
             | String c2 _ =>
                 if isWhiteSpace c2 then String " "%char (collapseRuns true s')
                 else String c (collapseRuns false s')
             | EmptyString => String c EmptyString
             end
      else String c (collapseRuns false s')
  end.

Definition collapseWhiteSpace (s : string) : string := collapseRuns false s.

(** [s.split(sep)] for a one-character separator: never the empty list. *)
Fixpoint split (sep : ascii) (s : string) : list string :=
  match s with
  | EmptyString => [EmptyString]
  | String c s' =>
      if Ascii.eqb c sep then EmptyString :: split sep s'
      else match split sep s' with
           | t :: ts => String c t :: ts
           | [] => [String c EmptyString]
           end
  end.

(** [parts.join(sep)]. *)
Definition join (sep : string) (parts : list string) : string :=
  String.concat sep parts.

(** [s.replace(/pat/g, rep)] for a literal, non-empty pattern: occurrences
    are replaced left to right and do not overlap.  [skip] counts the
    characters of a replaced occurrence that remain to be passed over. *)
Fixpoint replaceAllFrom (pat rep : string) (skip : nat) (s : string) : string :=
  match s with
  | EmptyString => EmptyString
  | String c s' =>
      match skip with
      | S k => replaceAllFrom pat rep k s'
      | O =>
          if String.prefix pat s
          then String.append rep (replaceAllFrom pat rep (String.length pat - 1) s')
          else String c (replaceAllFrom pat rep 0 s')
      end
  end.

Definition replaceAll (pat rep s : string) : string := replaceAllFrom pat rep 0 s.

(** [s.lastIndexOf(c)], [None] standing for [-1]. *)
Fixpoint lastIndexOf (c : ascii) (s : string) : option nat :=
  match s with
  | EmptyString => None
  | String d s' =>
      match lastIndexOf c s' with
      | Some i => Some (S i)
      | None => if Ascii.eqb d c then Some 0 else None
      end
  end.

(** [s.substring(0, n)] and [s.substring(n)]. *)
Fixpoint take (n : nat) (s : string) : string :=
  match n, s with
  | S k, String c s' => String c (take k s')
  | _, _ => EmptyString
  end.

Fixpoint drop (n : nat) (s : string) : string :=
  match n, s with
  | S k, String _ s' => drop k s'
  | _, _ => s
  end.

(** [parts.slice(-n)]: the last [n] items (all of them when there are fewer). *)
Definition sliceLast {A} (n : nat) (l : list A) : list A :=
  skipn (List.length l - n) l.

(** What [parts.splice(-n, n)] leaves in [parts]. *)
Definition spliceLast {A} (n : nat) (l : list A) : list A :=
  firstn (List.length l - n) l.

(** [/^HD /.test(s)]. *)
Definition testHD (s : string) : bool := String.prefix "HD "%string s.

(** [s.replace(/^HD /i, "")]. *)
Definition stripHD (s : string) : string :=
  if String.prefix "HD "%string (toUpperCase (take 3 s)) then drop 3 s else s.

(** One attempt of [/[0-9]+\/[0-9]+\/[0-9]+/] at the start of [s]. *)
Fixpoint skipDigits (s : string) : string :=
  match s with
  | String c s' => if isDigit c then skipDigits s' else s
  | EmptyString => EmptyString
  end.

Definition startsWithDigit (s : string) : bool :=
  match s with
  | String c _ => isDigit c
  | EmptyString => false
  end.

Definition digitsThenSlash (s : string) : option string :=
  if startsWithDigit s then
    match skipDigits s with
    | String "/"%char rest => Some rest
    | _ => None
    end
  else None.

Definition matchApplicationNumberHere (s : string) : bool :=
  match digitsThenSlash s with
  | Some s1 =>
      match digitsThenSlash s1 with
      | Some s2 => startsWithDigit s2
      | None => false
      end
  | None => false
  end.

(** [/[0-9]+\/[0-9]+\/[0-9]+/.test(s)]: the pattern is not anchored, so it is
    tried at every position. *)
Fixpoint testApplicationNumber (s : string) : bool :=
  matchApplicationNumberHere s ||
  match s with
  | String _ s' => testApplicationNumber s'
  | EmptyString => false
  end.

(** Decimal rendering of a count inside a template string. *)
Definition showNat (n : nat) : string := NilZero.string_of_uint (Nat.to_uint n).

(** [array.sort(comparer)]: a stable insertion sort.  For a comparer that is
    a total preorder this is the order every stable sort produces; the
    approximate comparers of the source are not transitive on every input, and
    there the order is the engine's choice. *)
Fixpoint insertSorted {A} (cmp : A -> A -> Z) (a : A) (l : list A) : list A :=
  match l with
  | [] => [a]
  | b :: l' => if (cmp a b <=? 0)%Z then a :: l else b :: insertSorted cmp a l'
  end.

Definition sort {A} (cmp : A -> A -> Z) (l : list A) : list A :=
  fold_right (insertSorted cmp) [] l.

End Js.

Local Open Scope string_scope.

(* ------------------------------------------------------------------------- *)
(** ** JavaScript objects used as string-keyed maps                           *)
(* ------------------------------------------------------------------------- *)

(** An object (or an array used as one, as [developmentApplications] is) is
    the list of its own properties in creation order.  Property enumeration
    ([Object.keys], [Object.values]) lists the array-index keys first, in
    ascending numeric order, then the other keys in creation order.  Keys that
    name a property every object inherits ([constructor], [length] of an
    array, ...) are outside this model. *)
Module Obj.

Definition t (V : Type) : Type := list (string * V).

Fixpoint get {V} (key : string) (o : t V) : option V :=
  match o with
  | [] => None
  | (k, v) :: o' => if String.eqb k key then Some v else get key o'
  end.

(** [o[key] = v]: an existing property keeps its place. *)
Fixpoint set {V} (key : string) (v : V) (o : t V) : t V :=
  match o with
  | [] => [(key, v)]
  | (k, w) :: o' => if String.eqb k key then (k, v) :: o' else (k, w) :: set key v o'
  end.

Fixpoint allDigits (s : string) : bool :=
  match s with
  | EmptyString => true
  | String c s' => Js.isDigit c && allDigits s'
  end.

Fixpoint digitsValue (acc : N) (s : string) : N :=
  match s with
  | EmptyString => acc
  | String c s' => digitsValue (acc * 10 + (N_of_ascii c - 48))%N s'
  end.

(** The numeric value of a key that is an array index: a canonical decimal
    numeral below [2^32 - 1]. *)
Definition arrayIndex (key : string) : option N :=
  match key with
  | EmptyString => None
  | String c rest =>
      if allDigits key && (negb (Ascii.eqb c "0") || String.eqb rest "")
      then let n := digitsValue 0 key in
           if (n <? 4294967295)%N then Some n else None
      else None
  end.

Definition indexOf {V} (e : string * V) : N :=
  match arrayIndex (fst e) with Some n => n | None => 0%N end.

Definition isIndexed {V} (e : string * V) : bool :=
  match arrayIndex (fst e) with Some _ => true | None => false end.

Definition indexComparer {V} (a b : string * V) : Z :=
  match (indexOf a ?= indexOf b)%N with Lt => (-1)%Z | Eq => 0%Z | Gt => 1%Z end.

Definition entries {V} (o : t V) : list (string * V) :=
  Js.sort indexComparer (filter isIndexed o) ++ filter (fun e => negb (isIndexed e)) o.

(** [Object.keys(o)] and [Object.values(o)]. *)
Definition keys {V} (o : t V) : list string := map fst (entries o).
Definition values {V} (o : t V) : list V := map snd (entries o).

End Obj.

(* ------------------------------------------------------------------------- *)
(** ** Geometry                                                               *)
(* ------------------------------------------------------------------------- *)

(** A bounding rectangle. *)
Record Rectangle : Type := mkRectangle {
  x : Q;
  y : Q;
  width : Q;
  height : Q
}.

(** An element (a positioned run of text) of a page. *)
Record Element : Type := mkElement {
  text : string;
  bounds :> Rectangle
}.

Local Open Scope Q_scope.

Definition Qlt_bool (a b : Q) : bool := negb (Qle_bool b a).

(** Constructs a rectangle based on the intersection of the two specified
    rectangles. *)
Definition intersect (rectangle1 rectangle2 : Rectangle) : Rectangle :=
  let x1 := Qmax (x rectangle1) (x rectangle2) in
  let y1 := Qmax (y rectangle1) (y rectangle2) in
  let x2 := Qmin (x rectangle1 + width rectangle1) (x rectangle2 + width rectangle2) in
  let y2 := Qmin (y rectangle1 + height rectangle1) (y rectangle2 + height rectangle2) in
  if Qle_bool x1 x2 && Qle_bool y1 y2
  then mkRectangle x1 y1 (x2 - x1) (y2 - y1)
  else mkRectangle 0 0 0 0.

(** Calculates the area of a rectangle. *)
Definition getArea (rectangle : Rectangle) : Q :=
  width rectangle * height rectangle.

(** Calculates the fraction of an element that lies within a cell (as a
    percentage), in exact arithmetic: the share the geometry gives.  The value
    the source computes is [Binary64.getPercentageOfElementInCell]. *)
Definition getPercentageOfElementInCell (element cell : Rectangle) : Q :=
  let elementArea := getArea element in
  let intersectionArea := getArea (intersect cell element) in
  if Qeq_bool elementArea 0 then 0 else (intersectionArea * 100) / elementArea.

(** Gets the percentage of horizontal overlap between two rectangles (0 means
    no overlap and 100 means 100% overlap), in exact arithmetic.  Either
    argument may be [undefined].  The value the source computes is
    [Binary64.getHorizontalOverlapPercentage]. *)
Definition getHorizontalOverlapPercentage (r1 r2 : option Rectangle) : Q :=
  match r1, r2 with
  | Some rectangle1, Some rectangle2 =>
      let startX1 := x rectangle1 in
      let endX1 := x rectangle1 + width rectangle1 in
      let startX2 := x rectangle2 in
      let endX2 := x rectangle2 + width rectangle2 in
      if Qle_bool endX2 startX1 || Qle_bool endX1 startX2
         || Qeq_bool (width rectangle1) 0 || Qeq_bool (width rectangle2) 0
      then 0
      else
        let intersectionWidth := Qmin endX1 endX2 - Qmax startX1 startX2 in
        let unionWidth := Qmax endX1 endX2 - Qmin startX1 startX2 in
        (intersectionWidth * 100) / unionWidth
  | _, _ => 0
  end.

Local Close Scope Q_scope.

(* ------------------------------------------------------------------------- *)
(** ** Address normaliser                                                     *)
(* ------------------------------------------------------------------------- *)

Section Address.

(** The three dictionaries read by [readAddressInformation]. *)
Variable StreetNames : Obj.t (list string).
Variable StreetSuffixes : Obj.t string.
Variable SuburbNames : Obj.t string.

(** [didYouMean input matchList threshold] stands for the library call
    [didYouMean(input, matchList, { caseSensitive: false, returnType:
    FIRST_CLOSEST_MATCH, thresholdType: EDIT_DISTANCE, threshold: threshold,
    trimSpaces: true })]; [None] is its [null]. *)
Variable didYouMean : string -> list string -> nat -> option string.

Definition isDefined {A} (o : option A) : bool :=
  match o with Some _ => true | None => false end.

(** The tokens of [formatStreetName] after the street suffix is expanded. *)
Definition streetTokens (text : string) : list string :=
  let tokens := Js.split " " (Js.toUpperCase (Js.trim text)) in
  let token := last tokens "" in
  let tokens := removelast tokens in
  let streetSuffix := Obj.get token StreetSuffixes in
  tokens ++ [match streetSuffix with None => token | Some suffix => suffix end].

(** [for (let index = 6; index >= 2; index--)]. *)
Definition windowSizes : list nat := [6; 5; 4; 3; 2].

(** The first loop: is some trailing window a street name? *)
Fixpoint exactMatch (tokens : list string) (indexes : list nat) : bool :=
  match indexes with
  | [] => false
  | index :: rest =>
      if isDefined (Obj.get (Js.join " " (Js.sliceLast index tokens)) StreetNames)
      then true
      else exactMatch tokens rest
  end.

(** The second loop: the first window that has a close street name. *)
Fixpoint fuzzyMatch (tokens : list string) (indexes : list nat) : option string :=
  match indexes with
  | [] => None
  | index :: rest =>
      let threshold := 7 - index in
      match didYouMean (Js.join " " (Js.sliceLast index tokens))
                       (Obj.keys StreetNames) threshold with
      | Some streetNameMatch =>
          let tokens := Js.spliceLast index tokens in
          Some (Js.trim (Js.join " " tokens ++ " " ++ streetNameMatch))
      | None => fuzzyMatch tokens rest
      end
  end.

(** Formats the text as a street.  (The guard on an [undefined] text is never
    taken: every caller passes a string.) *)
Definition formatStreetName (text : string) : string :=
  let tokens := streetTokens text in
  if exactMatch tokens windowSizes then Js.join " " tokens
  else match fuzzyMatch tokens windowSizes with
       | Some street => street
       | None => text
       end.

(** The four [replace] calls on the trimmed address. *)
Definition expandTerraces (address : string) : string :=
  Js.replaceAll " TCE WEST" " TERRACE WEST"
    (Js.replaceAll " TCE EAST" " TERRACE EAST"
      (Js.replaceAll " TCE STH" " TERRACE SOUTH"
        (Js.replaceAll " TCE NTH" " TERRACE NORTH" address))).

(** Formats the address, ensuring that it has a valid suburb, state and post
    code. *)
Definition formatAddress (address : string) : string :=
  let address := expandTerraces (Js.trim address) in
  match Js.lastIndexOf "," address with
  | None => address
  | Some commaIndex =>
      let streetName := Js.take commaIndex address in
      let suburbName := Js.drop (commaIndex + 1) address in
      match didYouMean suburbName (Obj.keys SuburbNames) 2 with
      | None => address
      | Some suburbName =>
          formatStreetName streetName ++ ", " ++
          match Obj.get suburbName SuburbNames with
          | Some suffix => suffix
          | None => "undefined"
          end
      end
  end.

End Address.

(* ------------------------------------------------------------------------- *)
(** ** Records shared by the two parsers                                      *)
(* ------------------------------------------------------------------------- *)

(** The object built for each development application. *)
Record DevelopmentApplication : Type := mkApplication {
  applicationNumber : string;
  address : string;
  description : string;
  informationUrl : string;
  commentUrl : string;
  scrapeDate : string;
  receivedDate : string;
  legalDescription : string
}.

Definition CommentUrl : string := "mailto:mail@dclep.sa.gov.au".

Definition NoDescription : string := "No Description Provided".

(** [elements.map(element => element.text).join(" ").replace(/\s\s+/g, " ").trim()]. *)
Definition joinText (elements : list Element) : string :=
  Js.trim (Js.collapseWhiteSpace (Js.join " " (map text elements))).

(** [elements.map(element => `[${element.text}]`).join("")]. *)
Definition elementSummary (elements : list Element) : string :=
  Js.join "" (map (fun element => "[" ++ text element ++ "]") elements).

(** [element.y = -(element.y + element.height)]. *)
Definition invertY (r : Rectangle) : Rectangle :=
  mkRectangle (x r) (- (y r + height r))%Q (width r) (height r).

Definition invertElement (element : Element) : Element :=
  mkElement (text element) (invertY element).

(** The comparer shared by [cellComparer] (tolerance 2) and [elementComparer]
    (tolerance 1): approximate Y co-ordinate, then X co-ordinate. *)
Definition approximateComparer (tolerance : Q) (a b : Rectangle) : Z :=
  if Qlt_bool (Qabs (y a - y b)) tolerance
  then (if Qlt_bool (x b) (x a) then 1 else if Qlt_bool (x a) (x b) then -1 else 0)%Z
  else (if Qlt_bool (y b) (y a) then 1 else -1)%Z.

Definition elementComparer (a b : Element) : Z := approximateComparer 1 a b.

Definition yComparer (a b : Rectangle) : Z :=
  (if Qlt_bool (y b) (y a) then 1 else if Qlt_bool (y a) (y b) then -1 else 0)%Z.

Definition xComparer (a b : Rectangle) : Z :=
  (if Qlt_bool (x b) (x a) then 1 else if Qlt_bool (x a) (x b) then -1 else 0)%Z.

(* ------------------------------------------------------------------------- *)
(** ** Column mode: [parsePdf] of scraper.ts                                   *)
(* ------------------------------------------------------------------------- *)

Module Column.

(** The seven heading elements, declared outside the page loop: they persist
    from page to page and start out [undefined]. *)
Record Headings : Type := mkHeadings {
  receivedDateHeadingElement : option Element;
  lotNumberHeadingElement : option Element;
  houseNumberHeadingElement : option Element;
  streetNameHeadingElement : option Element;
  planHeadingElement : option Element;
  suburbNameHeadingElement : option Element;
  descriptionHeadingElement : option Element
}.

Definition noHeadings : Headings := mkHeadings None None None None None None None.

(** [element.text.toUpperCase().replace(/[^A-Z]/g, "")]. *)
Definition headingKey (element : Element) : string :=
  Js.keepUpperLetters (Js.toUpperCase (text element)).

Definition findHeading (name : string) (row : list Element) : option Element :=
  find (fun element => String.eqb (headingKey element) name) row.

Definition captureHeadings (row : list Element) : Headings :=
  {| receivedDateHeadingElement := findHeading "LODGED" row;
     lotNumberHeadingElement := findHeading "LOTNO" row;
     houseNumberHeadingElement := findHeading "STNO" row;
     streetNameHeadingElement := findHeading "STNAME" row;
     planHeadingElement := findHeading "FPDP" row;
     suburbNameHeadingElement := findHeading "SUBURBHDOF" row;
     descriptionHeadingElement := findHeading "DESCRIPTIONOFDEVELOPMENT" row |}.

(** [row.filter(element => getHorizontalOverlapPercentage(heading, element) > 0)]. *)
Definition underHeading (heading : option Element) (row : list Element) : list Element :=
  filter (fun element =>
            Qlt_bool 0 (getHorizontalOverlapPercentage (option_map bounds heading)
                                                       (Some (bounds element)))) row.

(** The suburb name and the hundred name held by the suburb text (the lines
    from [suburbName.split("/")] to the two [replace(/^HD /i, "")]).  The
    result is [(suburbName, hundredName)]. *)
Definition splitSuburb (suburbName : string) : string * string :=
  let suburbNameTokens := Js.split "/" suburbName in
  let '(suburbName, hundredName) :=
    match suburbNameTokens with
    | [token0; token1] =>
        if Js.testHD (Js.trim token1)
        then (Js.trim token0, Js.trim token1)
        else (Js.trim token1, Js.trim token0)
    | _ => (suburbName, "")
    end in
  (Js.stripHD suburbName, Js.stripHD hundredName).

(** [legalDescriptionItems.join(", ")]. *)
Definition composeLegalDescription (lotNumber plan hundredName : string) : string :=
  let legalDescriptionItems :=
    List.app (if String.eqb lotNumber "" then [] else ["Lot " ++ lotNumber])
      (List.app (if String.eqb plan "" then [] else ["Plan " ++ plan])
                (if String.eqb hundredName "" then [] else ["Hundred " ++ hundredName])) in
  Js.join ", " legalDescriptionItems.

(** What is read from one anchor row before the record is looked up. *)
Record RowValues : Type := mkRowValues {
  rowApplicationNumber : string;
  rowReceivedDate : option string;   (* the date as YYYY-MM-DD when valid *)
  rowAddress : string;
  rowDescription : string;
  rowLegalDescription : string
}.

Definition withDefault (description : string) : string :=
  if String.eqb description "" then NoDescription else description.

(** The store [developmentApplications] and the headings, threaded through
    the anchors of every page. *)
Record State : Type := mkState {
  headings : Headings;
  developmentApplications : Obj.t DevelopmentApplication
}.

Section Parse.

Variable StreetNames : Obj.t (list string).
Variable StreetSuffixes : Obj.t string.
Variable SuburbNames : Obj.t string.
Variable didYouMean : string -> list string -> nat -> option string.

(** [moment text format] stands for [moment(text, format, true)]: [Some d]
    when the strict parse is valid, [d] being [format("YYYY-MM-DD")]. *)
Variable moment : string -> string -> option string.

(** [moment().format("YYYY-MM-DD")]. *)
Variable today : string.

Definition rowDescriptionText (hs : Headings) (row : list Element) : string :=
  joinText (underHeading (descriptionHeadingElement hs) row).

(** The development application details read from a row.  (The source guards
    each field by a test that the filtered array is not [undefined], which
    always holds.) *)
Definition extractRow (hs : Headings) (row : list Element) (anchor : Element) : RowValues :=
  let receivedDateElements := underHeading (receivedDateHeadingElement hs) row in
  let lotNumberElements := underHeading (lotNumberHeadingElement hs) row in
  let houseNumberElements := underHeading (houseNumberHeadingElement hs) row in
  let streetNameElements := underHeading (streetNameHeadingElement hs) row in
  let planElements := underHeading (planHeadingElement hs) row in
  let suburbNameElements := underHeading (suburbNameHeadingElement hs) row in
  let applicationNumber := Js.trim (Js.removeWhiteSpace (text anchor)) in
  let receivedDate := moment (joinText receivedDateElements) "D-MMM-YY" in
  let lotNumber := joinText lotNumberElements in
  let houseNumber := joinText houseNumberElements in
  let streetName := joinText streetNameElements in
  let plan := joinText planElements in
  let '(suburbName, hundredName) := splitSuburb (joinText suburbNameElements) in
  let address :=
    formatAddress StreetNames StreetSuffixes SuburbNames didYouMean
      (if negb (String.eqb streetName "") && negb (String.eqb suburbName "")
       then Js.toUpperCase (houseNumber ++ " " ++ streetName ++ ", " ++ suburbName)
       else "") in
  let description := withDefault (rowDescriptionText hs row) in
  let legalDescription := composeLegalDescription lotNumber plan hundredName in
  mkRowValues applicationNumber receivedDate address description legalDescription.

Definition newApplication (url applicationNumber : string) : DevelopmentApplication :=
  {| applicationNumber := applicationNumber;
     address := "";
     description := NoDescription;
     informationUrl := url;
     commentUrl := CommentUrl;
     scrapeDate := today;
     receivedDate := "";
     legalDescription := "" |}.

Definition setReceivedDate (v : string) (d : DevelopmentApplication) :=
  mkApplication (applicationNumber d) (address d) (description d) (informationUrl d)
                (commentUrl d) (scrapeDate d) v (legalDescription d).
Definition setAddress (v : string) (d : DevelopmentApplication) :=
  mkApplication (applicationNumber d) v (description d) (informationUrl d)
                (commentUrl d) (scrapeDate d) (receivedDate d) (legalDescription d).
Definition setLegalDescription (v : string) (d : DevelopmentApplication) :=
  mkApplication (applicationNumber d) (address d) (description d) (informationUrl d)
                (commentUrl d) (scrapeDate d) (receivedDate d) v.
Definition setDescription (v : string) (d : DevelopmentApplication) :=
  mkApplication (applicationNumber d) (address d) v (informationUrl d)
                (commentUrl d) (scrapeDate d) (receivedDate d) (legalDescription d).

(** The four guarded assignments on the record of the row. *)
Definition updateApplication (hs : Headings) (v : RowValues)
    (developmentApplication : DevelopmentApplication) : DevelopmentApplication :=
  let d := developmentApplication in
  let d := if isDefined (receivedDateHeadingElement hs)
           then setReceivedDate (match rowReceivedDate v with Some date => date | None => "" end) d
           else d in
  let d := if isDefined (houseNumberHeadingElement hs) || isDefined (streetNameHeadingElement hs)
              || isDefined (suburbNameHeadingElement hs)
           then setAddress (rowAddress v) d else d in
  let d := if isDefined (lotNumberHeadingElement hs) || isDefined (planHeadingElement hs)
              || isDefined (suburbNameHeadingElement hs)
           then setLegalDescription (rowLegalDescription v) d else d in
  let d := if isDefined (descriptionHeadingElement hs) && negb (String.eqb (rowDescription v) "")
           then setDescription (rowDescription v) d else d in
  d.

(** Looks the record up by application number, creates it when it is new, and
    updates it in place. *)
Definition mergeRow (url : string) (hs : Headings) (v : RowValues)
    (das : Obj.t DevelopmentApplication) : Obj.t DevelopmentApplication :=
  let developmentApplication :=
    match Obj.get (rowApplicationNumber v) das with
    | Some d => d
    | None => newApplication url (rowApplicationNumber v)
    end in
  Obj.set (rowApplicationNumber v) (updateApplication hs v developmentApplication) das.

(** The elements of the row of an anchor: at or above the anchor and, except
    for the first anchor, strictly below the previous one. *)
Definition anchorRow (elements : list Element) (previous : option Element)
    (anchor : Element) : list Element :=
  filter (fun element : Element =>
            Qle_bool (y element) (y anchor) &&
            match previous with
            | None => true
            | Some p => Qlt_bool (y p) (y element)
            end) elements.

(** One iteration of the loop over [leftmostElements]; [previous] is
    [leftmostElements[index - 1]], and is [None] exactly when [index === 0]. *)
Definition processAnchor (url : string) (elements : list Element)
    (previous : option Element) (anchor : Element) (st : State) : State :=
  let row := anchorRow elements previous anchor in
  if negb (isDefined previous) && String.eqb (headingKey anchor) "DEVNO"
  then mkState (captureHeadings row) (developmentApplications st)
  else mkState (headings st)
               (mergeRow url (headings st) (extractRow (headings st) row anchor)
                         (developmentApplications st)).

Fixpoint processAnchors (url : string) (elements : list Element)
    (previous : option Element) (anchors : list Element) (st : State) : State :=
  match anchors with
  | [] => st
  | anchor :: rest =>
      processAnchors url elements (Some anchor) rest
                     (processAnchor url elements previous anchor st)
  end.

(** [elements.reduce(...)]: the first element of least x. *)
Definition leftmostOf (elements : list Element) : option Element :=
  fold_left (fun (previous : option Element) (current : Element) =>
               match previous with
               | None => Some current
               | Some p => if Qlt_bool (x current) (x p) then Some current else Some p
               end) elements None.

Definition anchorsOf (elements : list Element) : list Element :=
  let leftmostElements :=
    match leftmostOf elements with
    | Some leftmostElement =>
        filter (fun element : Element =>
                  Qlt_bool (Qabs (x element - x leftmostElement)) 20) elements
    | None => []
    end in
  Js.sort (fun a b : Element => yComparer a b) leftmostElements.

(** The body of the page loop, on the elements [parseElements] returned. *)
Definition parsePage (url : string) (pageElements : list Element) (st : State) : State :=
  let elements := map invertElement pageElements in
  let elements := Js.sort elementComparer elements in
  processAnchors url elements None (anchorsOf elements) st.

Definition readingPage (pageIndex numPages : nat) : string :=
  "Reading and parsing applications from page " ++ Js.showNat (pageIndex + 1) ++
  " of " ++ Js.showNat numPages ++ ".".

Fixpoint parsePages (url : string) (numPages pageIndex : nat)
    (pages : list (list Element)) (st : State) : State * list string :=
  match pages with
  | [] => (st, [])
  | page :: rest =>
      let '(st', log) := parsePages url numPages (S pageIndex) rest (parsePage url page st) in
      (st', readingPage pageIndex numPages :: log)
  end.

Definition previousContext (previousApplicationNumber : option string) : string :=
  match previousApplicationNumber with
  | None => ""
  | Some previous => "  The previous application number was " ++ previous ++ "."
  end.

(** Remove any development applications with invalid addresses or application
    numbers. *)
Fixpoint filterApplications (previousApplicationNumber : option string)
    (das : list DevelopmentApplication) : list DevelopmentApplication * list string :=
  match das with
  | [] => ([], [])
  | developmentApplication :: rest =>
      if String.eqb (applicationNumber developmentApplication) "" then
        let '(kept, log) := filterApplications previousApplicationNumber rest in
        (kept, ("Ignoring a development application because the application number was blank."
                ++ previousContext previousApplicationNumber) :: log)
      else if String.eqb (address developmentApplication) "" then
        let '(kept, log) := filterApplications previousApplicationNumber rest in
        (kept, ("Ignoring development application " ++ applicationNumber developmentApplication
                ++ " because the address was blank (the street name or suburb name is blank)."
                ++ previousContext previousApplicationNumber) :: log)
      else
        let '(kept, log) :=
          filterApplications (Some (applicationNumber developmentApplication)) rest in
        (developmentApplication :: kept, log)
  end.

Definition initialState : State := mkState noHeadings [].

(** Parses a PDF document, given the elements of each of its pages. *)
Definition parsePdf (url : string) (pages : list (list Element))
    : list DevelopmentApplication * list string :=
  let '(st, pageLog) := parsePages url (List.length pages) 0 pages initialState in
  let '(filteredDevelopmentApplications, filterLog) :=
    filterApplications None (Obj.values (developmentApplications st)) in
  (filteredDevelopmentApplications,
   ("Reading development applications from " ++ url ++ ".") :: List.app pageLog filterLog).

End Parse.

End Column.

(* ------------------------------------------------------------------------- *)
(** ** Grid mode: [parsePdf] of the compiled grid parser                      *)
(* ------------------------------------------------------------------------- *)

Module Grid.

(** A cell of the grid: a rectangle and the elements it owns. *)
Record Cell : Type := mkCell {
  elements : list Element;
  cellBounds :> Rectangle
}.

Definition invertCell (cell : Cell) : Cell :=
  mkCell (elements cell) (invertY cell).

Definition cellComparer (a b : Cell) : Z := approximateComparer 2 a b.

(** [getPercentageOfElementInCell(element, cell) > 50]. *)
Definition owns (element : Element) (cell : Cell) : bool :=
  Qlt_bool 50 (getPercentageOfElementInCell element cell).

(** [cells.find(cell => getPercentageOfElementInCell(element, cell) > 50)]. *)
Definition ownerCell (cells : list Cell) (element : Element) : option Cell :=
  find (owns element) cells.

(** [ownerCell.elements.push(element)] on the cell [find] returned: the first
    owning cell of the array gains the element, the array is otherwise
    unchanged. *)
Fixpoint pushToOwner (element : Element) (cells : list Cell) : list Cell :=
  match cells with
  | [] => []
  | cell :: rest =>
      if owns element cell
      then mkCell (List.app (elements cell) [element]) cell :: rest
      else cell :: pushToOwner element rest
  end.

(** Allocate each element to an "owning" cell. *)
Definition allocateElements (cells : list Cell) (pageElements : list Element) : list Cell :=
  fold_left (fun cells element => pushToOwner element cells) pageElements cells.

Definition sameRow (row : list Cell) (cell : Cell) : bool :=
  match row with
  | first :: _ => Qlt_bool (Qabs (y first - y cell)) 2
  | [] => false
  end.

(** [rows.find(...)] followed by [rows.push([cell])] or [row.push(cell)]. *)
Fixpoint addToRows (cell : Cell) (rows : list (list Cell)) : list (list Cell) :=
  match rows with
  | [] => [[cell]]
  | row :: rest =>
      if sameRow row cell then List.app row [cell] :: rest
      else row :: addToRows cell rest
  end.

(** Group the cells into rows. *)
Definition groupRows (cells : list Cell) : list (list Cell) :=
  fold_left (fun rows cell => addToRows cell rows) cells [].

Definition firstY (row : list Cell) : Q :=
  match row with
  | first :: _ => y first
  | [] => 0%Q
  end.

Definition rowComparer (a b : list Cell) : Z :=
  (if Qlt_bool (firstY b) (firstY a) then 1
   else if Qlt_bool (firstY a) (firstY b) then -1 else 0)%Z.

Definition rowCellComparer (a b : Cell) : Z := xComparer a b.

Definition sortRows (rows : list (list Cell)) : list (list Cell) :=
  map (Js.sort rowCellComparer) (Js.sort rowComparer rows).

(** [cells.find(cell => cell.elements.some(element =>
    element.text.toLowerCase().replace(/\s/g, "") === name))]. *)
Definition findHeadingCell (name : string) (cells : list Cell) : option Cell :=
  find (fun cell =>
          existsb (fun element =>
                     String.eqb (Js.removeWhiteSpace (Js.toLowerCase (text element))) name)
                  (elements cell)) cells.

Record Headings : Type := mkHeadings {
  applicationNumberHeadingCell : option Cell;
  receivedDateHeadingCell : option Cell;
  legalDescriptionHeadingCell : option Cell;
  streetNameHeadingCell : option Cell;
  suburbNameHeadingCell : option Cell;
  descriptionHeadingCell : option Cell
}.

Definition findHeadings (cells : list Cell) : Headings :=
  {| applicationNumberHeadingCell := findHeadingCell "d/anumber" cells;
     receivedDateHeadingCell := findHeadingCell "received" cells;
     legalDescriptionHeadingCell :=
       match findHeadingCell "allotmentor" cells with
       | Some cell => Some cell
       | None => findHeadingCell "allotment/" cells
       end;
     streetNameHeadingCell := findHeadingCell "streetname" cells;
     suburbNameHeadingCell := findHeadingCell "town" cells;
     descriptionHeadingCell := findHeadingCell "proposal" cells |}.

(** [row.find(cell => getHorizontalOverlapPercentage(cell, headingCell) > 90)]. *)
Definition alignedCell (headingCell : option Cell) (row : list Cell) : option Cell :=
  find (fun cell : Cell =>
          Qlt_bool 90 (getHorizontalOverlapPercentage (Some (cellBounds cell))
                                                      (option_map cellBounds headingCell))) row.

(** [cell.elements.map(element => element.text).join("").trim()]. *)
Definition applicationNumberText (cell : Cell) : string :=
  Js.trim (Js.join "" (map text (elements cell))).

(** The description text of a row: empty when the row has no description
    cell. *)
Definition rowDescriptionText (hs : Headings) (row : list Cell) : string :=
  match alignedCell (descriptionHeadingCell hs) row with
  | Some descriptionCell => joinText (elements descriptionCell)
  | None => ""
  end.

Section Parse.

Variable StreetNames : Obj.t (list string).
Variable StreetSuffixes : Obj.t string.
Variable SuburbNames : Obj.t string.
Variable didYouMean : string -> list string -> nat -> option string.
Variable moment : string -> string -> option string.
Variable today : string.

(** The body of the loop over the rows: the record pushed, if any, and the
    lines logged. *)
Definition processRow (url : string) (hs : Headings) (row : list Cell)
    : option DevelopmentApplication * list string :=
  let applicationNumberCell := alignedCell (applicationNumberHeadingCell hs) row in
  let receivedDateCell := alignedCell (receivedDateHeadingCell hs) row in
  let legalDescriptionCell := alignedCell (legalDescriptionHeadingCell hs) row in
  let streetNameCell := alignedCell (streetNameHeadingCell hs) row in
  let suburbNameCell := alignedCell (suburbNameHeadingCell hs) row in
  match applicationNumberCell with
  | None => (None, [])
  | Some applicationNumberCell =>
  let applicationNumber := applicationNumberText applicationNumberCell in
  if negb (Js.testApplicationNumber applicationNumber) then (None, []) else
  let found := "Found development application " ++ applicationNumber ++ "." in
  match streetNameCell, suburbNameCell with
  | None, _ =>
      (None, [found; "Ignoring the development application because it has no street name cell."])
  | Some _, None =>
      (None, [found; "Ignoring the development application because it has no suburb name cell."])
  | Some streetNameCell, Some suburbNameCell =>
  let streetName := joinText (elements streetNameCell) in
  let suburbName := joinText (elements suburbNameCell) in
  if String.eqb streetName "" then
    (None, [found; "Ignoring the development application because it has no street name."])
  else if String.eqb suburbName "" then
    (None, [found; "Ignoring the development application because it has no suburb name."])
  else
  let address :=
    formatAddress StreetNames StreetSuffixes SuburbNames didYouMean
                  (streetName ++ ", " ++ suburbName) in
  if String.eqb address "" then
    (None, [found; "Ignoring the development application because the address is blank."])
  else
  let description := rowDescriptionText hs row in
  let receivedDate :=
    match receivedDateCell with
    | Some cell =>
        match elements cell with
        | first :: _ => moment (Js.trim (text first)) "D/MM/YYYY"
        | [] => None
        end
    | None => None
    end in
  let legalDescription :=
    match legalDescriptionCell with
    | Some cell => joinText (elements cell)
    | None => ""
    end in
  (Some {| applicationNumber := applicationNumber;
           address := address;
           description := if String.eqb description "" then NoDescription else description;
           informationUrl := url;
           commentUrl := CommentUrl;
           scrapeDate := today;
           receivedDate := match receivedDate with Some date => date | None => "" end;
           legalDescription := legalDescription |},
   [found])
  end
  end.

Fixpoint processRows (url : string) (hs : Headings) (rows : list (list Cell))
    : list DevelopmentApplication * list string :=
  match rows with
  | [] => ([], [])
  | row :: rest =>
      let '(pushed, rowLog) := processRow url hs row in
      let '(others, log) := processRows url hs rest in
      (match pushed with Some d => d :: others | None => others end, List.app rowLog log)
  end.

(** A page as [parseCells] and [parseElements] return it. *)
Record Page : Type := mkPage {
  pageCells : list Cell;
  pageElements : list Element
}.

(** The cells and the elements of a page once inverted, sorted, and the
    elements allocated to their cells. *)
Definition sortedElements (page : Page) : list Element :=
  Js.sort elementComparer (map invertElement (pageElements page)).

Definition sortedCells (page : Page) : list Cell :=
  Js.sort cellComparer (map invertCell (pageCells page)).

Definition allocatedCells (page : Page) : list Cell :=
  allocateElements (sortedCells page) (sortedElements page).

Definition headingNotFound (heading : string) : string :=
  let quote := String (ascii_of_nat 34) EmptyString in
  "the " ++ quote ++ heading ++ quote ++ " column heading was not found.".

Definition skipped (reason : string) (pageElements : list Element) : string :=
  "No development applications can be parsed from the current page because " ++ reason ++
  "  Elements: " ++ elementSummary pageElements.

(** The body of the page loop: the records the page adds and the lines it
    logs (a [continue] ends the page with no record). *)
Definition parsePage (url : string) (page : Page)
    : list DevelopmentApplication * list string :=
  let elements := sortedElements page in
  let cells := allocatedCells page in
  let rows := groupRows cells in
  match rows with
  | [] => ([], [skipped "no rows were found (based on the grid)." elements])
  | _ :: _ =>
  let rows := sortRows rows in
  let hs := findHeadings cells in
  if negb (isDefined (applicationNumberHeadingCell hs)) then
    ([], [skipped (headingNotFound "D/A Number") elements])
  else if negb (isDefined (streetNameHeadingCell hs)) then
    ([], [skipped (headingNotFound "Street Name") elements])
  else if negb (isDefined (suburbNameHeadingCell hs)) then
    ([], [skipped (headingNotFound "Town") elements])
  else processRows url hs rows
  end.

Definition readingPage (pageIndex numPages : nat) : string :=
  "Reading and parsing applications from page " ++ Js.showNat (pageIndex + 1) ++
  " of " ++ Js.showNat numPages ++ ".".

Fixpoint parsePages (url : string) (numPages pageIndex : nat) (pages : list Page)
    : list DevelopmentApplication * list string :=
  match pages with
  | [] => ([], [])
  | page :: rest =>
      let '(records, pageLog) := parsePage url page in
      let '(others, log) := parsePages url numPages (S pageIndex) rest in
      (List.app records others,
       readingPage pageIndex numPages :: List.app pageLog log)
  end.

(** Parses a PDF document, given the cells and elements of each page. *)
Definition parsePdf (url : string) (pages : list Page)
    : list DevelopmentApplication * list string :=
  let '(developmentApplications, log) := parsePages url (List.length pages) 0 pages in
  (developmentApplications,
   ("Reading development applications from " ++ url ++ ".") :: log).

End Parse.

End Grid.

(* ------------------------------------------------------------------------- *)
(** ** Sample collaborators, used to run the model on examples                *)
(* ------------------------------------------------------------------------- *)

Module Sample.

(** One row of the edit-distance table. *)
Fixpoint distanceRow (c : ascii) (b : string) (previousRow : list nat) (left : nat)
    : list nat :=
  match b, previousRow with
  | String d b', diagonal :: ((up :: _) as previousRow') =>
      let cost := if Ascii.eqb c d then 0 else 1 in
      let here := Nat.min (Nat.min (S up) (S left)) (diagonal + cost) in
      here :: distanceRow c b' previousRow' here
  | _, _ => []
  end.

Fixpoint distanceRows (a b : string) (row : list nat) : list nat :=
  match a with
  | EmptyString => row
  | String c a' =>
      let first := S (hd 0 row) in
      distanceRows a' b (first :: distanceRow c b row first)
  end.

(** The Levenshtein distance. *)
Definition editDistance (a b : string) : nat :=
  last (distanceRows a b (seq 0 (S (String.length b)))) 0.

Definition normalise (s : string) : string :=
  Js.toLowerCase (Js.collapseWhiteSpace (Js.trim s)).

Fixpoint closest (input : string) (matchList : list string) (threshold : nat)
    (best : option (nat * string)) : option string :=
  match matchList with
  | [] => option_map snd best
  | item :: rest =>
      let score := editDistance input (normalise item) in
      let better := match best with
                    | Some (bestScore, _) => Nat.ltb score bestScore
                    | None => true
                    end in
      closest input rest threshold
              (if better && Nat.leb score threshold then Some (score, item) else best)
  end.

(** A closest-match search in the manner of the matcher the source calls:
    case-insensitive, edit distance at most the threshold, first of the
    closest items. *)
Definition didYouMean (input : string) (matchList : list string) (threshold : nat)
    : option string :=
  closest (normalise input) matchList threshold None.

Definition StreetNames : Obj.t (list string) :=
  [("MAIN STREET", ["CUMMINS"]); ("BRATTEN WAY", ["CUMMINS"; "BOSTON"]);
   ("FLINDERS HIGHWAY", ["COFFIN BAY"])].

Definition StreetSuffixes : Obj.t string :=
  [("ST", "STREET"); ("HWY", "HIGHWAY"); ("RD", "ROAD")].

Definition SuburbNames : Obj.t string :=
  [("CUMMINS", "CUMMINS SA 5631"); ("COFFIN BAY", "COFFIN BAY SA 5607");
   ("BOSTON", "BOSTON SA 5607")].

(** A date oracle that knows two dates. *)
Definition moment (text format : string) : option string :=
  if String.eqb format "D-MMM-YY" && String.eqb text "3-Jan-19" then Some "2019-01-03"
  else if String.eqb format "D/MM/YYYY" && String.eqb text "3/01/2019" then Some "2019-01-03"
  else None.

Definition today : string := "2019-02-27".

Definition url : string := "https://www.lowereyrepeninsula.sa.gov.au/register.pdf".

Definition formatStreetName : string -> string :=
  formatStreetName StreetNames StreetSuffixes didYouMean.

Definition formatAddress : string -> string :=
  formatAddress StreetNames StreetSuffixes SuburbNames didYouMean.

Definition element (t : string) (ex ey ew eh : Q) : Element :=
  mkElement t (mkRectangle ex ey ew eh).

End Sample.

(* ------------------------------------------------------------------------- *)
(** ** Vocabulary of the statements                                           *)
(* ------------------------------------------------------------------------- *)

(** [s] holds the character [c]. *)
Fixpoint hasChar (c : ascii) (s : string) : bool :=
  match s with
  | EmptyString => false
  | String d s' => Ascii.eqb d c || hasChar c s'
  end.

(** [s.includes(pat)]: [pat] occurs somewhere in [s]. *)
Fixpoint includes (pat s : string) : bool :=
  String.prefix pat s ||
  match s with
  | String _ s' => includes pat s'
  | EmptyString => false
  end.

(** The abbreviations [formatAddress] expands. *)
Definition terraceAbbreviations : list string :=
  [" TCE NTH"; " TCE STH"; " TCE EAST"; " TCE WEST"].

Definition noTerraceAbbreviation (s : string) : bool :=
  forallb (fun pat => negb (includes pat s)) terraceAbbreviations.

(** A record the final loop of column mode keeps. *)
Definition isValid (d : DevelopmentApplication) : bool :=
  negb (String.eqb (applicationNumber d) "") && negb (String.eqb (address d) "").

(** The application number the final loop holds in [previousApplicationNumber]
    once it has gone through [das]. *)
Definition lastValid (previous : option string) (das : list DevelopmentApplication)
    : option string :=
  fold_left (fun previous d => if isValid d then Some (applicationNumber d) else previous)
            das previous.

(** What the final loop logs for a record it drops, before the context. *)
Definition dropMessage (d : DevelopmentApplication) : string :=
  if String.eqb (applicationNumber d) ""
  then "Ignoring a development application because the application number was blank."
  else "Ignoring development application " ++ applicationNumber d ++
       " because the address was blank (the street name or suburb name is blank).".

(** The records column mode holds once every page is processed, in the order
    [Object.values] lists them. *)
Definition columnRecords
    (StreetNames : Obj.t (list string)) (StreetSuffixes SuburbNames : Obj.t string)
    (didYouMean : string -> list string -> nat -> option string)
    (moment : string -> string -> option string) (today url : string)
    (pages : list (list Element)) : list DevelopmentApplication :=
  Obj.values
    (Column.developmentApplications
       (fst (Column.parsePages StreetNames StreetSuffixes SuburbNames didYouMean moment today
                               url (List.length pages) 0 pages Column.initialState))).

(** Sample documents, as [parseElements] and [parseCells] would return their
    pages (PDF co-ordinates, the y axis pointing up). *)
Module SampleDocument.

Import Sample.

Definition headingRow : list Element :=
  [element "DEV NO." 10 800 40 10; element "LODGED" 60 800 40 10;
   element "LOT NO" 110 800 30 10; element "ST NO" 150 800 30 10;
   element "ST NAME" 190 800 60 10; element "FP/DP" 260 800 30 10;
   element "SUBURB/HD OF" 300 800 80 10;
   element "DESCRIPTION OF DEVELOPMENT" 390 800 150 10].

Definition shedRow : list Element :=
  [element "371/001/19" 10 780 40 10; element "3-Jan-19" 60 780 40 10;
   element "5" 110 780 10 10; element "12" 150 780 10 10;
   element "MAIN ST" 190 780 40 10; element "D1234" 260 780 30 10;
   element "CUMMINS/HD CUMMINS" 300 780 80 10; element "Shed" 390 780 30 10].

(** A row that holds an application number and nothing else. *)
Definition blankRow : list Element :=
  [element "371/002/19" 10 760 40 10].

(** A second row for application 371/001/19: an address, and no date, lot,
    plan or description. *)
Definition repeatedRow : list Element :=
  [element "371/001/19" 10 760 40 10; element "12" 150 760 10 10;
   element "MAIN ST" 190 760 40 10; element "CUMMINS" 300 760 80 10].

Definition shedPage : list Element := (headingRow ++ shedRow)%list.
Definition droppingPage : list Element := (headingRow ++ shedRow ++ blankRow)%list.
Definition repeatingPage : list Element := (headingRow ++ shedRow ++ repeatedRow)%list.

Definition columnParsePdf : list (list Element) -> list DevelopmentApplication * list string :=
  Column.parsePdf StreetNames StreetSuffixes SuburbNames didYouMean moment today url.

Definition cell (cx cy cw ch : Q) : Grid.Cell :=
  Grid.mkCell [] (mkRectangle cx cy cw ch).

Definition gridRow (cy : Q) : list Grid.Cell :=
  [cell 0 cy 100 20; cell 100 cy 150 20; cell 250 cy 100 20; cell 350 cy 150 20].

Definition gridCells : list Grid.Cell := (gridRow 740 ++ gridRow 760 ++ gridRow 780)%list.

Definition gridHeadings : list Element :=
  [element "D/A Number" 5 785 60 10; element "Street Name" 105 785 70 10;
   element "Town" 255 785 30 10; element "Proposal" 355 785 50 10].

Definition gridBody : list Element :=
  [element "910/144/16" 5 765 60 10; element "12 Main St" 105 765 60 10;
   element "Cummins" 255 765 50 10;
   element "Total" 5 745 30 10; element "1" 105 745 10 10].

Definition gridPage : Grid.Page := Grid.mkPage gridCells (gridHeadings ++ gridBody)%list.

(** The same page with the "D/A Number" heading missing. *)
Definition headlessPage : Grid.Page := Grid.mkPage gridCells (tl gridHeadings ++ gridBody)%list.

Definition gridParsePage : Grid.Page -> list DevelopmentApplication * list string :=
  Grid.parsePage StreetNames StreetSuffixes SuburbNames didYouMean moment today url.

Definition gridParsePdf : list Grid.Page -> list DevelopmentApplication * list string :=
  Grid.parsePdf StreetNames StreetSuffixes SuburbNames didYouMean moment today url.

End SampleDocument.

(** A non-empty run of decimal digits. *)
Definition isNumber (s : string) : Prop := s <> "" /\ Obj.allDigits s = true.

(** The text holds, somewhere, digits "/" digits "/" digits: what the
    unanchored pattern [/[0-9]+\/[0-9]+\/[0-9]+/] accepts. *)
Definition matchesApplicationNumber (s : string) : Prop :=
  exists before d1 d2 d3 after,
    isNumber d1 /\ isNumber d2 /\ isNumber d3 /\
    s = before ++ d1 ++ "/" ++ d2 ++ "/" ++ d3 ++ after.

(** The sample grid page after the page loop has sorted and grouped it. *)
Module SampleGrid.

Definition headings : Grid.Headings :=
  Grid.findHeadings (Grid.allocatedCells SampleDocument.gridPage).

Definition rows : list (list Grid.Cell) :=
  Grid.sortRows (Grid.groupRows (Grid.allocatedCells SampleDocument.gridPage)).

(** The row of the application 910/144/16 and the row that starts "Total". *)
Definition applicationRow : list Grid.Cell := nth 1 rows [].
Definition totalRow : list Grid.Cell := nth 2 rows [].

Definition processRow : list Grid.Cell -> option DevelopmentApplication * list string :=
  Grid.processRow Sample.StreetNames Sample.StreetSuffixes Sample.SuburbNames
                  Sample.didYouMean Sample.moment Sample.today Sample.url headings.

End SampleGrid.

(** The four fields column mode assigns under a guard on the headings. *)
Inductive Field : Type := ReceivedDate | Address | LegalDescription | Description.

Definition fieldOf (f : Field) (d : DevelopmentApplication) : string :=
  match f with
  | ReceivedDate => receivedDate d
  | Address => address d
  | LegalDescription => legalDescription d
  | Description => description d
  end.

(** The current heading capture defines a heading of the field. *)
Definition headingDefined (f : Field) (hs : Column.Headings) : bool :=
  match f with
  | ReceivedDate => isDefined (Column.receivedDateHeadingElement hs)
  | Address =>
      isDefined (Column.houseNumberHeadingElement hs)
      || isDefined (Column.streetNameHeadingElement hs)
      || isDefined (Column.suburbNameHeadingElement hs)
  | LegalDescription =>
      isDefined (Column.lotNumberHeadingElement hs)
      || isDefined (Column.planHeadingElement hs)
      || isDefined (Column.suburbNameHeadingElement hs)
  | Description => isDefined (Column.descriptionHeadingElement hs)
  end.

(** The value of the field read from the row. *)
Definition extracted (f : Field) (v : Column.RowValues) : string :=
  match f with
  | ReceivedDate => match Column.rowReceivedDate v with Some date => date | None => "" end
  | Address => Column.rowAddress v
  | LegalDescription => Column.rowLegalDescription v
  | Description => Column.rowDescription v
  end.

(** One pass of the anchor loop that reads a row: the headings in force, the
    elements of the row, and the anchor. *)
Record Step : Type := mkStep {
  stepHeadings : Column.Headings;
  stepRow : list Element;
  stepAnchor : Element
}.

(** The application number read from an anchor. *)
Definition anchorNumber (anchor : Element) : string :=
  Js.trim (Js.removeWhiteSpace (text anchor)).

Section Steps.

Variable StreetNames : Obj.t (list string).
Variable StreetSuffixes : Obj.t string.
Variable SuburbNames : Obj.t string.
Variable didYouMean : string -> list string -> nat -> option string.
Variable moment : string -> string -> option string.
Variable today : string.

Definition stepValues (s : Step) : Column.RowValues :=
  Column.extractRow StreetNames StreetSuffixes SuburbNames didYouMean moment
                    (stepHeadings s) (stepRow s) (stepAnchor s).

Definition mergeStep (url : string) (das : Obj.t DevelopmentApplication) (s : Step)
    : Obj.t DevelopmentApplication :=
  Column.mergeRow today url (stepHeadings s) (stepValues s) das.

(** The store after a sequence of row-reading passes. *)
Definition mergeSteps (url : string) (steps : list Step) (das : Obj.t DevelopmentApplication)
    : Obj.t DevelopmentApplication :=
  fold_left (mergeStep url) steps das.

(** The state a run of passes leads to: the headings it leaves in force and
    the store after its steps. *)
Definition afterPasses (url : string) (st : Column.State)
    (passes : list Step * Column.Headings) : Column.State :=
  Column.mkState (snd passes)
                 (mergeSteps url (fst passes) (Column.developmentApplications st)).

End Steps.

(** What a sequence of passes leaves in a field of the record of [key], said
    in one sentence per pass: a pass for another record, a pass under headings
    that define no heading of the field, and a pass that reads an empty
    description leave the value; every other pass replaces it by the value
    read from its row. *)
Section StepFields.

Variable StreetNames : Obj.t (list string).
Variable StreetSuffixes : Obj.t string.
Variable SuburbNames : Obj.t string.
Variable didYouMean : string -> list string -> nat -> option string.
Variable moment : string -> string -> option string.

Definition fieldAfterStep (f : Field) (key : string) (current : string) (s : Step) : string :=
  let read :=
    extracted f (stepValues StreetNames StreetSuffixes SuburbNames didYouMean moment s) in
  if String.eqb (anchorNumber (stepAnchor s)) key
     && headingDefined f (stepHeadings s)
     && match f with
        | Description => negb (String.eqb read "")
        | _ => true
        end
  then read else current.

Definition fieldAfter (f : Field) (key : string) (steps : list Step) (initial : string)
    : string :=
  fold_left (fieldAfterStep f key) steps initial.

End StepFields.

(** The row-reading passes of a document, in order: the anchor loop of every
    page, with the headings each pass finds in force.  A heading row reads no
    row; it replaces the headings. *)
Section Passes.

Definition anchorPass (elements : list Element) (previous : option Element)
    (anchor : Element) (hs : Column.Headings) : list Step * Column.Headings :=
  let row := Column.anchorRow elements previous anchor in
  if negb (isDefined previous) && String.eqb (Column.headingKey anchor) "DEVNO"
  then ([], Column.captureHeadings row)
  else ([mkStep hs row anchor], hs).

Fixpoint anchorPasses (elements : list Element) (previous : option Element)
    (anchors : list Element) (hs : Column.Headings) : list Step * Column.Headings :=
  match anchors with
  | [] => ([], hs)
  | anchor :: rest =>
      let '(first, hs1) := anchorPass elements previous anchor hs in
      let '(others, hs2) := anchorPasses elements (Some anchor) rest hs1 in
      ((first ++ others)%list, hs2)
  end.

Definition pagePasses (pageElements : list Element) (hs : Column.Headings)
    : list Step * Column.Headings :=
  let elements := Js.sort elementComparer (map invertElement pageElements) in
  anchorPasses elements None (Column.anchorsOf elements) hs.

Fixpoint documentPasses (pages : list (list Element)) (hs : Column.Headings)
    : list Step * Column.Headings :=
  match pages with
  | [] => ([], hs)
  | page :: rest =>
      let '(first, hs1) := pagePasses page hs in
      let '(others, hs2) := documentPasses rest hs1 in
      ((first ++ others)%list, hs2)
  end.

End Passes.

(** The two passes of the sample page that names application 371/001/19
    twice. *)
Module SampleSteps.

Definition headings : Column.Headings :=
  Column.captureHeadings (map invertElement SampleDocument.headingRow).

Definition shedStep : Step :=
  mkStep headings (map invertElement SampleDocument.shedRow)
         (invertElement (Sample.element "371/001/19" 10 780 40 10)).

Definition repeatedStep : Step :=
  mkStep headings (map invertElement SampleDocument.repeatedRow)
         (invertElement (Sample.element "371/001/19" 10 760 40 10)).

(** A third pass for the same application: the anchor and nothing else. *)
Definition bareStep : Step :=
  mkStep headings [invertElement (Sample.element "371/001/19" 10 740 40 10)]
         (invertElement (Sample.element "371/001/19" 10 740 40 10)).

Definition mergeSteps : list Step -> Obj.t DevelopmentApplication -> Obj.t DevelopmentApplication :=
  mergeSteps Sample.StreetNames Sample.StreetSuffixes Sample.SuburbNames Sample.didYouMean
             Sample.moment Sample.today Sample.url.

Definition stepValues : Step -> Column.RowValues :=
  stepValues Sample.StreetNames Sample.StreetSuffixes Sample.SuburbNames Sample.didYouMean
             Sample.moment.

End SampleSteps.

(** The position, in the array of cells, of the first cell that owns the
    element. *)
Fixpoint ownerIndex (cells : list Grid.Cell) (element : Element) : option nat :=
  match cells with
  | [] => None
  | cell :: rest =>
      if Grid.owns element cell then Some 0
      else option_map S (ownerIndex rest element)
  end.

Definition ownedAt (cells : list Grid.Cell) (i : nat) (element : Element) : bool :=
  match ownerIndex cells element with
  | Some j => Nat.eqb i j
  | None => false
  end.

(** The trailing window of [size] tokens, joined: [tokens.slice(-size).join(" ")]. *)
Definition window (tokens : list string) (size : nat) : string :=
  Js.join " " (Js.sliceLast size tokens).

(* ------------------------------------------------------------------------- *)
(** ** Vocabulary of the further properties                                   *)
(* ------------------------------------------------------------------------- *)

(** Two rectangles with equal co-ordinates and sizes. *)
Definition sameRectangle (a b : Rectangle) : Prop :=
  (x a == x b)%Q /\ (y a == y b)%Q /\ (width a == width b)%Q /\ (height a == height b)%Q.



(** A row as [groupRows] builds it: it has a first cell, and every cell of
    the row is within 2 units of the first cell's y. *)
Definition rowAround (row : list Grid.Cell) : Prop :=
  match row with
  | [] => False
  | first :: _ =>
      Forall (fun cell : Grid.Cell =>
                (Qabs (y (Grid.cellBounds first) - y (Grid.cellBounds cell)) < 2)%Q) row
  end.

(** Every character of the string is white space. *)
Fixpoint allWhiteSpace (s : string) : bool :=
  match s with
  | EmptyString => true
  | String c s' => Js.isWhiteSpace c && allWhiteSpace s'
  end.

(* ------------------------------------------------------------------------- *)
(** ** [getRandom] and the choice of the documents in [main]                  *)
(* ------------------------------------------------------------------------- *)



(** [pdfUrl.toLowerCase().includes("register") &&
    pdfUrl.toLowerCase().includes(".pdf")]. *)
Definition isRegisterPdf (pdfUrl : string) : bool :=
  includes "register" (Js.toLowerCase pdfUrl) && includes ".pdf" (Js.toLowerCase pdfUrl).

(** The loop of [main] over the links of the page, in scraper.ts: [hrefs] are
    the resolved addresses of the links, in page order; a new address is
    pushed at the end of [pdfUrls]. *)
Definition collectPdfUrls (hrefs : list string) : list string :=
  fold_left (fun pdfUrls pdfUrl =>
               if isRegisterPdf pdfUrl && negb (existsb (String.eqb pdfUrl) pdfUrls)
               then (pdfUrls ++ [pdfUrl])%list else pdfUrls)
            hrefs [].

(** The same loop in the grid parser, where a new address is put at the front
    ([unshift]). *)
Definition collectPdfUrlsFront (hrefs : list string) : list string :=
  fold_left (fun pdfUrls pdfUrl =>
               if isRegisterPdf pdfUrl && negb (existsb (String.eqb pdfUrl) pdfUrls)
               then pdfUrl :: pdfUrls else pdfUrls)
            hrefs [].


(* ------------------------------------------------------------------------- *)
(** ** [parseCells]: from the lines of a page to its cells                    *)
(* ------------------------------------------------------------------------- *)

(** [line.height <= 2 && line.width >= 200]. *)
Definition isHorizontalLine (line : Rectangle) : bool :=
  Qle_bool (height line) 2 && Qle_bool 200 (width line).

(** [line.width <= 2 && line.height >= 10], tested when the line is not
    horizontal. *)
Definition isVerticalLine (line : Rectangle) : bool :=
  negb (isHorizontalLine line) && Qle_bool (width line) 2 && Qle_bool 10 (height line).

Definition horizontalLinesOf (lines : list Rectangle) : list Rectangle :=
  Js.sort yComparer (filter isHorizontalLine lines).

Definition verticalLinesOf (lines : list Rectangle) : list Rectangle :=
  Js.sort xComparer (filter isVerticalLine lines).

(** The pairs [(l[i], l[i + 1])] for [i < l.length - 1]. *)
Fixpoint adjacent {A} (l : list A) : list (A * A) :=
  match l with
  | a :: ((b :: _) as rest) => (a, b) :: adjacent rest
  | _ => []
  end.

(** Construct cells based on the grid of lines. *)
Definition constructCells (horizontalLines verticalLines : list Rectangle) : list Grid.Cell :=
  flat_map (fun '(horizontalLine, nextHorizontalLine) =>
              map (fun '(verticalLine, nextVerticalLine) =>
                     Grid.mkCell []
                       (mkRectangle (x verticalLine) (y horizontalLine)
                                    (x nextVerticalLine - x verticalLine)
                                    (y nextHorizontalLine - y horizontalLine)))
                  (adjacent verticalLines))
           (adjacent horizontalLines).

(** [parseCells], from the lines the replay of the operator list has found
    (the filled rectangles of the page). *)
Definition parseCells (lines : list Rectangle) : list Grid.Cell :=
  constructCells (horizontalLinesOf lines) (verticalLinesOf lines).

(* ------------------------------------------------------------------------- *)
(** ** [readAddressInformation]                                               *)
(* ------------------------------------------------------------------------- *)

Definition lineFeed : ascii := "010"%char.
Definition carriageReturn : ascii := "013"%char.

(** [content.replace(/\r/g, "").trim().split("\n")]. *)
Definition fileLines (content : string) : list string :=
  Js.split lineFeed
    (Js.trim (Js.filterString (fun c => negb (Ascii.eqb c carriageReturn)) content)).

(** The two fields read from a line: [tokens[0].trim()] and
    [tokens[1].trim()] of [line.toUpperCase().split(",")].  [None] when there
    is no second token: [tokens[1].trim()] throws. *)
Definition lineFields (line : string) : option (string * string) :=
  match Js.split "," (Js.toUpperCase line) with
  | token0 :: token1 :: _ => Some (Js.trim token0, Js.trim token1)
  | _ => None
  end.

(** [(StreetNames[streetName] || (StreetNames[streetName] = [])).push(suburbName)]. *)
Definition addStreet (StreetNames : Obj.t (list string)) (streetName suburbName : string)
    : Obj.t (list string) :=
  match Obj.get streetName StreetNames with
  | Some suburbs => Obj.set streetName (suburbs ++ [suburbName])%list StreetNames
  | None => Obj.set streetName [suburbName] StreetNames
  end.

Fixpoint readStreetNames (lines : list string) (StreetNames : Obj.t (list string))
    : option (Obj.t (list string)) :=
  match lines with
  | [] => Some StreetNames
  | line :: rest =>
      match lineFields line with
      | Some (streetName, suburbName) =>
          readStreetNames rest (addStreet StreetNames streetName suburbName)
      | None => None
      end
  end.

Fixpoint readStreetSuffixes (lines : list string) (StreetSuffixes : Obj.t string)
    : option (Obj.t string) :=
  match lines with
  | [] => Some StreetSuffixes
  | line :: rest =>
      match lineFields line with
      | Some (abbreviation, suffix) =>
          readStreetSuffixes rest (Obj.set abbreviation suffix StreetSuffixes)
      | None => None
      end
  end.

(** The assignments one line of suburbnames.txt makes. *)
Definition addSuburb (SuburbNames : Obj.t string) (suburbName suffix : string)
    : Obj.t string :=
  let SuburbNames := Obj.set suburbName suffix SuburbNames in
  if String.prefix "MOUNT " suburbName then
    let rest := Js.drop (String.length "MOUNT ") suburbName in
    Obj.set ("MT. " ++ rest) suffix
      (Obj.set ("MT." ++ rest) suffix
        (Obj.set ("MT " ++ rest) suffix SuburbNames))
  else SuburbNames.

Fixpoint readSuburbNames (lines : list string) (SuburbNames : Obj.t string)
    : option (Obj.t string) :=
  match lines with
  | [] => Some SuburbNames
  | line :: rest =>
      match lineFields line with
      | Some (suburbName, suffix) => readSuburbNames rest (addSuburb SuburbNames suburbName suffix)
      | None => None
      end
  end.

(** The three dictionaries. *)
Record AddressInformation : Type := mkAddressInformation {
  readStreets : Obj.t (list string);
  readSuffixes : Obj.t string;
  readSuburbs : Obj.t string
}.

(** Reads all the address information, given the contents of streetnames.txt,
    streetsuffixes.txt and suburbnames.txt.  [None] when a line makes the
    function throw. *)
Definition readAddressInformation (streetNames streetSuffixes suburbNames : string)
    : option AddressInformation :=
  match readStreetNames (fileLines streetNames) [] with
  | None => None
  | Some streets =>
      match readStreetSuffixes (fileLines streetSuffixes) [] with
      | None => None
      | Some suffixes =>
          match readSuburbNames (fileLines suburbNames) [] with
          | None => None
          | Some suburbs => Some (mkAddressInformation streets suffixes suburbs)
          end
      end
  end.

(** The suburbs the lines of streetnames.txt give for a street, in the order
    of the lines. *)
Definition suburbsOf (streetName : string) (lines : list string) : list string :=
  flat_map (fun line =>
              match lineFields line with
              | Some (street, suburb) => if String.eqb street streetName then [suburb] else []
              | None => []
              end) lines.

(** A line of suburbnames.txt named [suburbName] assigns the key [key]: its
    own name or, for a name that starts with "MOUNT ", one of the three
    abbreviated spellings. *)
Definition writesSuburb (suburbName key : string) : bool :=
  String.eqb suburbName key ||
  (String.prefix "MOUNT " suburbName &&
   (String.eqb ("MT " ++ Js.drop 6 suburbName) key ||
    String.eqb ("MT." ++ Js.drop 6 suburbName) key ||
    String.eqb ("MT. " ++ Js.drop 6 suburbName) key)).

(** The suffix of the last line that assigns the key. *)
Definition lastSuburbWrite (key : string) (lines : list string) : option string :=
  fold_left (fun found line =>
               match lineFields line with
               | Some (suburbName, suffix) =>
                   if writesSuburb suburbName key then Some suffix else found
               | None => found
               end) lines None.

(* ------------------------------------------------------------------------- *)
(** ** The percentages in double precision                                    *)
(* ------------------------------------------------------------------------- *)

(** The source computes with IEEE 754 binary64 numbers, and every sum,
    difference, product and quotient is rounded to nearest.  Where a property
    rests on comparisons of co-ordinates only, the rational model above
    serves; where it rests on a computed percentage, the rounding decides, and
    the functions are embedded here on Rocq's primitive binary64 numbers,
    operation for operation: [intersect], [getArea],
    [getPercentageOfElementInCell] with the allocation loop of the grid
    parser, and [getHorizontalOverlapPercentage]. *)
Module Binary64.

Import PrimFloat.
Local Open Scope float_scope.

Record Rectangle : Type := mkRectangle {
  x : float;
  y : float;
  width : float;
  height : float
}.

Record Element : Type := mkElement {
  text : string;
  bounds :> Rectangle
}.

Record Cell : Type := mkCell {
  elements : list Element;
  cellBounds :> Rectangle
}.

Definition isNegativeZero (a : float) : bool := is_zero a && get_sign a.

(** [Math.max(a, b)]: NaN when an argument is NaN, and +0 above -0. *)
Definition max (a b : float) : float :=
  if is_nan a || is_nan b then nan
  else if a <? b then b
  else if b <? a then a
  else if isNegativeZero a then b else a.

(** [Math.min(a, b)]: NaN when an argument is NaN, and -0 below +0. *)
Definition min (a b : float) : float :=
  if is_nan a || is_nan b then nan
  else if a <? b then a
  else if b <? a then b
  else if isNegativeZero a then a else b.

(** Constructs a rectangle based on the intersection of the two specified
    rectangles. *)
Definition intersect (rectangle1 rectangle2 : Rectangle) : Rectangle :=
  let x1 := max (x rectangle1) (x rectangle2) in
  let y1 := max (y rectangle1) (y rectangle2) in
  let x2 := min (x rectangle1 + width rectangle1) (x rectangle2 + width rectangle2) in
  let y2 := min (y rectangle1 + height rectangle1) (y rectangle2 + height rectangle2) in
  if (x1 <=? x2) && (y1 <=? y2)
  then mkRectangle x1 y1 (x2 - x1) (y2 - y1)
  else mkRectangle 0 0 0 0.

(** Calculates the area of a rectangle. *)
Definition getArea (rectangle : Rectangle) : float :=
  width rectangle * height rectangle.

(** Calculates the fraction of an element that lies within a cell (as a
    percentage). *)
Definition getPercentageOfElementInCell (element cell : Rectangle) : float :=
  let elementArea := getArea element in
  let intersectionArea := getArea (intersect cell element) in
  if elementArea =? 0 then 0 else (intersectionArea * 100) / elementArea.

(** Gets the percentage of horizontal overlap between two rectangles (0 means
    no overlap and 100 means 100% overlap).  Either argument may be
    [undefined]. *)
Definition getHorizontalOverlapPercentage (r1 r2 : option Rectangle) : float :=
  match r1, r2 with
  | Some rectangle1, Some rectangle2 =>
      let startX1 := x rectangle1 in
      let endX1 := x rectangle1 + width rectangle1 in
      let startX2 := x rectangle2 in
      let endX2 := x rectangle2 + width rectangle2 in
      if (endX2 <=? startX1) || (endX1 <=? startX2)
         || (width rectangle1 =? 0) || (width rectangle2 =? 0)
      then 0
      else
        let intersectionWidth := min endX1 endX2 - max startX1 startX2 in
        let unionWidth := max endX1 endX2 - min startX1 startX2 in
        (intersectionWidth * 100) / unionWidth
  | _, _ => 0
  end.

(** [getPercentageOfElementInCell(element, cell) > 50]. *)
Definition owns (element : Element) (cell : Cell) : bool :=
  50 <? getPercentageOfElementInCell element cell.

(** [cells.find(cell => getPercentageOfElementInCell(element, cell) > 50)]. *)
Definition ownerCell (cells : list Cell) (element : Element) : option Cell :=
  find (owns element) cells.

(** [ownerCell.elements.push(element)] on the cell [find] returned. *)
Fixpoint pushToOwner (element : Element) (cells : list Cell) : list Cell :=
  match cells with
  | [] => []
  | cell :: rest =>
      if owns element cell
      then mkCell (List.app (elements cell) [element]) cell :: rest
      else cell :: pushToOwner element rest
  end.

(** Allocate each element to an "owning" cell. *)
Definition allocateElements (cells : list Cell) (pageElements : list Element) : list Cell :=
  fold_left (fun cells element => pushToOwner element cells) pageElements cells.

(** The position, in the array of cells, of the first cell that owns the
    element, and whether that is position [i]. *)
Fixpoint ownerIndex (cells : list Cell) (element : Element) : option nat :=
  match cells with
  | [] => None
  | cell :: rest =>
      if owns element cell then Some 0%nat
      else option_map S (ownerIndex rest element)
  end.

Definition ownedAt (cells : list Cell) (i : nat) (element : Element) : bool :=
  match ownerIndex cells element with
  | Some j => Nat.eqb i j
  | None => false
  end.

(** The computed percentage is above 50: the test of the allocation loop. *)
Definition above50 (percentage : float) : bool := 50 <? percentage.

(** The rectangle argument, when defined, has its computed end [x + width]
    beyond [x]: its width is positive and is not lost in the sum. *)
Definition endBeyondStart (r : option Rectangle) : Prop :=
  match r with
  | Some rectangle => (x rectangle <? x rectangle + width rectangle) = true
  | None => True
  end.

(** The sign bit of the number is clear, or the number is NaN; and the weaker
    property that the number is not below zero (which -0 has too).  Both are
    read on the number as the IEEE 754 specification describes it. *)
Definition signClear (f : SpecFloat.spec_float) : Prop :=
  match f with
  | SpecFloat.S754_zero s | SpecFloat.S754_infinity s | SpecFloat.S754_finite s _ _ =>
      s = false
  | SpecFloat.S754_nan => True
  end.

Definition notNegative (f : SpecFloat.spec_float) : Prop :=
  match f with
  | SpecFloat.S754_infinity s | SpecFloat.S754_finite s _ _ => s = false
  | SpecFloat.S754_zero _ | SpecFloat.S754_nan => True
  end.

(** The value of a finite binary64 number, as a rational; 0 for the
    infinities and NaN. *)
Definition exact (a : float) : Q :=
  match FloatOps.Prim2SF a with
  | SpecFloat.S754_finite sign mantissa exponent =>
      let magnitude := (inject_Z (Zpos mantissa) * Qpower 2 exponent)%Q in
      if sign then Qopp magnitude else magnitude
  | _ => 0%Q
  end.

End Binary64.

(** The rectangle with the exact values of the co-ordinates. *)
Definition exactRectangle (r : Binary64.Rectangle) : Rectangle :=
  mkRectangle (Binary64.exact (Binary64.x r)) (Binary64.exact (Binary64.y r))
              (Binary64.exact (Binary64.width r)) (Binary64.exact (Binary64.height r)).

(** Two neighbouring cells of a row and four elements: two that lie half in
    each cell (the share of the first is computed with rounding, that of the
    second without), one of no width, one inside the first cell; and three
    rectangles for the horizontal overlap. *)
Module SampleBinary64.

Import PrimFloat.
Local Open Scope float_scope.
#[local] Set Warnings "-inexact-float".

Definition leftCell : Binary64.Cell :=
  Binary64.mkCell [] (Binary64.mkRectangle 0 780 100 20).
Definition rightCell : Binary64.Cell :=
  Binary64.mkCell [] (Binary64.mkRectangle 100 780 150 20).
Definition cells : list Binary64.Cell := [leftCell; rightCell].

Definition straddling : Binary64.Element :=
  Binary64.mkElement "half" (Binary64.mkRectangle 90 780.1 20 10.1).
Definition halved : Binary64.Element :=
  Binary64.mkElement "halved" (Binary64.mkRectangle 90 785 20 10).
Definition flat : Binary64.Element :=
  Binary64.mkElement "flat" (Binary64.mkRectangle 20 785 0 10).
Definition inside : Binary64.Element :=
  Binary64.mkElement "inside" (Binary64.mkRectangle 20 785 30 10).

Definition heading : Binary64.Rectangle := Binary64.mkRectangle 0.7 0 1.6 10.
Definition reversed : Binary64.Rectangle := Binary64.mkRectangle 10 0 (-5) 1.
Definition wide : Binary64.Rectangle := Binary64.mkRectangle 0 0 20 1.

Definition justAbove50 : float := 0x1.900000000000fp+5.
Definition justAbove100 : float := 0x1.9000000000001p+6.
Definition minus25 : float := -25.
Definition zero : float := 0.
Definition hundred : float := 100.

End SampleBinary64.

(** The dump of a page's elements as the log shows it: the text of each
    element between square brackets, one after the other. *)
Fixpoint bracketedTexts (elements : list Element) : string :=
  match elements with
  | [] => ""
  | element :: rest => "[" ++ text element ++ "]" ++ bracketedTexts rest
  end.



(** The position of the first occurrence of an address in a list (the length
    of the list when there is none). *)
Fixpoint firstIndex (pdfUrl : string) (hrefs : list string) : nat :=
  match hrefs with
  | [] => 0
  | href :: rest => if String.eqb href pdfUrl then 0 else S (firstIndex pdfUrl rest)
  end.

(** [u] first appears before [v] in the list. *)
Definition appearsBefore (hrefs : list string) (u v : string) : Prop :=
  firstIndex u hrefs < firstIndex v hrefs.

(* ------------------------------------------------------------------------- *)
(** ** The primitives on examples                                             *)
(* ------------------------------------------------------------------------- *)

Example trim_ex : Js.trim "  12 Main  St " = "12 Main  St".
Proof. reflexivity. Qed.
Example collapse_ex : Js.collapseWhiteSpace "a  b c   d" = "a b c d".
Proof. reflexivity. Qed.
Example split_ex : Js.split "/" "EMU FLAT/HD CLARE" = ["EMU FLAT"; "HD CLARE"].
Proof. reflexivity. Qed.
Example replace_ex : Js.replaceAll " TCE NTH" " TERRACE NORTH" "1 A TCE NTH, B" = "1 A TERRACE NORTH, B".
Proof. reflexivity. Qed.
Example regex_ex : Js.testApplicationNumber "x 910/144/16" = true /\ Js.testApplicationNumber "910/144" = false.
Proof. split; reflexivity. Qed.
Example upper_ex : Js.toUpperCase "Dev No." = "DEV NO.".
Proof. reflexivity. Qed.
Example show_ex : Js.showNat 12 = "12" /\ Js.showNat 0 = "0".
Proof. split; reflexivity. Qed.
Example obj_order_ex :
  Obj.keys (Obj.set "7" 1 (Obj.set "371/002/17" 2 (Obj.set "10" 3 []))) = ["7"; "10"; "371/002/17"].
Proof. reflexivity. Qed.
Example distance_ex : Sample.editDistance "mian street" "main street" = 2.
Proof. reflexivity. Qed.
Example street_exact_ex : Sample.formatStreetName "12 Main St" = "12 MAIN STREET".
Proof. reflexivity. Qed.
Example street_fuzzy_ex : Sample.formatStreetName "12 MIAN ST" = "12 MAIN STREET".
Proof. vm_compute. reflexivity. Qed.
Example street_none_ex : Sample.formatStreetName " 7 Nowhere Close" = " 7 Nowhere Close".
Proof. vm_compute. reflexivity. Qed.
Example address_ex : Sample.formatAddress "12 MAIN ST, CUMINS" = "12 MAIN STREET, CUMMINS SA 5631".
Proof. vm_compute. reflexivity. Qed.

Example column_sample :
  fst (SampleDocument.columnParsePdf [SampleDocument.shedPage]) =
  [mkApplication "371/001/19" "12 MAIN STREET, CUMMINS SA 5631" "Shed" Sample.url CommentUrl
                 Sample.today "2019-01-03" "Lot 5, Plan D1234, Hundred CUMMINS"].
Proof. vm_compute. reflexivity. Qed.

Example grid_sample :
  fst (SampleDocument.gridParsePdf [SampleDocument.gridPage; SampleDocument.headlessPage]) =
  [mkApplication "910/144/16" "12 MAIN STREET, CUMMINS SA 5631" NoDescription Sample.url
                 CommentUrl Sample.today "" ""].
Proof. vm_compute. reflexivity. Qed.

Example grid_sample_allocation :
  map (fun cell => map text (Grid.elements cell))
      (Grid.allocatedCells SampleDocument.gridPage) =
  [["D/A Number"]; ["Street Name"]; ["Town"]; ["Proposal"];
   ["910/144/16"]; ["12 Main St"]; ["Cummins"]; [];
   ["Total"]; ["1"]; []; []].
Proof. vm_compute. reflexivity. Qed.

(* ------------------------------------------------------------------------- *)
(** ** Rational comparisons                                                   *)
(* ------------------------------------------------------------------------- *)

Lemma Qlt_bool_iff (a b : Q) : Qlt_bool a b = true <-> (a < b)%Q.
Proof.
  unfold Qlt_bool. rewrite negb_true_iff. split; intro H.
  - apply Qnot_le_lt. intro Hle. apply Qle_bool_iff in Hle. congruence.
  - destruct (Qle_bool b a) eqn:E; [|reflexivity].
    apply Qle_bool_iff in E. exfalso. exact (Qlt_not_le _ _ H E).
Qed.

Lemma Qlt_bool_false_iff (a b : Q) : Qlt_bool a b = false <-> (b <= a)%Q.
Proof.
  unfold Qlt_bool. rewrite negb_false_iff. apply Qle_bool_iff.
Qed.

Lemma Qle_bool_false_iff (a b : Q) : Qle_bool a b = false <-> (b < a)%Q.
Proof.
  split; intro H.
  - apply Qnot_le_lt. intro Hle. apply Qle_bool_iff in Hle. congruence.
  - destruct (Qle_bool a b) eqn:E; [|reflexivity].
    apply Qle_bool_iff in E. exfalso. exact (Qlt_not_le _ _ H E).
Qed.

Lemma Qeq_bool_false_iff (a b : Q) : Qeq_bool a b = false <-> ~ (a == b)%Q.
Proof.
  split; intro H.
  - intro E. apply Qeq_bool_iff in E. congruence.
  - destruct (Qeq_bool a b) eqn:E; [|reflexivity].
    apply Qeq_bool_iff in E. contradiction.
Qed.

(* ------------------------------------------------------------------------- *)
(** ** Horizontal overlap                                                     *)
(* ------------------------------------------------------------------------- *)

(** The signs of computed values are read on the IEEE 754 specification of
    the operations ([SpecFloat]), which the Standard Library states for the
    primitive numbers ([FloatAxioms]): a rounded difference has the sign of
    the exact difference of the aligned mantissas, and a rounded product or
    quotient the product of the signs. *)

Section Overlap.

Import PrimFloat SpecFloat FloatOps FloatAxioms.

Lemma signClear_notNegative (f : spec_float) : Binary64.signClear f -> Binary64.notNegative f.
Proof. destruct f; simpl; auto. Qed.

Lemma notNegative_ltb (f : spec_float) :
  Binary64.notNegative f -> SFltb f (S754_zero false) = false.
Proof. destruct f as [s|s| |s m e]; simpl; intro H; try reflexivity; subst s; reflexivity. Qed.

Lemma binary_round_aux_signClear (mx ex : Z) (lx : location) :
  Binary64.signClear (binary_round_aux prec emax false mx ex lx).
Proof.
  unfold binary_round_aux.
  destruct (shr_fexp prec emax mx ex lx) as [mrs' e'].
  destruct (shr_fexp prec emax _ e' loc_Exact) as [mrs'' e''].
  destruct (shr_m mrs'') as [|m|m]; [reflexivity| |exact I].
  destruct (Z.leb e'' (Z.sub emax prec)); reflexivity.
Qed.

Lemma binary_normalize_signClear (m e : Z) :
  (0 <= m)%Z -> Binary64.signClear (binary_normalize prec emax m e false).
Proof.
  intro H. destruct m as [|m|m]; simpl; auto; [|lia].
  unfold binary_round. destruct (shl_align _ _ _) as [mz ez].
  apply binary_round_aux_signClear.
Qed.

Lemma SFmul_signClear (x y : spec_float) :
  Binary64.signClear x -> Binary64.signClear y -> Binary64.signClear (SFmul prec emax x y).
Proof.
  destruct x as [sx|sx| |sx mx ex], y as [sy|sy| |sy my ey]; simpl; intros Hx Hy;
    subst; simpl; auto.
  apply binary_round_aux_signClear.
Qed.

Lemma SFmul_notNegative (x y : spec_float) :
  Binary64.notNegative x -> Binary64.signClear y -> Binary64.notNegative (SFmul prec emax x y).
Proof.
  destruct x as [sx|sx| |sx mx ex], y as [sy|sy| |sy my ey]; simpl; intros Hx Hy;
    subst; simpl; auto.
  apply signClear_notNegative, binary_round_aux_signClear.
Qed.

Lemma SFdiv_notNegative (x y : spec_float) :
  Binary64.notNegative x -> Binary64.signClear y -> Binary64.notNegative (SFdiv prec emax x y).
Proof.
  destruct x as [sx|sx| |sx mx ex], y as [sy|sy| |sy my ey]; simpl; intros Hx Hy;
    subst; simpl; auto.
  destruct (SFdiv_core_binary prec emax (Zpos mx) ex (Zpos my) ey) as [[mz ez] lz].
  apply signClear_notNegative, binary_round_aux_signClear.
Qed.

(** Digits of a mantissa. *)
Lemma digits2_pos_bounds (m : positive) :
  (2 ^ (Zpos (digits2_pos m) - 1) <= Zpos m < 2 ^ Zpos (digits2_pos m))%Z.
Proof.
  induction m as [m IH|m IH|]; cbn [digits2_pos].
  - rewrite Pos2Z.inj_succ.
    replace (Z.succ (Zpos (digits2_pos m)) - 1)%Z with (Z.succ (Zpos (digits2_pos m) - 1))%Z by lia.
    rewrite !Z.pow_succ_r by lia. lia.
  - rewrite Pos2Z.inj_succ.
    replace (Z.succ (Zpos (digits2_pos m)) - 1)%Z with (Z.succ (Zpos (digits2_pos m) - 1))%Z by lia.
    rewrite !Z.pow_succ_r by lia. lia.
  - simpl. lia.
Qed.

Lemma iter_xO (m d : positive) : Zpos (Pos.iter xO m d) = (Zpos m * 2 ^ Zpos d)%Z.
Proof.
  revert m. induction d as [|d IH] using Pos.peano_ind; intro m.
  - simpl. lia.
  - rewrite Pos.iter_succ, Pos2Z.inj_succ, Z.pow_succ_r by lia.
    rewrite Pos2Z.inj_xO, IH. lia.
Qed.

Lemma shl_align_value (m : positive) (e ez : Z) :
  (ez <= e)%Z -> Zpos (fst (shl_align m e ez)) = (Zpos m * 2 ^ (e - ez))%Z.
Proof.
  intro H. unfold shl_align. destruct (ez - e)%Z as [|d|d] eqn:E; cbn [fst].
  - replace (e - ez)%Z with 0%Z by lia. simpl. lia.
  - lia.
  - rewrite iter_xO. f_equal. f_equal. lia.
Qed.

(** Of two canonical mantissas, the one with the larger exponent is the
    larger once both are brought to the smaller exponent. *)
Lemma canonical_order (m1 m2 : positive) (e1 e2 : Z) :
  bounded prec emax m1 e1 = true -> bounded prec emax m2 e2 = true ->
  (e1 < e2)%Z -> (Zpos m1 < Zpos m2 * 2 ^ (e2 - e1))%Z.
Proof.
  unfold bounded, canonical_mantissa, fexp, SpecFloat.emin, prec, emax.
  intros B1 B2 H.
  apply andb_true_iff in B1. destruct B1 as [C1 _].
  apply andb_true_iff in B2. destruct B2 as [C2 _].
  apply Z.eqb_eq in C1. apply Z.eqb_eq in C2.
  pose proof (digits2_pos_bounds m1) as [_ U1].
  pose proof (digits2_pos_bounds m2) as [L2 _].
  assert (D2 : Zpos (digits2_pos m2) = 53%Z) by lia.
  assert (D1 : (Zpos (digits2_pos m1) <= 53)%Z) by lia.
  rewrite D2 in L2.
  assert (P1 : (2 ^ Zpos (digits2_pos m1) <= 2 ^ 53)%Z) by (apply Z.pow_le_mono_r; lia).
  assert (P2 : (2 ^ 1 <= 2 ^ (e2 - e1))%Z) by (apply Z.pow_le_mono_r; lia).
  change (2 ^ (53 - 1))%Z with 4503599627370496%Z in L2.
  change (2 ^ 53)%Z with 9007199254740992%Z in P1.
  change (2 ^ 1)%Z with 2%Z in P2.
  nia.
Qed.

Lemma SFsub_signClear (x y : spec_float) :
  valid_binary x = true -> valid_binary y = true ->
  SFltb y x = true -> Binary64.signClear (SFsub prec emax x y).
Proof.
  intros Vx Vy.
  destruct x as [sx|sx| |sx mx ex], y as [sy|sy| |sy my ey]; unfold SFltb;
    cbn [SFcompare SFsub].
  all: try solve [intro H; discriminate H].
  all: try solve [repeat match goal with s : bool |- _ => destruct s end;
                  simpl; intro H; first [discriminate H | reflexivity | exact I]].
  - intro H. apply binary_normalize_signClear.
    cbn [valid_binary] in Vx, Vy.
    destruct sy, sx; cbn [cond_Zopp].
    + (* both negative *)
      destruct (Z.compare ey ex) eqn:C; try discriminate.
      * apply Z.compare_eq in C. subst ey. rewrite Z.min_id.
        rewrite !shl_align_value by lia. rewrite Z.sub_diag. simpl Z.pow.
        unfold CompOpp in H. destruct (Pos.compare_cont Eq my mx) eqn:P; try discriminate.
        change (Pos.compare_cont Eq my mx) with (Pos.compare my mx) in P.
        rewrite Pos.compare_gt_iff in P. lia.
      * rewrite Z.compare_gt_iff in C.
        rewrite Z.min_l by lia. rewrite !shl_align_value by lia.
        rewrite Z.sub_diag. simpl (2 ^ 0)%Z.
        pose proof (canonical_order mx my ex ey Vx Vy C). lia.
    + discriminate.
    + rewrite !shl_align_value by lia. 
      assert (0 < Zpos mx * 2 ^ (ex - Z.min ex ey))%Z by (apply Z.mul_pos_pos; [lia | apply Z.pow_pos_nonneg; lia]).
      assert (0 < Zpos my * 2 ^ (ey - Z.min ex ey))%Z by (apply Z.mul_pos_pos; [lia | apply Z.pow_pos_nonneg; lia]).
      lia.
    + destruct (Z.compare ey ex) eqn:C; try discriminate.
      * apply Z.compare_eq in C. subst ey. rewrite Z.min_id.
        rewrite !shl_align_value by lia. rewrite Z.sub_diag. simpl Z.pow.
        change (Pos.compare_cont Eq my mx) with (Pos.compare my mx) in H.
        destruct (Pos.compare my mx) eqn:P; try discriminate.
        rewrite Pos.compare_lt_iff in P. lia.
      * rewrite Z.compare_lt_iff in C.
        rewrite Z.min_r by lia. rewrite !shl_align_value by lia.
        rewrite Z.sub_diag. simpl (2 ^ 0)%Z.
        pose proof (canonical_order my mx ey ex Vy Vx C). lia.
Qed.


Lemma SFltb_not_nan (x y : spec_float) :
  SFltb x y = true -> x <> S754_nan /\ y <> S754_nan.
Proof.
  destruct x, y; unfold SFltb; cbn [SFcompare]; intro H; try discriminate H;
    split; discriminate.
Qed.

(** The order is total away from NaN. *)
Lemma SFleb_false (x y : spec_float) :
  x <> S754_nan -> y <> S754_nan -> SFleb x y = false -> SFltb y x = true.
Proof.
  intros Nx Ny.
  destruct x as [sx|sx| |sx mx ex], y as [sy|sy| |sy my ey]; unfold SFleb, SFltb;
    cbn [SFcompare]; try contradiction.
  all: try solve [repeat match goal with s : bool |- _ => destruct s end;
                  simpl; intro H; first [discriminate H | reflexivity]].
  destruct sx, sy; try solve [intro H; first [discriminate H | reflexivity]].
  - rewrite (Z.compare_antisym ex ey).
    destruct (Z.compare ex ey); cbn [CompOpp]; try solve [intro H; first [discriminate H | reflexivity]].
    change (Pos.compare_cont Eq my mx) with (Pos.compare my mx).
    change (Pos.compare_cont Eq mx my) with (Pos.compare mx my).
    rewrite (Pos.compare_antisym mx my).
    destruct (Pos.compare mx my); cbn [CompOpp]; intro H; first [discriminate H | reflexivity].
  - rewrite (Z.compare_antisym ex ey).
    destruct (Z.compare ex ey); cbn [CompOpp]; try solve [intro H; first [discriminate H | reflexivity]].
    change (Pos.compare_cont Eq my mx) with (Pos.compare my mx).
    change (Pos.compare_cont Eq mx my) with (Pos.compare mx my).
    rewrite (Pos.compare_antisym mx my).
    destruct (Pos.compare mx my); cbn [CompOpp]; intro H; first [discriminate H | reflexivity].
Qed.

Lemma SFsub_nan_l (y : spec_float) : SFsub prec emax S754_nan y = S754_nan.
Proof. reflexivity. Qed.

Lemma SFsub_nan_r (x : spec_float) : SFsub prec emax x S754_nan = S754_nan.
Proof. destruct x; reflexivity. Qed.

Local Open Scope float_scope.

Lemma Prim2SF_nan : Prim2SF nan = S754_nan.
Proof. reflexivity. Qed.

Lemma Prim2SF_zero : Prim2SF 0 = S754_zero false.
Proof. reflexivity. Qed.

Lemma Prim2SF_hundred : Binary64.signClear (Prim2SF 100).
Proof. vm_compute. reflexivity. Qed.

(** The difference of a number and a smaller one has its sign bit clear. *)
Lemma sub_signClear (a b : float) : (b <? a) = true -> Binary64.signClear (Prim2SF (a - b)).
Proof.
  intro H. rewrite sub_spec. rewrite ltb_spec in H.
  apply SFsub_signClear; [apply Prim2SF_valid | apply Prim2SF_valid | exact H].
Qed.

Lemma sub_nan_signClear_l (b : float) : Binary64.signClear (Prim2SF (nan - b)).
Proof. rewrite sub_spec, Prim2SF_nan. exact I. Qed.

Lemma sub_nan_signClear_r (a : float) : Binary64.signClear (Prim2SF (a - nan)).
Proof. rewrite sub_spec, Prim2SF_nan. unfold SF64sub. rewrite SFsub_nan_r. exact I. Qed.

Lemma leb_false_ltb (a b c d : float) :
  (c <? a) = true -> (b <? d) = true -> (a <=? b) = false -> (b <? a) = true.
Proof.
  rewrite !ltb_spec, leb_spec. intros Ha Hb H.
  apply SFleb_false; [exact (proj2 (SFltb_not_nan _ _ Ha)) | exact (proj1 (SFltb_not_nan _ _ Hb)) | exact H].
Qed.

Lemma min_cases (a b : float) :
  Binary64.min a b = nan \/ Binary64.min a b = a \/ Binary64.min a b = b.
Proof.
  unfold Binary64.min.
  destruct (is_nan a || is_nan b); [auto|].
  destruct (a <? b); [auto|]. destruct (b <? a); [auto|].
  destruct (Binary64.isNegativeZero a); auto.
Qed.

Lemma max_cases (a b : float) :
  Binary64.max a b = nan \/ Binary64.max a b = a \/ Binary64.max a b = b.
Proof.
  unfold Binary64.max.
  destruct (is_nan a || is_nan b); [auto|].
  destruct (a <? b); [auto|]. destruct (b <? a); [auto|].
  destruct (Binary64.isNegativeZero a); auto.
Qed.

(** The difference of the smaller of two ends and the larger of two starts,
    each end being beyond each start; and the same for the larger end and the
    smaller start. *)
Lemma span_signClear (s1 e1 s2 e2 : float) :
  (s1 <? e1) = true -> (s2 <? e2) = true -> (s1 <? e2) = true -> (s2 <? e1) = true ->
  Binary64.signClear (Prim2SF (Binary64.min e1 e2 - Binary64.max s1 s2)) /\
  Binary64.signClear (Prim2SF (Binary64.max e1 e2 - Binary64.min s1 s2)).
Proof.
  intros H11 H22 H12 H21. split.
  - destruct (min_cases e1 e2) as [-> | [-> | ->]]; [apply sub_nan_signClear_l| |];
      (destruct (max_cases s1 s2) as [-> | [-> | ->]];
       [apply sub_nan_signClear_r | apply sub_signClear; assumption
        | apply sub_signClear; assumption]).
  - destruct (max_cases e1 e2) as [-> | [-> | ->]]; [apply sub_nan_signClear_l| |];
      (destruct (min_cases s1 s2) as [-> | [-> | ->]];
       [apply sub_nan_signClear_r | apply sub_signClear; assumption
        | apply sub_signClear; assumption]).
Qed.

Lemma overlap_not_below_zero (rectangle1 rectangle2 : Binary64.Rectangle) :
  (Binary64.x rectangle1 <? Binary64.x rectangle1 + Binary64.width rectangle1) = true ->
  (Binary64.x rectangle2 <? Binary64.x rectangle2 + Binary64.width rectangle2) = true ->
  (Binary64.getHorizontalOverlapPercentage (Some rectangle1) (Some rectangle2) <? 0) = false.
Proof.
  intros H1 H2. cbn [Binary64.getHorizontalOverlapPercentage].
  destruct (Binary64.x rectangle2 + Binary64.width rectangle2 <=? Binary64.x rectangle1)
    eqn:C1; [reflexivity|].
  destruct (Binary64.x rectangle1 + Binary64.width rectangle1 <=? Binary64.x rectangle2)
    eqn:C2; [reflexivity|].
  destruct (Binary64.width rectangle1 =? 0); [reflexivity|].
  destruct (Binary64.width rectangle2 =? 0); [reflexivity|].
  cbn [orb].
  pose proof (leb_false_ltb _ _ _ _ H2 H1 C1) as H12.
  pose proof (leb_false_ltb _ _ _ _ H1 H2 C2) as H21.
  destruct (span_signClear _ _ _ _ H1 H2 H12 H21) as [I U].
  rewrite ltb_spec, div_spec, mul_spec, Prim2SF_zero.
  apply notNegative_ltb, SFdiv_notNegative; [|exact U].
  apply signClear_notNegative, SFmul_signClear; [exact I | apply Prim2SF_hundred].
Qed.

Local Open Scope float_scope.

(** C8, as the code has it.  [getHorizontalOverlapPercentage] returns 0 when
    an argument is undefined, when a width is zero, or when the x-projections
    do not overlap (one starts at or beyond the computed end of the other);
    for every other pair of rectangles it returns the quotient
    [(intersectionWidth * 100) / unionWidth] of the computed widths, each
    operation rounded to binary64.  For rectangles whose computed end lies
    beyond their start the value is never below 0. *)
Theorem getHorizontalOverlapPercentage_spec (r1 r2 : option Binary64.Rectangle) :
  (r1 = None \/ r2 = None -> Binary64.getHorizontalOverlapPercentage r1 r2 = 0) /\
  (forall rectangle1 rectangle2,
     r1 = Some rectangle1 -> r2 = Some rectangle2 ->
     (Binary64.width rectangle1 =? 0) = true \/
     (Binary64.width rectangle2 =? 0) = true \/
     (Binary64.x rectangle2 + Binary64.width rectangle2 <=? Binary64.x rectangle1) = true \/
     (Binary64.x rectangle1 + Binary64.width rectangle1 <=? Binary64.x rectangle2) = true ->
     Binary64.getHorizontalOverlapPercentage r1 r2 = 0) /\
  (forall rectangle1 rectangle2,
     r1 = Some rectangle1 -> r2 = Some rectangle2 ->
     (Binary64.width rectangle1 =? 0) = false ->
     (Binary64.width rectangle2 =? 0) = false ->
     (Binary64.x rectangle2 + Binary64.width rectangle2 <=? Binary64.x rectangle1) = false ->
     (Binary64.x rectangle1 + Binary64.width rectangle1 <=? Binary64.x rectangle2) = false ->
     Binary64.getHorizontalOverlapPercentage r1 r2 =
       ((Binary64.min (Binary64.x rectangle1 + Binary64.width rectangle1)
                      (Binary64.x rectangle2 + Binary64.width rectangle2)
         - Binary64.max (Binary64.x rectangle1) (Binary64.x rectangle2)) * 100)
       / (Binary64.max (Binary64.x rectangle1 + Binary64.width rectangle1)
                       (Binary64.x rectangle2 + Binary64.width rectangle2)
          - Binary64.min (Binary64.x rectangle1) (Binary64.x rectangle2))) /\
  (Binary64.endBeyondStart r1 -> Binary64.endBeyondStart r2 ->
   (Binary64.getHorizontalOverlapPercentage r1 r2 <? 0) = false).
Proof.
  split; [|split; [|split]].
  - intros [-> | ->]; [reflexivity|]. destruct r1; reflexivity.
  - intros rectangle1 rectangle2 -> -> H. cbn [Binary64.getHorizontalOverlapPercentage].
    destruct H as [H | [H | [H | H]]]; rewrite H; rewrite ?orb_true_r; reflexivity.
  - intros rectangle1 rectangle2 -> -> H1 H2 H3 H4.
    cbn [Binary64.getHorizontalOverlapPercentage]. rewrite H1, H2, H3, H4. reflexivity.
  - destruct r1 as [rectangle1|]; [|reflexivity].
    destruct r2 as [rectangle2|]; [|reflexivity].
    apply overlap_not_below_zero.
Qed.

End Overlap.

(** C8 on the sample rectangles: an undefined argument, a width of zero and
    two projections that only touch give 0, and the overlap of a rectangle
    with itself is not below 0. *)
Lemma getHorizontalOverlapPercentage_spec_witness :
  Binary64.getHorizontalOverlapPercentage None (Some SampleBinary64.heading)
    = SampleBinary64.zero /\
  Binary64.getHorizontalOverlapPercentage
    (Some (Binary64.bounds SampleBinary64.flat)) (Some SampleBinary64.wide)
    = SampleBinary64.zero /\
  Binary64.getHorizontalOverlapPercentage
    (Some (Binary64.cellBounds SampleBinary64.leftCell))
    (Some (Binary64.cellBounds SampleBinary64.rightCell))
    = SampleBinary64.zero /\
  PrimFloat.ltb
    (Binary64.getHorizontalOverlapPercentage
       (Some SampleBinary64.heading) (Some SampleBinary64.heading))
    SampleBinary64.zero = false.
Proof.
  split; [|split; [|split]].
  - apply (proj1 (getHorizontalOverlapPercentage_spec None (Some SampleBinary64.heading))).
    left. reflexivity.
  - apply (proj1 (proj2 (getHorizontalOverlapPercentage_spec
                           (Some (Binary64.bounds SampleBinary64.flat))
                           (Some SampleBinary64.wide)))
             _ _ eq_refl eq_refl).
    left. reflexivity.
  - apply (proj1 (proj2 (getHorizontalOverlapPercentage_spec
                           (Some (Binary64.cellBounds SampleBinary64.leftCell))
                           (Some (Binary64.cellBounds SampleBinary64.rightCell))))
             _ _ eq_refl eq_refl).
    right. right. right. reflexivity.
  - apply (proj2 (proj2 (proj2 (getHorizontalOverlapPercentage_spec
                                  (Some SampleBinary64.heading)
                                  (Some SampleBinary64.heading)))));
      reflexivity.
Defined.

(** C8 as the specification words it fails.  Two rectangles with the same
    x-projection, x 0.7 and width 1.6, overlap at 100.00000000000001 percent,
    which is above 100 and is not 100; and a rectangle of width -5 overlaps a
    rectangle that contains it at -25 percent. *)
Lemma overlap_outside_range :
  Binary64.getHorizontalOverlapPercentage
    (Some SampleBinary64.heading) (Some SampleBinary64.heading)
    = SampleBinary64.justAbove100 /\
  PrimFloat.ltb SampleBinary64.hundred SampleBinary64.justAbove100 = true /\
  PrimFloat.eqb SampleBinary64.justAbove100 SampleBinary64.hundred = false /\
  Binary64.getHorizontalOverlapPercentage
    (Some SampleBinary64.reversed) (Some SampleBinary64.wide)
    = SampleBinary64.minus25 /\
  PrimFloat.ltb SampleBinary64.minus25 SampleBinary64.zero = true.
Proof. vm_compute. repeat split. Qed.

(* ------------------------------------------------------------------------- *)
(** ** The percentage of an element in a cell, in double precision            *)
(* ------------------------------------------------------------------------- *)

Section Percentage.

Import PrimFloat SpecFloat FloatOps FloatAxioms.
Local Open Scope float_scope.

Lemma SFmul_notNegative_both (x y : spec_float) :
  Binary64.notNegative x -> Binary64.notNegative y ->
  Binary64.notNegative (SFmul prec emax x y).
Proof.
  destruct x as [sx|sx| |sx mx ex], y as [sy|sy| |sy my ey]; simpl; intros Hx Hy;
    subst; simpl; auto.
  apply signClear_notNegative, binary_round_aux_signClear.
Qed.

(** The difference of a number and one that is not larger is not below
    zero. *)
Lemma SFsub_notNegative (x y : spec_float) :
  valid_binary x = true -> valid_binary y = true ->
  SFleb y x = true -> Binary64.notNegative (SFsub prec emax x y).
Proof.
  intros Vx Vy.
  destruct x as [sx|sx| |sx mx ex], y as [sy|sy| |sy my ey]; unfold SFleb;
    cbn [SFcompare SFsub].
  all: try solve [intro H; discriminate H].
  all: try solve [repeat match goal with s : bool |- _ => destruct s end;
                  simpl; intro H; first [discriminate H | reflexivity | exact I]].
  intro H. apply signClear_notNegative, binary_normalize_signClear.
  cbn [valid_binary] in Vx, Vy.
  destruct sy, sx; cbn [cond_Zopp].
  - destruct (Z.compare ey ex) eqn:C; try discriminate.
    + apply Z.compare_eq in C. subst ey. rewrite Z.min_id.
      rewrite !shl_align_value by lia. rewrite Z.sub_diag. simpl Z.pow.
      change (Pos.compare_cont Eq my mx) with (Pos.compare my mx) in H.
      destruct (Pos.compare my mx) eqn:P; cbn [CompOpp] in H; try discriminate.
      * apply Pos.compare_eq in P. lia.
      * rewrite Pos.compare_gt_iff in P. lia.
    + rewrite Z.compare_gt_iff in C.
      rewrite Z.min_l by lia. rewrite !shl_align_value by lia.
      rewrite Z.sub_diag. simpl (2 ^ 0)%Z.
      pose proof (canonical_order mx my ex ey Vx Vy C). lia.
  - discriminate.
  - rewrite !shl_align_value by lia.
    assert (0 < Zpos mx * 2 ^ (ex - Z.min ex ey))%Z
      by (apply Z.mul_pos_pos; [lia | apply Z.pow_pos_nonneg; lia]).
    assert (0 < Zpos my * 2 ^ (ey - Z.min ex ey))%Z
      by (apply Z.mul_pos_pos; [lia | apply Z.pow_pos_nonneg; lia]).
    lia.
  - destruct (Z.compare ey ex) eqn:C; try discriminate.
    + apply Z.compare_eq in C. subst ey. rewrite Z.min_id.
      rewrite !shl_align_value by lia. rewrite Z.sub_diag. simpl Z.pow.
      change (Pos.compare_cont Eq my mx) with (Pos.compare my mx) in H.
      destruct (Pos.compare my mx) eqn:P; try discriminate.
      * apply Pos.compare_eq in P. lia.
      * rewrite Pos.compare_lt_iff in P. lia.
    + rewrite Z.compare_lt_iff in C.
      rewrite Z.min_r by lia. rewrite !shl_align_value by lia.
      rewrite Z.sub_diag. simpl (2 ^ 0)%Z.
      pose proof (canonical_order my mx ey ex Vy Vx C). lia.
Qed.

Lemma sub_notNegative (a b : float) :
  (b <=? a) = true -> Binary64.notNegative (Prim2SF (a - b)).
Proof.
  intro H. rewrite sub_spec. rewrite leb_spec in H.
  apply SFsub_notNegative; [apply Prim2SF_valid | apply Prim2SF_valid | exact H].
Qed.

(** A number that is at least zero and is not zero has its sign bit clear. *)
Lemma positive_signClear (a : float) :
  (0 <=? a) = true -> (a =? 0) = false -> Binary64.signClear (Prim2SF a).
Proof.
  rewrite leb_spec, eqb_spec, Prim2SF_zero.
  destruct (Prim2SF a) as [s|s| |s m e]; unfold SFleb, SFeqb; cbn [SFcompare];
    intros H Z; try discriminate; destruct s; try discriminate; reflexivity.
Qed.

Lemma intersect_area_notNegative (rectangle1 rectangle2 : Binary64.Rectangle) :
  Binary64.notNegative
    (Prim2SF (Binary64.getArea (Binary64.intersect rectangle1 rectangle2))).
Proof.
  unfold Binary64.intersect.
  match goal with |- context [if ?c then _ else _] => destruct c eqn:E end.
  - apply andb_true_iff in E. destruct E as [Ex Ey].
    unfold Binary64.getArea. cbn [Binary64.width Binary64.height].
    rewrite mul_spec.
    apply SFmul_notNegative_both; apply sub_notNegative; assumption.
  - vm_compute. exact I.
Qed.

(** X2.  For an element whose computed area is not below zero, the computed
    percentage of the element in a cell is never below 0, whatever the
    co-ordinates of the cell. *)
Theorem getPercentageOfElementInCell_not_below_zero (element cell : Binary64.Rectangle) :
  (0 <=? Binary64.getArea element) = true ->
  (Binary64.getPercentageOfElementInCell element cell <? 0) = false.
Proof.
  intro H. unfold Binary64.getPercentageOfElementInCell.
  destruct (Binary64.getArea element =? 0) eqn:Z; [reflexivity|].
  rewrite ltb_spec, div_spec, mul_spec, Prim2SF_zero.
  apply notNegative_ltb, SFdiv_notNegative.
  - apply SFmul_notNegative; [apply intersect_area_notNegative | apply Prim2SF_hundred].
  - apply positive_signClear; assumption.
Qed.

End Percentage.

Lemma getPercentageOfElementInCell_not_below_zero_witness :
  PrimFloat.ltb
    (Binary64.getPercentageOfElementInCell
       (Binary64.bounds SampleBinary64.straddling)
       (Binary64.cellBounds SampleBinary64.rightCell))
    SampleBinary64.zero = false.
Proof.
  apply getPercentageOfElementInCell_not_below_zero. reflexivity.
Defined.

(* ------------------------------------------------------------------------- *)
(** ** [formatAddress] on an address without a comma                          *)
(* ------------------------------------------------------------------------- *)

Lemma string_append_assoc (a b c : string) : (a ++ b) ++ c = a ++ b ++ c.
Proof.
  induction a as [|d a IH]; simpl; [reflexivity|]. rewrite IH. reflexivity.
Qed.

Lemma hasChar_append (c : ascii) (a b : string) :
  hasChar c (a ++ b) = hasChar c a || hasChar c b.
Proof.
  induction a as [|d a IH]; simpl; [reflexivity|].
  rewrite IH. apply orb_assoc.
Qed.

Lemma hasChar_trimStart (c : ascii) (s : string) :
  hasChar c s = false -> hasChar c (Js.trimStart s) = false.
Proof.
  induction s as [|d s IH]; simpl; intro H; [reflexivity|].
  apply orb_false_iff in H. destruct H as [Hd Hs].
  destruct (Js.isWhiteSpace d); [auto|].
  simpl. rewrite Hd, Hs. reflexivity.
Qed.

Lemma hasChar_trimEnd (c : ascii) (s : string) :
  hasChar c s = false -> hasChar c (Js.trimEnd s) = false.
Proof.
  induction s as [|d s IH]; simpl; intro H; [reflexivity|].
  apply orb_false_iff in H. destruct H as [Hd Hs].
  specialize (IH Hs).
  destruct (Js.trimEnd s) as [|e r].
  - destruct (Js.isWhiteSpace d); simpl; [reflexivity|].
    rewrite Hd. reflexivity.
  - cbn [hasChar]. rewrite Hd. exact IH.
Qed.

Lemma hasChar_trim (c : ascii) (s : string) :
  hasChar c s = false -> hasChar c (Js.trim s) = false.
Proof.
  intro H. unfold Js.trim. apply hasChar_trimEnd, hasChar_trimStart, H.
Qed.

Lemma hasChar_replaceAllFrom (c : ascii) (pat rep : string) (s : string) :
  hasChar c rep = false ->
  forall skip, hasChar c s = false -> hasChar c (Js.replaceAllFrom pat rep skip s) = false.
Proof.
  intro Hrep. induction s as [|d s IH]; intros skip H; [reflexivity|].
  cbn [hasChar] in H. apply orb_false_iff in H. destruct H as [Hd Hs].
  cbn [Js.replaceAllFrom].
  destruct skip as [|k]; [|apply IH, Hs].
  destruct (String.prefix pat (String d s)).
  - rewrite hasChar_append, Hrep. apply IH, Hs.
  - cbn [hasChar]. rewrite Hd. apply IH, Hs.
Qed.

Lemma hasChar_lastIndexOf (c : ascii) (s : string) :
  hasChar c s = false -> Js.lastIndexOf c s = None.
Proof.
  induction s as [|d s IH]; simpl; intro H; [reflexivity|].
  apply orb_false_iff in H. destruct H as [Hd Hs].
  rewrite (IH Hs), Hd. reflexivity.
Qed.

Lemma replaceAll_absent (pat rep s : string) :
  includes pat s = false -> Js.replaceAll pat rep s = s.
Proof.
  unfold Js.replaceAll. induction s as [|d s IH]; intro H; [reflexivity|].
  cbn [includes] in H. apply orb_false_iff in H. destruct H as [Hp Hs].
  cbn [Js.replaceAllFrom]. rewrite Hp. f_equal. apply IH, Hs.
Qed.

Lemma expandTerraces_absent (s : string) :
  noTerraceAbbreviation s = true -> expandTerraces s = s.
Proof.
  unfold noTerraceAbbreviation, terraceAbbreviations. cbn [forallb].
  rewrite !andb_true_iff, !negb_true_iff. intros (H1 & H2 & H3 & H4 & _).
  unfold expandTerraces.
  rewrite (replaceAll_absent _ _ _ H1), (replaceAll_absent _ _ _ H2),
          (replaceAll_absent _ _ _ H3), (replaceAll_absent _ _ _ H4).
  reflexivity.
Qed.

Lemma hasChar_expandTerraces (s : string) :
  hasChar "," s = false -> hasChar "," (expandTerraces s) = false.
Proof.
  intro H. unfold expandTerraces, Js.replaceAll.
  repeat (apply hasChar_replaceAllFrom; [reflexivity|]). exact H.
Qed.

Section AddressFacts.

Variable StreetNames : Obj.t (list string).
Variable StreetSuffixes : Obj.t string.
Variable SuburbNames : Obj.t string.
Variable didYouMean : string -> list string -> nat -> option string.

(** C5, as the code has it.  For every input string that contains no comma,
    [formatAddress] returns the trimmed input with the terrace abbreviations
    expanded; this is the trimmed input itself when it holds none of the
    abbreviations " TCE NTH", " TCE STH", " TCE EAST" and " TCE WEST". *)
Theorem formatAddress_without_comma (address : string) :
  hasChar "," address = false ->
  formatAddress StreetNames StreetSuffixes SuburbNames didYouMean address
    = expandTerraces (Js.trim address) /\
  (noTerraceAbbreviation (Js.trim address) = true ->
   formatAddress StreetNames StreetSuffixes SuburbNames didYouMean address
     = Js.trim address).
Proof.
  intro H.
  assert (E : formatAddress StreetNames StreetSuffixes SuburbNames didYouMean address
              = expandTerraces (Js.trim address)).
  { unfold formatAddress.
    rewrite (hasChar_lastIndexOf _ _ (hasChar_expandTerraces _ (hasChar_trim _ _ H))).
    reflexivity. }
  split; [exact E|].
  intro Hn. rewrite E. apply expandTerraces_absent, Hn.
Qed.

End AddressFacts.

Lemma formatAddress_without_comma_witness :
  Sample.formatAddress " 12 Main St " = expandTerraces (Js.trim " 12 Main St ").
Proof.
  exact (proj1 (formatAddress_without_comma Sample.StreetNames Sample.StreetSuffixes
                  Sample.SuburbNames Sample.didYouMean " 12 Main St " eq_refl)).
Defined.

(** C5 as the specification words it fails: an address without a comma that
    holds a terrace abbreviation is not returned as trimmed. *)
Lemma formatAddress_without_comma_changed :
  hasChar "," "5 KING TCE NTH" = false /\
  Sample.formatAddress "5 KING TCE NTH" = "5 KING TERRACE NORTH" /\
  Sample.formatAddress "5 KING TCE NTH" <> Js.trim "5 KING TCE NTH".
Proof.
  split; [reflexivity|]. split; [reflexivity|].
  vm_compute. discriminate.
Qed.

(* ------------------------------------------------------------------------- *)
(** ** Column mode: the final loop                                            *)
(* ------------------------------------------------------------------------- *)

Lemma filterApplications_kept (previous : option string) (das : list DevelopmentApplication) :
  fst (Column.filterApplications previous das) = filter isValid das.
Proof.
  revert previous. induction das as [|d das IH]; intro previous; [reflexivity|].
  cbn [Column.filterApplications filter]. unfold isValid.
  destruct (String.eqb (applicationNumber d) "") eqn:En.
  - specialize (IH previous).
    destruct (Column.filterApplications previous das) as [kept log]. exact IH.
  - destruct (String.eqb (address d) "") eqn:Ea.
    + specialize (IH previous).
      destruct (Column.filterApplications previous das) as [kept log]. exact IH.
    + specialize (IH (Some (applicationNumber d))).
      destruct (Column.filterApplications (Some (applicationNumber d)) das) as [kept log].
      cbn [negb andb fst] in *. f_equal. exact IH.
Qed.

Lemma filter_isValid_nonempty (das : list DevelopmentApplication) :
  Forall (fun d => applicationNumber d <> "" /\ address d <> "") (filter isValid das).
Proof.
  apply Forall_forall. intros d Hin. apply filter_In in Hin. destruct Hin as [_ Hv].
  unfold isValid in Hv. apply andb_true_iff in Hv. destruct Hv as [Hn Ha].
  apply negb_true_iff in Hn, Ha. apply String.eqb_neq in Hn, Ha. split; assumption.
Qed.

(** The log of the final loop over [before ++ after] is the log over [before]
    followed by the log over [after], run with the context [before] leaves. *)
Lemma filterApplications_log_app (previous : option string)
    (before after : list DevelopmentApplication) :
  snd (Column.filterApplications previous (before ++ after)%list) =
  (snd (Column.filterApplications previous before) ++
   snd (Column.filterApplications (lastValid previous before) after))%list.
Proof.
  revert previous. induction before as [|d before IH]; intro previous; [reflexivity|].
  cbn [app Column.filterApplications lastValid fold_left]. unfold isValid at 2.
  fold (lastValid (if negb (String.eqb (applicationNumber d) "") && negb (String.eqb (address d) "")
                   then Some (applicationNumber d) else previous) before).
  destruct (String.eqb (applicationNumber d) "") eqn:En; cbn [negb andb].
  - specialize (IH previous).
    destruct (Column.filterApplications previous (before ++ after)%list) as [k1 l1].
    destruct (Column.filterApplications previous before) as [k2 l2].
    cbn [snd app] in *. f_equal. exact IH.
  - destruct (String.eqb (address d) "") eqn:Ea; cbn [negb].
    + specialize (IH previous).
      destruct (Column.filterApplications previous (before ++ after)%list) as [k1 l1].
      destruct (Column.filterApplications previous before) as [k2 l2].
      cbn [snd app] in *. f_equal. exact IH.
    + specialize (IH (Some (applicationNumber d))).
      destruct (Column.filterApplications (Some (applicationNumber d)) (before ++ after)%list) as [k1 l1].
      destruct (Column.filterApplications (Some (applicationNumber d)) before) as [k2 l2].
      cbn [snd] in *. exact IH.
Qed.

Lemma filterApplications_dropped (previous : option string)
    (before after : list DevelopmentApplication) (d : DevelopmentApplication) :
  isValid d = false ->
  In (dropMessage d ++ Column.previousContext (lastValid previous before))
     (snd (Column.filterApplications previous (before ++ d :: after)%list)).
Proof.
  intro Hd. rewrite filterApplications_log_app. apply in_or_app. right.
  cbn [Column.filterApplications]. unfold isValid in Hd. unfold dropMessage.
  destruct (String.eqb (applicationNumber d) "") eqn:En.
  - destruct (Column.filterApplications (lastValid previous before) after) as [k l].
    left. reflexivity.
  - cbn [negb andb] in Hd. apply negb_false_iff in Hd. rewrite Hd.
    destruct (Column.filterApplications (lastValid previous before) after) as [k l].
    left. cbn [snd]. rewrite !string_append_assoc. reflexivity.
Qed.

Section ColumnOutput.

Variable StreetNames : Obj.t (list string).
Variable StreetSuffixes : Obj.t string.
Variable SuburbNames : Obj.t string.
Variable didYouMean : string -> list string -> nat -> option string.
Variable moment : string -> string -> option string.
Variable today : string.

Local Abbreviation parsePdf :=
  (Column.parsePdf StreetNames StreetSuffixes SuburbNames didYouMean moment today).
Local Abbreviation records :=
  (columnRecords StreetNames StreetSuffixes SuburbNames didYouMean moment today).

Lemma parsePdf_unfold (url : string) (pages : list (list Element)) :
  fst (parsePdf url pages) = fst (Column.filterApplications None (records url pages)) /\
  incl (snd (Column.filterApplications None (records url pages))) (snd (parsePdf url pages)).
Proof.
  unfold Column.parsePdf, columnRecords.
  destruct (Column.parsePages _ _ _ _ _ _ url (List.length pages) 0 pages Column.initialState)
    as [st pageLog].
  cbn [fst].
  destruct (Column.filterApplications None (Obj.values (Column.developmentApplications st)))
    as [kept filterLog].
  split; [reflexivity|].
  cbn [snd]. intros line Hin. right. apply in_or_app. right. exact Hin.
Qed.

(** C2.  After all pages of a document are processed in column mode, the
    records returned are exactly the held records whose application number and
    address are both non-empty, so both are non-empty in every returned record;
    and every dropped record is logged together with the application number of
    the last record kept before it. *)
Theorem parsePdf_drops_invalid (url : string) (pages : list (list Element)) :
  fst (parsePdf url pages) = filter isValid (records url pages) /\
  Forall (fun d => applicationNumber d <> "" /\ address d <> "") (fst (parsePdf url pages)) /\
  (forall before d after,
     records url pages = (before ++ d :: after)%list ->
     isValid d = false ->
     ~ In d (fst (parsePdf url pages)) /\
     In (dropMessage d ++ Column.previousContext (lastValid None before))
        (snd (parsePdf url pages))).
Proof.
  destruct (parsePdf_unfold url pages) as [Hk Hl].
  rewrite Hk, filterApplications_kept.
  split; [reflexivity|]. split; [apply filter_isValid_nonempty|].
  intros before d after E Hd. split.
  - intro Hin. apply filter_In in Hin. destruct Hin as [_ Hv]. congruence.
  - apply Hl. rewrite E. apply filterApplications_dropped, Hd.
Qed.

End ColumnOutput.

Lemma parsePdf_drops_invalid_witness :
  map applicationNumber (fst (SampleDocument.columnParsePdf [SampleDocument.droppingPage]))
    = ["371/001/19"] /\
  In ("Ignoring development application 371/002/19 because the address was blank " ++
      "(the street name or suburb name is blank).  " ++
      "The previous application number was 371/001/19.")
     (snd (SampleDocument.columnParsePdf [SampleDocument.droppingPage])).
Proof.
  split; [vm_compute; reflexivity|].
  refine (proj2 (proj2 (proj2 (parsePdf_drops_invalid
            Sample.StreetNames Sample.StreetSuffixes Sample.SuburbNames Sample.didYouMean
            Sample.moment Sample.today Sample.url [SampleDocument.droppingPage]))
            [mkApplication "371/001/19" "12 MAIN STREET, CUMMINS SA 5631" "Shed" Sample.url
                           CommentUrl Sample.today "2019-01-03"
                           "Lot 5, Plan D1234, Hundred CUMMINS"]
            (mkApplication "371/002/19" "" NoDescription Sample.url CommentUrl Sample.today "" "")
            [] _ _)).
  - vm_compute. reflexivity.
  - reflexivity.
Defined.

(* ------------------------------------------------------------------------- *)
(** ** Column mode: suburb and hundred                                        *)
(* ------------------------------------------------------------------------- *)

(** What [splitSuburb] does with a suburb text of exactly two parts: the
    second part is the hundred when it starts with the upper-case "HD ",
    otherwise the first part is. *)
Lemma splitSuburb_two_parts (suburbName token0 token1 : string) :
  Js.split "/" suburbName = [token0; token1] ->
  Column.splitSuburb suburbName =
    if Js.testHD (Js.trim token1)
    then (Js.stripHD (Js.trim token0), Js.drop 3 (Js.trim token1))
    else (Js.stripHD (Js.trim token1), Js.stripHD (Js.trim token0)).
Proof.
  intro E. unfold Column.splitSuburb. rewrite E.
  destruct (Js.testHD (Js.trim token1)) eqn:T; [|reflexivity].
  f_equal. unfold Js.stripHD.
  unfold Js.testHD in T.
  destruct (Js.trim token1) as [|a [|b [|c r]]]; cbn [String.prefix] in T;
    repeat match type of T with
           | context [Ascii.ascii_dec ?p ?q] =>
               destruct (Ascii.ascii_dec p q); [subst|discriminate T]
           end;
    try discriminate T.
  reflexivity.
Qed.

(** C6 on the parts the code gets right: an upper-case "HD " part is the
    hundred on either side of the "/", and the prefix is stripped. *)
Lemma splitSuburb_upper_case :
  Column.splitSuburb "EMU FLAT/HD CLARE" = ("EMU FLAT", "CLARE") /\
  Column.splitSuburb "HD CLARE/EMU FLAT" = ("EMU FLAT", "CLARE") /\
  Column.splitSuburb "hd clare / EMU FLAT" = ("EMU FLAT", "clare").
Proof. repeat split; reflexivity. Qed.

(** C6 at the failing input.  The suburb text "EMU FLAT/hd clare" has two
    parts and its second part starts with "HD " up to case; the code takes the
    first part as the hundred and the second, stripped, as the suburb. *)
Theorem splitSuburb_lower_case_second :
  Js.split "/" "EMU FLAT/hd clare" = ["EMU FLAT"; "hd clare"] /\
  Js.stripHD "hd clare" = "clare" /\
  Js.testHD "hd clare" = false /\
  Column.splitSuburb "EMU FLAT/hd clare" = ("clare", "EMU FLAT").
Proof. repeat split; reflexivity. Qed.

(* ------------------------------------------------------------------------- *)
(** ** Grid mode: the application-number pattern                              *)
(* ------------------------------------------------------------------------- *)

Lemma skipDigits_split (s : string) :
  exists d, Obj.allDigits d = true /\ s = d ++ Js.skipDigits s /\
            (Js.startsWithDigit s = true -> d <> "").
Proof.
  induction s as [|c s IH].
  - exists "". repeat split. discriminate.
  - destruct IH as (d & Hd & Hs & _). cbn [Js.skipDigits Js.startsWithDigit].
    destruct (Js.isDigit c) eqn:Ec.
    + exists (String c d). cbn [Obj.allDigits]. rewrite Ec, Hd.
      repeat split; [simpl; f_equal; exact Hs | discriminate].
    + exists "". repeat split. discriminate.
Qed.

Lemma digitsThenSlash_sound (s rest : string) :
  Js.digitsThenSlash s = Some rest -> exists d, isNumber d /\ s = d ++ "/" ++ rest.
Proof.
  unfold Js.digitsThenSlash. intro H.
  destruct (Js.startsWithDigit s) eqn:Es; [|discriminate].
  destruct (skipDigits_split s) as (d & Hd & Hs & Hn).
  destruct (Js.skipDigits s) as [|c r] eqn:Ek; [discriminate|].
  destruct (Ascii.ascii_dec c "/") as [->|Hc].
  - injection H as <-. exists d. split; [split; auto|]. exact Hs.
  - exfalso. destruct c as [[] [] [] [] [] [] [] []]; try discriminate H. apply Hc. reflexivity.
Qed.

Lemma startsWithDigit_sound (s : string) :
  Js.startsWithDigit s = true -> exists d after, isNumber d /\ s = d ++ after.
Proof.
  destruct s as [|c s]; [discriminate|]. cbn [Js.startsWithDigit]. intro Hc.
  exists (String c ""), s. split; [|reflexivity].
  split; [discriminate|]. cbn [Obj.allDigits]. rewrite Hc. reflexivity.
Qed.

Lemma matchHere_sound (s : string) :
  Js.matchApplicationNumberHere s = true ->
  exists d1 d2 d3 after,
    isNumber d1 /\ isNumber d2 /\ isNumber d3 /\ s = d1 ++ "/" ++ d2 ++ "/" ++ d3 ++ after.
Proof.
  unfold Js.matchApplicationNumberHere. intro H.
  destruct (Js.digitsThenSlash s) as [s1|] eqn:E1; [|discriminate].
  destruct (Js.digitsThenSlash s1) as [s2|] eqn:E2; [|discriminate].
  apply digitsThenSlash_sound in E1, E2.
  destruct E1 as (d1 & N1 & ->). destruct E2 as (d2 & N2 & ->).
  apply startsWithDigit_sound in H. destruct H as (d3 & after & N3 & ->).
  exists d1, d2, d3, after. repeat split; try apply N1; try apply N2; try apply N3.
Qed.

Lemma skipDigits_append (d t : string) :
  Obj.allDigits d = true -> Js.skipDigits (d ++ t) = Js.skipDigits t.
Proof.
  induction d as [|c d IH]; intro H; [reflexivity|].
  cbn [Obj.allDigits] in H. apply andb_true_iff in H. destruct H as [Hc Hd].
  cbn [append Js.skipDigits]. rewrite Hc. apply IH, Hd.
Qed.

Lemma startsWithDigit_complete (d t : string) :
  isNumber d -> Js.startsWithDigit (d ++ t) = true.
Proof.
  intros [Hn Hd]. destruct d as [|c d]; [contradiction|].
  cbn [Obj.allDigits] in Hd. apply andb_true_iff in Hd. apply Hd.
Qed.

Lemma digitsThenSlash_complete (d rest : string) :
  isNumber d -> Js.digitsThenSlash (d ++ "/" ++ rest) = Some rest.
Proof.
  intro N. unfold Js.digitsThenSlash.
  rewrite (startsWithDigit_complete _ _ N).
  rewrite (skipDigits_append _ _ (proj2 N)). reflexivity.
Qed.

Lemma matchHere_complete (d1 d2 d3 after : string) :
  isNumber d1 -> isNumber d2 -> isNumber d3 ->
  Js.matchApplicationNumberHere (d1 ++ "/" ++ d2 ++ "/" ++ d3 ++ after) = true.
Proof.
  intros N1 N2 N3. unfold Js.matchApplicationNumberHere.
  rewrite (digitsThenSlash_complete _ _ N1), (digitsThenSlash_complete _ _ N2).
  apply startsWithDigit_complete, N3.
Qed.

Lemma testApplicationNumber_suffix (before t : string) :
  Js.matchApplicationNumberHere t = true -> Js.testApplicationNumber (before ++ t) = true.
Proof.
  intro M. induction before as [|c before IH].
  - destruct t as [|c t]; [discriminate M|].
    cbn [append Js.testApplicationNumber]. rewrite M. reflexivity.
  - cbn [append Js.testApplicationNumber]. rewrite IH. apply orb_true_r.
Qed.

(** The matcher embedded from the pattern accepts exactly the texts that hold
    digits "/" digits "/" digits. *)
Lemma testApplicationNumber_iff (s : string) :
  Js.testApplicationNumber s = true <-> matchesApplicationNumber s.
Proof.
  split.
  - induction s as [|c s IH]; cbn [Js.testApplicationNumber]; intro H.
    + rewrite orb_false_r in H. apply matchHere_sound in H.
      destruct H as (d1 & d2 & d3 & after & N1 & N2 & N3 & E).
      exists "", d1, d2, d3, after. auto.
    + apply orb_true_iff in H. destruct H as [H | H].
      * apply matchHere_sound in H.
        destruct H as (d1 & d2 & d3 & after & N1 & N2 & N3 & E).
        exists "", d1, d2, d3, after. auto.
      * destruct (IH H) as (before & d1 & d2 & d3 & after & N1 & N2 & N3 & E).
        exists (String c before), d1, d2, d3, after.
        split; [exact N1|]. split; [exact N2|]. split; [exact N3|].
        cbn [append]. f_equal. exact E.
  - intros (before & d1 & d2 & d3 & after & N1 & N2 & N3 & ->).
    apply testApplicationNumber_suffix, matchHere_complete; assumption.
Qed.

(** The pattern is not anchored: text around the number is accepted. *)
Remark pattern_not_anchored :
  Js.testApplicationNumber "ref 910/144/16a" = true /\
  Js.testApplicationNumber "910/144" = false /\
  Js.testApplicationNumber "D/A Number" = false.
Proof. repeat split; reflexivity. Qed.

(* ------------------------------------------------------------------------- *)
(** ** Grid mode: the rows                                                    *)
(* ------------------------------------------------------------------------- *)

Section GridRows.

Variable StreetNames : Obj.t (list string).
Variable StreetSuffixes : Obj.t string.
Variable SuburbNames : Obj.t string.
Variable didYouMean : string -> list string -> nat -> option string.
Variable moment : string -> string -> option string.
Variable today : string.

Local Abbreviation processRow :=
  (Grid.processRow StreetNames StreetSuffixes SuburbNames didYouMean moment today).
Local Abbreviation processRows :=
  (Grid.processRows StreetNames StreetSuffixes SuburbNames didYouMean moment today).

(** A row that adds a record has an application-number cell, the text of that
    cell is accepted by the pattern, and it is the record's application
    number; the record's description is the text of the description cell, or
    the default when there is no such text. *)
Lemma processRow_emits (url : string) (hs : Grid.Headings) (row : list Grid.Cell)
    (d : DevelopmentApplication) :
  fst (processRow url hs row) = Some d ->
  (exists cell,
     Grid.alignedCell (Grid.applicationNumberHeadingCell hs) row = Some cell /\
     Js.testApplicationNumber (Grid.applicationNumberText cell) = true /\
     applicationNumber d = Grid.applicationNumberText cell) /\
  description d =
    (if String.eqb (Grid.rowDescriptionText hs row) "" then NoDescription
     else Grid.rowDescriptionText hs row).
Proof.
  unfold Grid.processRow.
  destruct (Grid.alignedCell (Grid.applicationNumberHeadingCell hs) row) as [cell|];
    [|discriminate].
  destruct (Js.testApplicationNumber (Grid.applicationNumberText cell)) eqn:T;
    [|discriminate].
  cbn [negb].
  destruct (Grid.alignedCell (Grid.streetNameHeadingCell hs) row) as [street|];
    [|discriminate].
  destruct (Grid.alignedCell (Grid.suburbNameHeadingCell hs) row) as [suburb|];
    [|discriminate].
  destruct (String.eqb (joinText (Grid.elements street)) ""); [discriminate|].
  destruct (String.eqb (joinText (Grid.elements suburb)) ""); [discriminate|].
  destruct (String.eqb (formatAddress _ _ _ _ _) ""); [discriminate|].
  cbn [fst]. intro E. injection E as <-. cbn [applicationNumber description].
  split; [|reflexivity]. exists cell. auto.
Qed.

(** C9.  In grid mode a row whose application-number cell is missing, or holds
    a text that the pattern digits/digits/digits does not accept, adds no
    record and logs nothing, and the loop goes on with the next row. *)
Theorem processRow_rejects_unmatched (url : string) (hs : Grid.Headings)
    (row : list Grid.Cell) :
  (forall cell,
     Grid.alignedCell (Grid.applicationNumberHeadingCell hs) row = Some cell ->
     ~ matchesApplicationNumber (Grid.applicationNumberText cell)) ->
  processRow url hs row = (None, []) /\
  (forall rest, processRows url hs (row :: rest) = processRows url hs rest).
Proof.
  intro H.
  assert (E : processRow url hs row = (None, [])).
  { unfold Grid.processRow.
    destruct (Grid.alignedCell (Grid.applicationNumberHeadingCell hs) row) as [cell|];
      [|reflexivity].
    destruct (Js.testApplicationNumber (Grid.applicationNumberText cell)) eqn:T;
      [|reflexivity].
    exfalso. apply (H cell eq_refl). apply testApplicationNumber_iff. exact T. }
  split; [exact E|].
  intro rest. cbn [Grid.processRows]. rewrite E.
  destruct (processRows url hs rest) as [others log]. reflexivity.
Qed.

End GridRows.

Lemma processRow_rejects_unmatched_witness :
  SampleGrid.processRow SampleGrid.totalRow = (None, []).
Proof.
  refine (proj1 (processRow_rejects_unmatched
            Sample.StreetNames Sample.StreetSuffixes Sample.SuburbNames
            Sample.didYouMean Sample.moment Sample.today Sample.url
            SampleGrid.headings SampleGrid.totalRow _)).
  intros cell E M. apply testApplicationNumber_iff in M.
  vm_compute in E. injection E as <-. vm_compute in M. discriminate M.
Defined.

(* ------------------------------------------------------------------------- *)
(** ** Objects and sorting                                                    *)
(* ------------------------------------------------------------------------- *)

Lemma get_set_same {V} (key : string) (v : V) (o : Obj.t V) :
  Obj.get key (Obj.set key v o) = Some v.
Proof.
  induction o as [|[k w] o IH]; cbn [Obj.set Obj.get].
  - rewrite String.eqb_refl. reflexivity.
  - destruct (String.eqb k key) eqn:E; cbn [Obj.get]; rewrite E; [reflexivity | exact IH].
Qed.

Lemma get_set_other {V} (key other : string) (v : V) (o : Obj.t V) :
  other <> key -> Obj.get other (Obj.set key v o) = Obj.get other o.
Proof.
  intro Hne. induction o as [|[k w] o IH]; cbn [Obj.set Obj.get].
  - destruct (String.eqb key other) eqn:E; [|reflexivity].
    apply String.eqb_eq in E. congruence.
  - destruct (String.eqb k key) eqn:E; cbn [Obj.get].
    + apply String.eqb_eq in E. subst k.
      destruct (String.eqb key other) eqn:E'; [|reflexivity].
      apply String.eqb_eq in E'. congruence.
    + rewrite IH. reflexivity.
Qed.

Lemma get_In {V} (key : string) (v : V) (o : Obj.t V) :
  Obj.get key o = Some v -> In (key, v) o.
Proof.
  induction o as [|[k w] o IH]; cbn [Obj.get]; [discriminate|].
  destruct (String.eqb k key) eqn:E.
  - intro H. injection H as <-. apply String.eqb_eq in E. subst k. left. reflexivity.
  - intro H. right. apply IH, H.
Qed.

Lemma set_Forall {V} (P : string * V -> Prop) (key : string) (v : V) (o : Obj.t V) :
  Forall P o -> P (key, v) -> Forall P (Obj.set key v o).
Proof.
  intros Ho Hv. induction Ho as [|[k w] o Hk Ho IH]; cbn [Obj.set].
  - constructor; [exact Hv | constructor].
  - destruct (String.eqb k key) eqn:E.
    + apply String.eqb_eq in E. subst k. constructor; assumption.
    + constructor; assumption.
Qed.

Lemma insertSorted_In {A} (cmp : A -> A -> Z) (a b : A) (l : list A) :
  In b (Js.insertSorted cmp a l) <-> b = a \/ In b l.
Proof.
  induction l as [|c l IH]; cbn [Js.insertSorted].
  - simpl. intuition congruence.
  - destruct (cmp a c <=? 0)%Z; simpl in *; intuition congruence.
Qed.

Lemma sort_In {A} (cmp : A -> A -> Z) (b : A) (l : list A) :
  In b (Js.sort cmp l) <-> In b l.
Proof.
  unfold Js.sort. induction l as [|a l IH]; cbn [fold_right]; [tauto|].
  rewrite insertSorted_In, IH. simpl. intuition congruence.
Qed.

Lemma entries_In {V} (e : string * V) (o : Obj.t V) :
  In e (Obj.entries o) <-> In e o.
Proof.
  unfold Obj.entries. rewrite in_app_iff, sort_In, !filter_In.
  destruct (Obj.isIndexed e); simpl; intuition congruence.
Qed.

Lemma values_In {V} (v : V) (o : Obj.t V) :
  In v (Obj.values o) <-> exists key, In (key, v) o.
Proof.
  unfold Obj.values. rewrite in_map_iff. split.
  - intros ([k w] & E & Hin). simpl in E. subst w. exists k. apply entries_In, Hin.
  - intros (k & Hin). exists (k, v). split; [reflexivity|]. apply entries_In, Hin.
Qed.

(* ------------------------------------------------------------------------- *)
(** ** Column mode: merging a row into its record                             *)
(* ------------------------------------------------------------------------- *)

Lemma withDefault_nonempty (t : string) : Column.withDefault t <> "".
Proof.
  unfold Column.withDefault. destruct (String.eqb t "") eqn:E.
  - discriminate.
  - apply String.eqb_neq, E.
Qed.

(** What one run of the four guarded assignments leaves in a field. *)
Lemma update_field (f : Field) (hs : Column.Headings) (v : Column.RowValues)
    (d : DevelopmentApplication) :
  fieldOf f (Column.updateApplication hs v d) =
    if headingDefined f hs &&
       match f with
       | Description => negb (String.eqb (extracted f v) "")
       | _ => true
       end
    then extracted f v
    else fieldOf f d.
Proof.
  destruct f; unfold Column.updateApplication, headingDefined, extracted;
  destruct (isDefined (Column.receivedDateHeadingElement hs)),
           (isDefined (Column.houseNumberHeadingElement hs)),
           (isDefined (Column.streetNameHeadingElement hs)),
           (isDefined (Column.suburbNameHeadingElement hs)),
           (isDefined (Column.lotNumberHeadingElement hs)),
           (isDefined (Column.planHeadingElement hs)),
           (isDefined (Column.descriptionHeadingElement hs)),
           (String.eqb (Column.rowDescription v) "");
    reflexivity.
Qed.

Lemma update_applicationNumber (hs : Column.Headings) (v : Column.RowValues)
    (d : DevelopmentApplication) :
  applicationNumber (Column.updateApplication hs v d) = applicationNumber d.
Proof.
  unfold Column.updateApplication.
  destruct (isDefined (Column.receivedDateHeadingElement hs)),
           (isDefined (Column.houseNumberHeadingElement hs)),
           (isDefined (Column.streetNameHeadingElement hs)),
           (isDefined (Column.suburbNameHeadingElement hs)),
           (isDefined (Column.lotNumberHeadingElement hs)),
           (isDefined (Column.planHeadingElement hs)),
           (isDefined (Column.descriptionHeadingElement hs)),
           (String.eqb (Column.rowDescription v) "");
    reflexivity.
Qed.

Section ColumnMerge.

Variable StreetNames : Obj.t (list string).
Variable StreetSuffixes : Obj.t string.
Variable SuburbNames : Obj.t string.
Variable didYouMean : string -> list string -> nat -> option string.
Variable moment : string -> string -> option string.
Variable today : string.

Local Abbreviation valuesOf :=
  (stepValues StreetNames StreetSuffixes SuburbNames didYouMean moment).
Local Abbreviation merge :=
  (mergeStep StreetNames StreetSuffixes SuburbNames didYouMean moment today).
Local Abbreviation mergeAll :=
  (mergeSteps StreetNames StreetSuffixes SuburbNames didYouMean moment today).

Lemma stepValues_number (s : Step) :
  Column.rowApplicationNumber (valuesOf s) = anchorNumber (stepAnchor s).
Proof.
  unfold stepValues, Column.extractRow.
  destruct (Column.splitSuburb _) as [suburb hundred]. reflexivity.
Qed.

Lemma stepValues_description (s : Step) :
  Column.rowDescription (valuesOf s) =
  Column.withDefault (Column.rowDescriptionText (stepHeadings s) (stepRow s)).
Proof.
  unfold stepValues, Column.extractRow.
  destruct (Column.splitSuburb _) as [suburb hundred]. reflexivity.
Qed.

(** The record a pass leaves under the application number of its anchor, and
    the other records it leaves alone. *)
Lemma mergeStep_get (url : string) (das : Obj.t DevelopmentApplication) (s : Step)
    (key : string) :
  Obj.get key (merge url das s) =
    if String.eqb (anchorNumber (stepAnchor s)) key
    then Some (Column.updateApplication (stepHeadings s) (valuesOf s)
                 match Obj.get key das with
                 | Some d => d
                 | None => Column.newApplication today url key
                 end)
    else Obj.get key das.
Proof.
  unfold mergeStep, Column.mergeRow. rewrite stepValues_number.
  destruct (String.eqb (anchorNumber (stepAnchor s)) key) eqn:E.
  - apply String.eqb_eq in E. rewrite E. apply get_set_same.
  - apply String.eqb_neq in E. apply get_set_other. congruence.
Qed.

End ColumnMerge.

Lemma update_unchanged (f : Field) (hs : Column.Headings) (v : Column.RowValues)
    (d : DevelopmentApplication) :
  headingDefined f hs = false ->
  fieldOf f (Column.updateApplication hs v d) = fieldOf f d.
Proof.
  intro H. rewrite update_field, H. reflexivity.
Qed.

Lemma update_nonempty (f : Field) (hs : Column.Headings) (v : Column.RowValues)
    (d : DevelopmentApplication) :
  fieldOf f d <> "" ->
  headingDefined f hs = false \/ extracted f v <> "" ->
  fieldOf f (Column.updateApplication hs v d) <> "".
Proof.
  intros Hd H. rewrite update_field.
  destruct (headingDefined f hs); [|exact Hd].
  destruct H as [H | H]; [discriminate|].
  destruct f; cbn [andb]; try exact H.
  destruct (String.eqb (extracted Description v) ""); [exact Hd | exact H].
Qed.

Lemma update_description (hs : Column.Headings) (v : Column.RowValues)
    (d : DevelopmentApplication) :
  description d <> "" -> description (Column.updateApplication hs v d) <> "".
Proof.
  intro Hd. change (fieldOf Description (Column.updateApplication hs v d) <> "").
  rewrite update_field.
  destruct (headingDefined Description hs); [|exact Hd]. cbn [andb].
  destruct (String.eqb (extracted Description v) "") eqn:E; [exact Hd|].
  apply String.eqb_neq, E.
Qed.

Section ColumnFields.

Variable StreetNames : Obj.t (list string).
Variable StreetSuffixes : Obj.t string.
Variable SuburbNames : Obj.t string.
Variable didYouMean : string -> list string -> nat -> option string.
Variable moment : string -> string -> option string.
Variable today : string.

Local Abbreviation valuesOf :=
  (stepValues StreetNames StreetSuffixes SuburbNames didYouMean moment).
Local Abbreviation merge :=
  (mergeStep StreetNames StreetSuffixes SuburbNames didYouMean moment today).
Local Abbreviation mergeAll :=
  (mergeSteps StreetNames StreetSuffixes SuburbNames didYouMean moment today).

Local Abbreviation after :=
  (fieldAfter StreetNames StreetSuffixes SuburbNames didYouMean moment).

Lemma mergeAll_field (url : string) (f : Field) (key : string) (steps : list Step) :
  forall (das : Obj.t DevelopmentApplication) (d0 : DevelopmentApplication),
  Obj.get key das = Some d0 ->
  exists d,
    Obj.get key (mergeAll url steps das) = Some d /\
    fieldOf f d = after f key steps (fieldOf f d0).
Proof.
  induction steps as [|s steps IH]; intros das d0 Hget.
  - exists d0. cbn [mergeSteps fieldAfter fold_left]. auto.
  - cbn [mergeSteps fieldAfter fold_left].
    pose proof (mergeStep_get StreetNames StreetSuffixes SuburbNames didYouMean moment today
                  url das s key) as Hstep.
    rewrite Hget in Hstep.
    destruct (String.eqb (anchorNumber (stepAnchor s)) key) eqn:E.
    + destruct (IH _ _ Hstep) as (d & Hd & Hf). exists d. split; [exact Hd|].
      rewrite Hf. f_equal. rewrite update_field. unfold fieldAfterStep. rewrite E.
      cbn [andb]. reflexivity.
    + destruct (IH _ _ Hstep) as (d & Hd & Hf). exists d. split; [exact Hd|].
      rewrite Hf. f_equal. unfold fieldAfterStep. rewrite E. reflexivity.
Qed.

Lemma extracted_description (s : Step) : extracted Description (valuesOf s) <> "".
Proof.
  cbn [extracted]. rewrite stepValues_description. apply withDefault_nonempty.
Qed.

Lemma fieldAfter_unchanged (f : Field) (key : string) (steps : list Step) :
  forall initial,
  Forall (fun s => anchorNumber (stepAnchor s) = key ->
                   headingDefined f (stepHeadings s) = false) steps ->
  after f key steps initial = initial.
Proof.
  induction steps as [|s steps IH]; intros initial F; [reflexivity|].
  cbn [fieldAfter fold_left]. pose proof (Forall_inv F) as Hs.
  replace (fieldAfterStep StreetNames StreetSuffixes SuburbNames didYouMean moment
             f key initial s) with initial.
  - apply IH, (Forall_inv_tail F).
  - unfold fieldAfterStep.
    destruct (String.eqb (anchorNumber (stepAnchor s)) key) eqn:E; [|reflexivity].
    apply String.eqb_eq in E. rewrite (Hs E). reflexivity.
Qed.

Lemma fieldAfter_last (f : Field) (key : string) (before : list Step) (s : Step)
    (initial : string) :
  anchorNumber (stepAnchor s) = key ->
  headingDefined f (stepHeadings s) = true ->
  f <> Description ->
  after f key (before ++ [s]) initial = extracted f (valuesOf s).
Proof.
  intros E H Hf. unfold fieldAfter. rewrite fold_left_app. cbn [fold_left].
  unfold fieldAfterStep. apply String.eqb_eq in E. rewrite E, H.
  destruct f; try reflexivity. contradiction.
Qed.

(** A field that is not empty stays so over every prefix of the steps exactly
    when no step for the record reads an empty value under a heading of the
    field. *)
Lemma fieldAfter_nonempty_iff (f : Field) (key : string) (steps : list Step) :
  forall initial,
  initial <> "" ->
  (forall n, after f key (firstn n steps) initial <> "") <->
  Forall (fun s => anchorNumber (stepAnchor s) = key ->
                   headingDefined f (stepHeadings s) = false \/
                   extracted f (valuesOf s) <> "") steps.
Proof.
  induction steps as [|s steps IH]; intros initial Hne.
  - split; [constructor|]. intros _ n. destruct n; exact Hne.
  - set (next := fieldAfterStep StreetNames StreetSuffixes SuburbNames didYouMean moment
                   f key initial s).
    assert (Hfold : forall n, after f key (firstn (S n) (s :: steps)) initial =
                              after f key (firstn n steps) next) by reflexivity.
    assert (Hnext : next <> "" <->
                    (anchorNumber (stepAnchor s) = key ->
                     headingDefined f (stepHeadings s) = false \/
                     extracted f (valuesOf s) <> "")).
    { unfold next, fieldAfterStep.
      destruct (String.eqb (anchorNumber (stepAnchor s)) key) eqn:E.
      - apply String.eqb_eq in E.
        destruct (headingDefined f (stepHeadings s)); cbn [andb].
        + assert (G : match f with
                      | Description => negb (String.eqb (extracted f (valuesOf s)) "")
                      | _ => true
                      end = true).
          { destruct f; try reflexivity.
            apply negb_true_iff, String.eqb_neq, extracted_description. }
          rewrite G. split.
          * intros H _. right. exact H.
          * intro H. destruct (H E) as [H' | H']; [discriminate | exact H'].
        + split; [intros _ _; left; reflexivity | intros _; exact Hne].
      - apply String.eqb_neq in E. split; [intros _ H; contradiction | intros _; exact Hne]. }
    split.
    + intro H. constructor.
      * apply Hnext. exact (H 1).
      * apply (IH next); [exact (H 1)|]. intro n. rewrite <- Hfold. apply H.
    + intros F n. destruct n as [|n]; [exact Hne|]. rewrite Hfold.
      apply (proj2 (IH next (proj2 Hnext (Forall_inv F))) (Forall_inv_tail F)).
Qed.

Lemma fieldAfter_description (key : string) (steps : list Step) :
  forall initial, initial <> "" -> after Description key steps initial <> "".
Proof.
  induction steps as [|s steps IH]; intros initial Hne; [exact Hne|].
  cbn [fieldAfter fold_left]. apply IH. unfold fieldAfterStep.
  destruct (String.eqb (anchorNumber (stepAnchor s)) key
            && headingDefined Description (stepHeadings s)
            && negb (String.eqb (extracted Description (valuesOf s)) "")); [|exact Hne].
  apply extracted_description.
Qed.

(** C1, as the code has it.  In column mode a merge step overwrites a field of
    the record only when the current heading capture defines a heading of that
    field: a field whose headings are defined in no step for the record keeps
    its value.  When a heading of the received date, the address or the legal
    description is defined, the field takes the value read from the row, empty
    or not.  So a field that is not empty is not empty after every later step
    exactly when every later step for the record that defines a heading of the
    field reads a value that is not empty.  The description stays non-empty
    whatever the steps read. *)
Theorem mergeSteps_guarded_by_headings (url : string) (f : Field) (steps : list Step)
    (das : Obj.t DevelopmentApplication) (key : string) (d0 : DevelopmentApplication) :
  Obj.get key das = Some d0 ->
  exists d,
    Obj.get key (mergeAll url steps das) = Some d /\
    (Forall (fun s => anchorNumber (stepAnchor s) = key ->
                      headingDefined f (stepHeadings s) = false) steps ->
     fieldOf f d = fieldOf f d0) /\
    (forall before s,
       steps = (before ++ [s])%list ->
       anchorNumber (stepAnchor s) = key ->
       headingDefined f (stepHeadings s) = true ->
       f <> Description ->
       fieldOf f d = extracted f (valuesOf s)) /\
    (fieldOf f d0 <> "" ->
     ((forall n, exists dn,
         Obj.get key (mergeAll url (firstn n steps) das) = Some dn /\
         fieldOf f dn <> "") <->
      Forall (fun s => anchorNumber (stepAnchor s) = key ->
                       headingDefined f (stepHeadings s) = false \/
                       extracted f (valuesOf s) <> "") steps)) /\
    (description d0 <> "" -> description d <> "").
Proof.
  intro Hget.
  destruct (mergeAll_field url f key steps das d0 Hget) as (d & Hd & Hf).
  exists d. split; [exact Hd|]. split; [|split; [|split]].
  - intro F. rewrite Hf. apply fieldAfter_unchanged, F.
  - intros before s -> E H Hn. rewrite Hf. apply fieldAfter_last; assumption.
  - intro Hne. rewrite <- (fieldAfter_nonempty_iff f key steps _ Hne). split.
    + intros H n. destruct (H n) as (dn & Hdn & Hfn).
      destruct (mergeAll_field url f key (firstn n steps) das d0 Hget) as (dn' & Hdn' & Hfn').
      rewrite Hdn in Hdn'. injection Hdn' as <-. rewrite <- Hfn'. exact Hfn.
    + intros H n.
      destruct (mergeAll_field url f key (firstn n steps) das d0 Hget) as (dn & Hdn & Hfn).
      exists dn. split; [exact Hdn|]. rewrite Hfn. apply H.
  - intro Hne.
    destruct (mergeAll_field url Description key steps das d0 Hget) as (d' & Hd' & Hf').
    rewrite Hd in Hd'. injection Hd' as <-.
    change (fieldOf Description d <> ""). rewrite Hf'.
    apply fieldAfter_description, Hne.
Qed.

End ColumnFields.

Lemma mergeSteps_guarded_by_headings_witness :
  exists d,
    Obj.get "371/001/19"
      (SampleSteps.mergeSteps [SampleSteps.repeatedStep]
         (SampleSteps.mergeSteps [SampleSteps.shedStep] [])) = Some d /\
    receivedDate d = "" /\
    description d <> "".
Proof.
  destruct (mergeSteps_guarded_by_headings
              Sample.StreetNames Sample.StreetSuffixes Sample.SuburbNames Sample.didYouMean
              Sample.moment Sample.today Sample.url ReceivedDate [SampleSteps.repeatedStep]
              (SampleSteps.mergeSteps [SampleSteps.shedStep] []) "371/001/19"
              (mkApplication "371/001/19" "12 MAIN STREET, CUMMINS SA 5631" "Shed" Sample.url
                             CommentUrl Sample.today "2019-01-03"
                             "Lot 5, Plan D1234, Hundred CUMMINS") eq_refl)
    as (d & Hget & _ & Htakes & _ & Hdescription).
  exists d. split; [exact Hget|]. split.
  - change (fieldOf ReceivedDate d = "").
    rewrite (Htakes [] SampleSteps.repeatedStep eq_refl eq_refl eq_refl);
      [reflexivity | discriminate].
  - apply Hdescription. discriminate.
Defined.

(** C1 as the specification words it fails.  Three passes share the
    application number 371/001/19 under one heading capture.  After the first
    the received date, the legal description and the address are non-empty;
    the second reads no date, lot or plan and empties the first two; the third
    reads no street and empties the address.  The parsed document returns the
    record with its legal description and received date empty. *)
Lemma fields_regress_to_empty :
  let first := SampleSteps.mergeSteps [SampleSteps.shedStep] [] in
  let second := SampleSteps.mergeSteps [SampleSteps.repeatedStep] first in
  let third := SampleSteps.mergeSteps [SampleSteps.bareStep] second in
  map (fun s => anchorNumber (stepAnchor s))
      [SampleSteps.shedStep; SampleSteps.repeatedStep; SampleSteps.bareStep]
    = ["371/001/19"; "371/001/19"; "371/001/19"] /\
  option_map (fun d => (receivedDate d, legalDescription d, address d))
             (Obj.get "371/001/19" first)
    = Some ("2019-01-03", "Lot 5, Plan D1234, Hundred CUMMINS",
            "12 MAIN STREET, CUMMINS SA 5631") /\
  option_map (fun d => (receivedDate d, legalDescription d, address d))
             (Obj.get "371/001/19" second)
    = Some ("", "", "12 MAIN STREET, CUMMINS SA 5631") /\
  option_map (fun d => (receivedDate d, legalDescription d, address d))
             (Obj.get "371/001/19" third)
    = Some ("", "", "") /\
  map (fun d => (applicationNumber d, receivedDate d, legalDescription d))
      (fst (SampleDocument.columnParsePdf [SampleDocument.repeatingPage]))
    = [("371/001/19", "", "")].
Proof. vm_compute. repeat split; reflexivity. Qed.

(* ------------------------------------------------------------------------- *)
(** ** Column mode: the page loop as a sequence of passes                     *)
(* ------------------------------------------------------------------------- *)

Section ColumnPasses.

Variable StreetNames : Obj.t (list string).
Variable StreetSuffixes : Obj.t string.
Variable SuburbNames : Obj.t string.
Variable didYouMean : string -> list string -> nat -> option string.
Variable moment : string -> string -> option string.
Variable today : string.

Local Abbreviation valuesOf :=
  (stepValues StreetNames StreetSuffixes SuburbNames didYouMean moment).
Local Abbreviation merge :=
  (mergeStep StreetNames StreetSuffixes SuburbNames didYouMean moment today).
Local Abbreviation mergeAll :=
  (mergeSteps StreetNames StreetSuffixes SuburbNames didYouMean moment today).
Local Abbreviation processAnchor :=
  (Column.processAnchor StreetNames StreetSuffixes SuburbNames didYouMean moment today).
Local Abbreviation processAnchors :=
  (Column.processAnchors StreetNames StreetSuffixes SuburbNames didYouMean moment today).
Local Abbreviation parsePage :=
  (Column.parsePage StreetNames StreetSuffixes SuburbNames didYouMean moment today).
Local Abbreviation parsePages :=
  (Column.parsePages StreetNames StreetSuffixes SuburbNames didYouMean moment today).
Local Abbreviation parsePdf :=
  (Column.parsePdf StreetNames StreetSuffixes SuburbNames didYouMean moment today).
Local Abbreviation records :=
  (columnRecords StreetNames StreetSuffixes SuburbNames didYouMean moment today).
Local Abbreviation after :=
  (afterPasses StreetNames StreetSuffixes SuburbNames didYouMean moment today).

Lemma mergeAll_app (url : string) (first others : list Step)
    (das : Obj.t DevelopmentApplication) :
  mergeAll url (first ++ others)%list das = mergeAll url others (mergeAll url first das).
Proof. unfold mergeSteps. apply fold_left_app. Qed.

Lemma processAnchor_passes (url : string) (elements : list Element)
    (previous : option Element) (anchor : Element) (st : Column.State) :
  processAnchor url elements previous anchor st =
  after url st (anchorPass elements previous anchor (Column.headings st)).
Proof.
  unfold Column.processAnchor, anchorPass, afterPasses.
  destruct (negb (isDefined previous) && String.eqb (Column.headingKey anchor) "DEVNO");
    reflexivity.
Qed.

Lemma processAnchors_passes (url : string) (elements : list Element)
    (anchors : list Element) :
  forall (previous : option Element) (st : Column.State),
  processAnchors url elements previous anchors st =
  after url st (anchorPasses elements previous anchors (Column.headings st)).
Proof.
  induction anchors as [|anchor rest IH]; intros previous st.
  - destruct st. reflexivity.
  - cbn [Column.processAnchors anchorPasses].
    rewrite IH, processAnchor_passes.
    destruct (anchorPass elements previous anchor (Column.headings st)) as [first hs1].
    unfold afterPasses. cbn [Column.headings Column.developmentApplications fst snd].
    destruct (anchorPasses elements (Some anchor) rest hs1) as [others hs2].
    cbn [fst snd]. rewrite mergeAll_app. reflexivity.
Qed.

Lemma parsePage_passes (url : string) (page : list Element) (st : Column.State) :
  parsePage url page st = after url st (pagePasses page (Column.headings st)).
Proof. unfold Column.parsePage, pagePasses. apply processAnchors_passes. Qed.

Lemma parsePages_passes (url : string) (numPages : nat) (pages : list (list Element)) :
  forall (pageIndex : nat) (st : Column.State),
  fst (parsePages url numPages pageIndex pages st) =
  after url st (documentPasses pages (Column.headings st)).
Proof.
  induction pages as [|page rest IH]; intros pageIndex st.
  - destruct st. reflexivity.
  - cbn [Column.parsePages documentPasses].
    specialize (IH (S pageIndex) (parsePage url page st)).
    destruct (parsePages url numPages (S pageIndex) rest (parsePage url page st))
      as [st' log].
    cbn [fst] in *. rewrite IH, parsePage_passes.
    destruct (pagePasses page (Column.headings st)) as [first hs1].
    unfold afterPasses. cbn [Column.headings Column.developmentApplications fst snd].
    destruct (documentPasses rest hs1) as [others hs2].
    cbn [fst snd]. rewrite mergeAll_app. reflexivity.
Qed.

(** The records of a document are those the passes of its pages merge into
    the empty store. *)
Lemma records_passes (url : string) (pages : list (list Element)) :
  records url pages =
  Obj.values (mergeAll url (fst (documentPasses pages Column.noHeadings)) []).
Proof.
  unfold columnRecords. rewrite parsePages_passes. reflexivity.
Qed.

(** Every stored record keeps the key it is stored under as its application
    number, and a description that is not empty. *)
Lemma mergeAll_stored (url : string) (steps : list Step) :
  forall das : Obj.t DevelopmentApplication,
  Forall (fun e => applicationNumber (snd e) = fst e /\ description (snd e) <> "") das ->
  Forall (fun e => applicationNumber (snd e) = fst e /\ description (snd e) <> "")
         (mergeAll url steps das).
Proof.
  induction steps as [|s steps IH]; intros das H; [exact H|].
  cbn [mergeSteps fold_left]. apply IH.
  unfold mergeStep, Column.mergeRow. apply set_Forall; [exact H|].
  cbn [fst snd]. rewrite update_applicationNumber.
  destruct (Obj.get _ das) as [d|] eqn:G.
  - apply get_In in G. rewrite Forall_forall in H. destruct (H _ G) as [Hn Hd].
    split; [exact Hn | apply update_description, Hd].
  - split; [reflexivity | apply update_description; discriminate].
Qed.

(** A record whose passes read no description text holds the default
    description. *)
Lemma mergeAll_default (url key : string) (steps : list Step) :
  forall das : Obj.t DevelopmentApplication,
  Forall (fun e => fst e = key -> description (snd e) = NoDescription) das ->
  Forall (fun s => anchorNumber (stepAnchor s) = key ->
                   headingDefined Description (stepHeadings s) = false \/
                   Column.rowDescriptionText (stepHeadings s) (stepRow s) = "") steps ->
  Forall (fun e => fst e = key -> description (snd e) = NoDescription)
         (mergeAll url steps das).
Proof.
  induction steps as [|s steps IH]; intros das H C; [exact H|].
  cbn [mergeSteps fold_left]. apply IH; [|exact (Forall_inv_tail C)].
  pose proof (Forall_inv C) as Cs. cbn beta in Cs.
  unfold mergeStep, Column.mergeRow. apply set_Forall; [exact H|].
  cbn [fst snd]. rewrite stepValues_number. intro E.
  change (fieldOf Description
            (Column.updateApplication (stepHeadings s) (valuesOf s)
               match Obj.get (anchorNumber (stepAnchor s)) das with
               | Some d => d
               | None => Column.newApplication today url (anchorNumber (stepAnchor s))
               end) = NoDescription).
  assert (Hold : description match Obj.get (anchorNumber (stepAnchor s)) das with
                             | Some d => d
                             | None => Column.newApplication today url
                                         (anchorNumber (stepAnchor s))
                             end = NoDescription).
  { destruct (Obj.get _ das) as [d|] eqn:G; [|reflexivity].
    apply get_In in G. rewrite Forall_forall in H. exact (H _ G E). }
  rewrite update_field. cbn [fieldOf extracted].
  destruct (Cs E) as [Hh | Ht].
  - rewrite Hh. exact Hold.
  - rewrite stepValues_description, Ht.
    destruct (headingDefined Description (stepHeadings s) && _); [reflexivity | exact Hold].
Qed.

End ColumnPasses.

(* ------------------------------------------------------------------------- *)
(** ** The description of every record                                        *)
(* ------------------------------------------------------------------------- *)

Section Descriptions.

Variable StreetNames : Obj.t (list string).
Variable StreetSuffixes : Obj.t string.
Variable SuburbNames : Obj.t string.
Variable didYouMean : string -> list string -> nat -> option string.
Variable moment : string -> string -> option string.
Variable today : string.

Local Abbreviation gridProcessRow :=
  (Grid.processRow StreetNames StreetSuffixes SuburbNames didYouMean moment today).
Local Abbreviation gridProcessRows :=
  (Grid.processRows StreetNames StreetSuffixes SuburbNames didYouMean moment today).
Local Abbreviation gridParsePage :=
  (Grid.parsePage StreetNames StreetSuffixes SuburbNames didYouMean moment today).
Local Abbreviation gridParsePages :=
  (Grid.parsePages StreetNames StreetSuffixes SuburbNames didYouMean moment today).
Local Abbreviation gridParsePdf :=
  (Grid.parsePdf StreetNames StreetSuffixes SuburbNames didYouMean moment today).
Local Abbreviation columnParsePdf :=
  (Column.parsePdf StreetNames StreetSuffixes SuburbNames didYouMean moment today).
Local Abbreviation records :=
  (columnRecords StreetNames StreetSuffixes SuburbNames didYouMean moment today).
Local Abbreviation mergeAll :=
  (mergeSteps StreetNames StreetSuffixes SuburbNames didYouMean moment today).

Lemma processRows_In (url : string) (hs : Grid.Headings) (rows : list (list Grid.Cell))
    (d : DevelopmentApplication) :
  In d (fst (gridProcessRows url hs rows)) ->
  exists row, In row rows /\ fst (gridProcessRow url hs row) = Some d.
Proof.
  induction rows as [|row rest IH]; cbn [Grid.processRows]; [intros []|].
  destruct (gridProcessRow url hs row) as [pushed rowLog] eqn:E.
  destruct (gridProcessRows url hs rest) as [others log].
  cbn [fst] in *. intro Hin.
  assert (Hcase : pushed = Some d \/ In d others).
  { destruct pushed as [d'|]; [|right; exact Hin].
    destruct Hin as [-> | Hin]; [left; reflexivity | right; exact Hin]. }
  destruct Hcase as [-> | Hin'].
  - exists row. split; [left; reflexivity|]. rewrite E. reflexivity.
  - destruct (IH Hin') as (r & Hr & Hp). exists r. split; [right; exact Hr | exact Hp].
Qed.

Lemma gridParsePage_In (url : string) (page : Grid.Page) (d : DevelopmentApplication) :
  In d (fst (gridParsePage url page)) ->
  exists hs row, fst (gridProcessRow url hs row) = Some d.
Proof.
  unfold Grid.parsePage.
  destruct (Grid.groupRows (Grid.allocatedCells page)) as [|row rows]; [intros []|].
  set (hs := Grid.findHeadings (Grid.allocatedCells page)).
  destruct (negb (isDefined (Grid.applicationNumberHeadingCell hs))); [intros []|].
  destruct (negb (isDefined (Grid.streetNameHeadingCell hs))); [intros []|].
  destruct (negb (isDefined (Grid.suburbNameHeadingCell hs))); [intros []|].
  intro Hin. apply processRows_In in Hin. destruct Hin as (r & _ & Hr).
  exists hs, r. exact Hr.
Qed.

Lemma gridParsePdf_In (url : string) (pages : list Grid.Page) (d : DevelopmentApplication) :
  In d (fst (gridParsePdf url pages)) ->
  exists hs row, fst (gridProcessRow url hs row) = Some d.
Proof.
  unfold Grid.parsePdf. generalize 0 as pageIndex. generalize (List.length pages) as numPages.
  intros numPages. induction pages as [|page rest IH]; intro pageIndex.
  - intros [].
  - cbn [Grid.parsePages]. specialize (IH (S pageIndex)).
    destruct (gridParsePage url page) as [found pageLog] eqn:E.
    destruct (gridParsePages url numPages (S pageIndex) rest) as [others log].
    cbn [fst] in *. intro Hin. apply in_app_or in Hin. destruct Hin as [Hin | Hin].
    + apply (gridParsePage_In url page). rewrite E. exact Hin.
    + apply IH, Hin.
Qed.

Lemma columnParsePdf_In (url : string) (pages : list (list Element))
    (d : DevelopmentApplication) :
  In d (fst (columnParsePdf url pages)) ->
  In (applicationNumber d, d)
     (mergeAll url (fst (documentPasses pages Column.noHeadings)) []).
Proof.
  intro Hin.
  destruct (parsePdf_unfold StreetNames StreetSuffixes SuburbNames didYouMean moment today
              url pages) as [Hk _].
  rewrite Hk, filterApplications_kept in Hin. apply filter_In in Hin. destruct Hin as [Hin _].
  rewrite records_passes in Hin. apply values_In in Hin. destruct Hin as (key & Hin).
  pose proof (mergeAll_stored StreetNames StreetSuffixes SuburbNames didYouMean moment today
                url (fst (documentPasses pages Column.noHeadings)) [] (Forall_nil _)) as S.
  rewrite Forall_forall in S. destruct (S _ Hin) as [Hn _]. cbn [fst snd] in Hn.
  rewrite Hn. exact Hin.
Qed.

(** C10.  Every record either parser returns has a description that is not
    empty.  In grid mode the description of a row with no description text is
    the default "No Description Provided".  In column mode a returned record
    has the default description when no pass for its application number reads
    a description text under a defined description heading. *)
Theorem description_never_empty (url : string) :
  (forall pages d, In d (fst (gridParsePdf url pages)) -> description d <> "") /\
  (forall hs row d,
     fst (gridProcessRow url hs row) = Some d ->
     Grid.rowDescriptionText hs row = "" -> description d = NoDescription) /\
  (forall pages d,
     In d (fst (columnParsePdf url pages)) ->
     description d <> "" /\
     ((forall s, In s (fst (documentPasses pages Column.noHeadings)) ->
                 anchorNumber (stepAnchor s) = applicationNumber d ->
                 headingDefined Description (stepHeadings s) = false \/
                 Column.rowDescriptionText (stepHeadings s) (stepRow s) = "") ->
      description d = NoDescription)).
Proof.
  split; [|split].
  - intros pages d Hin. apply gridParsePdf_In in Hin. destruct Hin as (hs & row & E).
    apply processRow_emits in E. destruct E as [_ ->].
    destruct (String.eqb (Grid.rowDescriptionText hs row) "") eqn:T.
    + discriminate.
    + apply String.eqb_neq, T.
  - intros hs row d E T. apply processRow_emits in E. destruct E as [_ ->].
    rewrite T. reflexivity.
  - intros pages d Hin. apply columnParsePdf_In in Hin. split.
    + pose proof (mergeAll_stored StreetNames StreetSuffixes SuburbNames didYouMean moment
                    today url (fst (documentPasses pages Column.noHeadings)) []
                    (Forall_nil _)) as S.
      rewrite Forall_forall in S. exact (proj2 (S _ Hin)).
    + intro C.
      pose proof (mergeAll_default StreetNames StreetSuffixes SuburbNames didYouMean moment
                    today url (applicationNumber d)
                    (fst (documentPasses pages Column.noHeadings)) [] (Forall_nil _)) as D.
      rewrite !Forall_forall in D. exact (D C _ Hin eq_refl).
Qed.

End Descriptions.

Lemma description_never_empty_witness :
  Forall (fun d => description d <> "")
         (fst (SampleDocument.columnParsePdf [SampleDocument.repeatingPage])) /\
  Forall (fun d => description d <> "")
         (fst (SampleDocument.gridParsePdf [SampleDocument.gridPage])).
Proof.
  pose proof (description_never_empty
                Sample.StreetNames Sample.StreetSuffixes Sample.SuburbNames Sample.didYouMean
                Sample.moment Sample.today Sample.url) as (G & _ & C).
  unfold SampleDocument.columnParsePdf, SampleDocument.gridParsePdf.
  split; apply Forall_forall; intros d Hin.
  - exact (proj1 (C [SampleDocument.repeatingPage] d Hin)).
  - exact (G [SampleDocument.gridPage] d Hin).
Defined.

(* ------------------------------------------------------------------------- *)
(** ** Grid mode: pages that are skipped                                      *)
(* ------------------------------------------------------------------------- *)

Lemma string_append_empty_r (s : string) : s ++ "" = s.
Proof. induction s as [|c s IH]; cbn [String.append]; [reflexivity|]. rewrite IH. reflexivity. Qed.

Lemma concat_empty_cons (first : string) (rest : list string) :
  String.concat "" (first :: rest) = first ++ String.concat "" rest.
Proof.
  destruct rest as [|next rest]; [|reflexivity].
  cbn [String.concat]. symmetry. apply string_append_empty_r.
Qed.

Lemma bracketed_append (t rest : string) :
  ("[" ++ t ++ "]") ++ rest = "[" ++ t ++ "]" ++ rest.
Proof.
  cbn [String.append]. f_equal. rewrite string_append_assoc. reflexivity.
Qed.

(** The dump [parsePdf] logs is the bracketed texts of the elements. *)
Lemma elementSummary_bracketed (elements : list Element) :
  elementSummary elements = bracketedTexts elements.
Proof.
  unfold elementSummary, Js.join.
  induction elements as [|element rest IH]; [reflexivity|].
  cbn [map bracketedTexts]. rewrite concat_empty_cons, IH. apply bracketed_append.
Qed.

Lemma skipped_line (reason : string) (elements : list Element) :
  Grid.skipped reason elements =
  "No development applications can be parsed from the current page because " ++ reason ++
  "  Elements: " ++ bracketedTexts elements.
Proof. unfold Grid.skipped. rewrite elementSummary_bracketed. reflexivity. Qed.

Lemma prefix_append (pat s : string) : String.prefix pat (pat ++ s) = true.
Proof.
  induction pat as [|c pat IH]; cbn [String.append String.prefix].
  - destruct s; reflexivity.
  - destruct (Ascii.ascii_dec c c) as [_|N]; [exact IH | contradiction].
Qed.

Lemma includes_prefix (pat s : string) : String.prefix pat s = true -> includes pat s = true.
Proof. intro H. destruct s; cbn [includes]; rewrite H; reflexivity. Qed.

Lemma includes_append_right (pat a s : string) :
  includes pat s = true -> includes pat (a ++ s) = true.
Proof.
  intro H. induction a as [|c a IH]; [exact H|].
  cbn [String.append includes]. rewrite IH. apply orb_true_r.
Qed.

Lemma bracketedTexts_includes (element : Element) (elements : list Element) :
  In element elements ->
  includes ("[" ++ text element ++ "]") (bracketedTexts elements) = true.
Proof.
  induction elements as [|first rest IH]; intro Hin; [destruct Hin|].
  cbn [bracketedTexts]. rewrite <- bracketed_append.
  destruct Hin as [-> | Hin].
  - apply includes_prefix, prefix_append.
  - apply includes_append_right, IH, Hin.
Qed.

(** Every element of the page has its text, between brackets, in a line that
    ends with the dump of the sorted elements. *)
Lemma dump_includes (page : Grid.Page) (before : string) (element : Element) :
  In element (Grid.pageElements page) ->
  includes ("[" ++ text element ++ "]")
           (before ++ bracketedTexts (Grid.sortedElements page)) = true.
Proof.
  intro Hin. apply includes_append_right.
  apply (bracketedTexts_includes (invertElement element)).
  unfold Grid.sortedElements. apply sort_In, in_map, Hin.
Qed.

Section GridPages.

Variable StreetNames : Obj.t (list string).
Variable StreetSuffixes : Obj.t string.
Variable SuburbNames : Obj.t string.
Variable didYouMean : string -> list string -> nat -> option string.
Variable moment : string -> string -> option string.
Variable today : string.

Local Abbreviation parsePage :=
  (Grid.parsePage StreetNames StreetSuffixes SuburbNames didYouMean moment today).
Local Abbreviation parsePages :=
  (Grid.parsePages StreetNames StreetSuffixes SuburbNames didYouMean moment today).


End GridPages.


(* ------------------------------------------------------------------------- *)
(** ** Grid mode: the cell that owns an element                               *)
(* ------------------------------------------------------------------------- *)

Lemma owns_bounds (element : Element) (cell cell' : Grid.Cell) :
  Grid.cellBounds cell' = Grid.cellBounds cell ->
  Grid.owns element cell' = Grid.owns element cell.
Proof. intro E. unfold Grid.owns. rewrite E. reflexivity. Qed.

(** One [push]: the cell at [ownerIndex] gains the element, every cell keeps
    its rectangle. *)
Lemma pushToOwner_nth (element : Element) (cells : list Grid.Cell) (i : nat)
    (cell : Grid.Cell) :
  nth_error cells i = Some cell ->
  exists cell',
    nth_error (Grid.pushToOwner element cells) i = Some cell' /\
    Grid.cellBounds cell' = Grid.cellBounds cell /\
    Grid.elements cell' =
      (Grid.elements cell ++ if ownedAt cells i element then [element] else [])%list.
Proof.
  revert i. induction cells as [|c rest IH]; intros i H.
  - destruct i; discriminate H.
  - unfold ownedAt. cbn [Grid.pushToOwner ownerIndex].
    destruct (Grid.owns element c) eqn:E.
    + destruct i as [|i]; cbn [nth_error] in *.
      * injection H as <-. eexists. split; [reflexivity|]. split; reflexivity.
      * exists cell. split; [exact H|]. split; [reflexivity|].
        cbn [Nat.eqb]. rewrite app_nil_r. reflexivity.
    + destruct i as [|i]; cbn [nth_error] in *.
      * injection H as <-. exists c. split; [reflexivity|]. split; [reflexivity|].
        destruct (ownerIndex rest element); cbn [option_map Nat.eqb];
          rewrite app_nil_r; reflexivity.
      * destruct (IH i H) as (cell' & Hn & Hb & He).
        exists cell'. split; [exact Hn|]. split; [exact Hb|].
        rewrite He. unfold ownedAt.
        destruct (ownerIndex rest element); reflexivity.
Qed.

Lemma pushToOwner_ownerIndex (element other : Element) (cells : list Grid.Cell) :
  ownerIndex (Grid.pushToOwner element cells) other = ownerIndex cells other.
Proof.
  induction cells as [|c rest IH]; [reflexivity|].
  cbn [Grid.pushToOwner]. destruct (Grid.owns element c) eqn:E; cbn [ownerIndex].
  - rewrite (owns_bounds other c (Grid.mkCell _ (Grid.cellBounds c)) eq_refl). reflexivity.
  - rewrite IH. reflexivity.
Qed.

Lemma allocateElements_nth (elements : list Element) :
  forall (cells : list Grid.Cell) (i : nat) (cell : Grid.Cell),
  nth_error cells i = Some cell ->
  exists cell',
    nth_error (Grid.allocateElements cells elements) i = Some cell' /\
    Grid.cellBounds cell' = Grid.cellBounds cell /\
    Grid.elements cell' = (Grid.elements cell ++ filter (ownedAt cells i) elements)%list.
Proof.
  unfold Grid.allocateElements.
  induction elements as [|element rest IH]; intros cells i cell H.
  - exists cell. cbn [fold_left filter]. rewrite app_nil_r. auto.
  - cbn [fold_left].
    destruct (pushToOwner_nth element cells i cell H) as (c1 & H1 & B1 & E1).
    destruct (IH _ _ _ H1) as (cell' & Hn & Hb & He).
    exists cell'. split; [exact Hn|]. split; [congruence|].
    rewrite He, E1, <- app_assoc. f_equal. cbn [filter].
    rewrite (filter_ext (ownedAt (Grid.pushToOwner element cells) i) (ownedAt cells i)).
    + destruct (ownedAt cells i element); reflexivity.
    + intro other. unfold ownedAt. rewrite pushToOwner_ownerIndex. reflexivity.
Qed.

(** On a page: the cells are scanned in the order [cells.sort(cellComparer)]
    leaves them in, and a cell [parseCells] built, which owns nothing yet, ends
    up with the elements it is the first owner of. *)
Lemma allocatedCells_owner (page : Grid.Page) (i : nat) (cell : Grid.Cell) :
  nth_error (Grid.sortedCells page) i = Some cell ->
  Grid.elements cell = [] ->
  exists cell',
    nth_error (Grid.allocatedCells page) i = Some cell' /\
    Grid.cellBounds cell' = Grid.cellBounds cell /\
    Grid.elements cell' =
      filter (ownedAt (Grid.sortedCells page) i) (Grid.sortedElements page).
Proof.
  intros Hnth Hempty. unfold Grid.allocatedCells.
  destruct (allocateElements_nth (Grid.sortedElements page) _ _ _ Hnth) as (cell' & Hn & Hb & He).
  exists cell'. rewrite Hempty in He. auto.
Qed.

(* ------------------------------------------------------------------------- *)
(** ** Grid mode in double precision: the cell that owns an element           *)
(* ------------------------------------------------------------------------- *)

Section Ownership.

Import PrimFloat.
Local Open Scope float_scope.

Local Abbreviation percentage :=
  (fun (element : Binary64.Element) (cell : Binary64.Cell) =>
     Binary64.getPercentageOfElementInCell (Binary64.bounds element)
                                           (Binary64.cellBounds cell)).

(** [find] returns the cell at [ownerIndex]. *)
Lemma binary64_ownerCell_index (cells : list Binary64.Cell) (element : Binary64.Element) :
  Binary64.ownerCell cells element =
  match Binary64.ownerIndex cells element with
  | Some i => nth_error cells i
  | None => None
  end.
Proof.
  unfold Binary64.ownerCell. induction cells as [|cell rest IH]; [reflexivity|].
  cbn [find Binary64.ownerIndex]. destruct (Binary64.owns element cell); [reflexivity|].
  rewrite IH. destruct (Binary64.ownerIndex rest element); reflexivity.
Qed.

(** The owner is the first cell, in the order of the array, for which the
    computed percentage is above 50. *)
Lemma binary64_ownerIndex_first (cells : list Binary64.Cell) (element : Binary64.Element) :
  match Binary64.ownerIndex cells element with
  | Some i =>
      exists before cell after,
        cells = (before ++ cell :: after)%list /\ List.length before = i /\
        (50 <? percentage element cell) = true /\
        Forall (fun c => (50 <? percentage element c) = false) before
  | None => Forall (fun c => (50 <? percentage element c) = false) cells
  end.
Proof.
  induction cells as [|cell rest IH]; cbn [Binary64.ownerIndex]; [constructor|].
  destruct (Binary64.owns element cell) eqn:E.
  - exists [], cell, rest. repeat split; [exact E | constructor].
  - destruct (Binary64.ownerIndex rest element) as [i|]; cbn [option_map].
    + destruct IH as (before & c & after & -> & Hl & Hc & Hb).
      exists (cell :: before), c, after. cbn [List.length app].
      repeat split; [congruence | exact Hc | constructor; assumption].
    + constructor; assumption.
Qed.

Lemma binary64_ownerIndex_none (cells : list Binary64.Cell) (element : Binary64.Element) :
  Forall (fun c => (50 <? percentage element c) = false) cells ->
  Binary64.ownerIndex cells element = None.
Proof.
  induction 1 as [|cell rest Hc _ IH]; [reflexivity|].
  cbn [Binary64.ownerIndex]. unfold Binary64.owns. rewrite Hc, IH. reflexivity.
Qed.

(** One [push]: the cell at [ownerIndex] gains the element, every cell keeps
    its rectangle. *)
Lemma binary64_pushToOwner_nth (element : Binary64.Element) (cells : list Binary64.Cell)
    (i : nat) (cell : Binary64.Cell) :
  nth_error cells i = Some cell ->
  exists cell',
    nth_error (Binary64.pushToOwner element cells) i = Some cell' /\
    Binary64.cellBounds cell' = Binary64.cellBounds cell /\
    Binary64.elements cell' =
      (Binary64.elements cell ++
       if Binary64.ownedAt cells i element then [element] else [])%list.
Proof.
  revert i. induction cells as [|c rest IH]; intros i H.
  - destruct i; discriminate H.
  - unfold Binary64.ownedAt. cbn [Binary64.pushToOwner Binary64.ownerIndex].
    destruct (Binary64.owns element c) eqn:E.
    + destruct i as [|i]; cbn [nth_error] in *.
      * injection H as <-. eexists. split; [reflexivity|]. split; reflexivity.
      * exists cell. split; [exact H|]. split; [reflexivity|].
        cbn [Nat.eqb]. rewrite app_nil_r. reflexivity.
    + destruct i as [|i]; cbn [nth_error] in *.
      * injection H as <-. exists c. split; [reflexivity|]. split; [reflexivity|].
        destruct (Binary64.ownerIndex rest element); cbn [option_map Nat.eqb];
          rewrite app_nil_r; reflexivity.
      * destruct (IH i H) as (cell' & Hn & Hb & He).
        exists cell'. split; [exact Hn|]. split; [exact Hb|].
        rewrite He. unfold Binary64.ownedAt.
        destruct (Binary64.ownerIndex rest element); reflexivity.
Qed.

Lemma binary64_pushToOwner_ownerIndex (element other : Binary64.Element)
    (cells : list Binary64.Cell) :
  Binary64.ownerIndex (Binary64.pushToOwner element cells) other =
  Binary64.ownerIndex cells other.
Proof.
  induction cells as [|c rest IH]; [reflexivity|].
  cbn [Binary64.pushToOwner].
  destruct (Binary64.owns element c) eqn:E; cbn [Binary64.ownerIndex].
  - reflexivity.
  - rewrite IH. reflexivity.
Qed.

Lemma binary64_allocateElements_nth (elements : list Binary64.Element) :
  forall (cells : list Binary64.Cell) (i : nat) (cell : Binary64.Cell),
  nth_error cells i = Some cell ->
  exists cell',
    nth_error (Binary64.allocateElements cells elements) i = Some cell' /\
    Binary64.cellBounds cell' = Binary64.cellBounds cell /\
    Binary64.elements cell' =
      (Binary64.elements cell ++ filter (Binary64.ownedAt cells i) elements)%list.
Proof.
  unfold Binary64.allocateElements.
  induction elements as [|element rest IH]; intros cells i cell H.
  - exists cell. cbn [fold_left filter]. rewrite app_nil_r. auto.
  - cbn [fold_left].
    destruct (binary64_pushToOwner_nth element cells i cell H) as (c1 & H1 & B1 & E1).
    destruct (IH _ _ _ H1) as (cell' & Hn & Hb & He).
    exists cell'. split; [exact Hn|]. split; [congruence|].
    rewrite He, E1, <- app_assoc. f_equal. cbn [filter].
    rewrite (filter_ext (Binary64.ownedAt (Binary64.pushToOwner element cells) i)
                        (Binary64.ownedAt cells i)).
    + destruct (Binary64.ownedAt cells i element); reflexivity.
    + intro other. unfold Binary64.ownedAt.
      rewrite binary64_pushToOwner_ownerIndex. reflexivity.
Qed.

(** C7, as the code has it.  In grid mode an element goes to the first cell,
    in the order of the sorted array, for which the percentage computed in
    double precision is above 50, and to no cell when there is none: after the
    allocation loop each cell holds the elements it had, followed by the
    elements it is the first such cell of, in the order of the elements.  An
    element whose computed percentage is above 50 for no cell is owned by no
    cell, and so is an element whose computed area is zero: its percentage is
    0 for every cell. *)
Theorem allocateElements_first_owner (cells : list Binary64.Cell)
    (elements : list Binary64.Element) :
  (forall element : Binary64.Element,
     Binary64.ownerCell cells element =
       match Binary64.ownerIndex cells element with
       | Some i => nth_error cells i
       | None => None
       end /\
     match Binary64.ownerIndex cells element with
     | Some i =>
         exists before cell after,
           cells = (before ++ cell :: after)%list /\ List.length before = i /\
           (50 <? percentage element cell) = true /\
           Forall (fun c => (50 <? percentage element c) = false) before
     | None => Forall (fun c => (50 <? percentage element c) = false) cells
     end) /\
  (forall i cell,
     nth_error cells i = Some cell ->
     exists cell',
       nth_error (Binary64.allocateElements cells elements) i = Some cell' /\
       Binary64.cellBounds cell' = Binary64.cellBounds cell /\
       Binary64.elements cell' =
         (Binary64.elements cell ++ filter (Binary64.ownedAt cells i) elements)%list) /\
  (forall element : Binary64.Element,
     Forall (fun c => (50 <? percentage element c) = false) cells ->
     Binary64.ownerCell cells element = None /\
     forall i, Binary64.ownedAt cells i element = false) /\
  (forall element : Binary64.Element,
     (Binary64.getArea (Binary64.bounds element) =? 0) = true ->
     (forall cell, percentage element cell = 0) /\
     Binary64.ownerCell cells element = None /\
     forall i, Binary64.ownedAt cells i element = false).
Proof.
  assert (N : forall element : Binary64.Element,
            Forall (fun c => (50 <? percentage element c) = false) cells ->
            Binary64.ownerCell cells element = None /\
            forall i, Binary64.ownedAt cells i element = false).
  { intros element F. apply binary64_ownerIndex_none in F. split.
    - rewrite binary64_ownerCell_index, F. reflexivity.
    - intro i. unfold Binary64.ownedAt. rewrite F. reflexivity. }
  split; [|split; [|split]].
  - intro element. split; [apply binary64_ownerCell_index | apply binary64_ownerIndex_first].
  - apply binary64_allocateElements_nth.
  - exact N.
  - intros element Hz.
    assert (P : forall cell, percentage element cell = 0).
    { intro cell. unfold Binary64.getPercentageOfElementInCell. rewrite Hz. reflexivity. }
    split; [exact P|]. apply N. apply Forall_forall. intros c _. rewrite P. reflexivity.
Qed.

End Ownership.

(** C7 on two neighbouring cells: the element of no width is owned by no
    cell; so is the element "halved", whose share is computed to be 50 for
    either cell; and of three elements the first cell receives the one that
    lies inside it. *)
Lemma allocateElements_first_owner_witness :
  Binary64.ownerCell SampleBinary64.cells SampleBinary64.flat = None /\
  Binary64.ownerCell SampleBinary64.cells SampleBinary64.halved = None /\
  exists cell',
    nth_error (Binary64.allocateElements SampleBinary64.cells
                 [SampleBinary64.flat; SampleBinary64.halved; SampleBinary64.inside]) 0
      = Some cell' /\
    map Binary64.text (Binary64.elements cell') = ["inside"].
Proof.
  pose proof (allocateElements_first_owner SampleBinary64.cells
                [SampleBinary64.flat; SampleBinary64.halved; SampleBinary64.inside])
    as (_ & Hnth & Hnone & Hzero).
  split; [|split].
  - apply (proj2 (Hzero SampleBinary64.flat eq_refl)).
  - apply (Hnone SampleBinary64.halved). repeat constructor.
  - destruct (Hnth 0 SampleBinary64.leftCell eq_refl) as (cell' & Hn & _ & He).
    exists cell'. split; [exact Hn|]. rewrite He. reflexivity.
Defined.

(** C7 as the specification words it fails.  The element "half" lies half in
    each of two neighbouring cells: with the exact values of its co-ordinates
    each cell holds 50 percent of it.  The code computes 50.000000000000107
    for either cell, which is above 50, and the first cell receives the
    element. *)
Lemma half_split_is_owned :
  (getPercentageOfElementInCell
     (exactRectangle (Binary64.bounds SampleBinary64.straddling))
     (exactRectangle (Binary64.cellBounds SampleBinary64.leftCell)) == 50)%Q /\
  (getPercentageOfElementInCell
     (exactRectangle (Binary64.bounds SampleBinary64.straddling))
     (exactRectangle (Binary64.cellBounds SampleBinary64.rightCell)) == 50)%Q /\
  Binary64.getPercentageOfElementInCell
    (Binary64.bounds SampleBinary64.straddling)
    (Binary64.cellBounds SampleBinary64.leftCell) = SampleBinary64.justAbove50 /\
  Binary64.getPercentageOfElementInCell
    (Binary64.bounds SampleBinary64.straddling)
    (Binary64.cellBounds SampleBinary64.rightCell) = SampleBinary64.justAbove50 /\
  Binary64.above50 SampleBinary64.justAbove50 = true /\
  Binary64.ownerCell SampleBinary64.cells SampleBinary64.straddling
    = Some SampleBinary64.leftCell /\
  map (fun cell => map Binary64.text (Binary64.elements cell))
      (Binary64.allocateElements SampleBinary64.cells [SampleBinary64.straddling])
    = [["half"]; []].
Proof. vm_compute. repeat split. Qed.

(* ------------------------------------------------------------------------- *)
(** ** [formatStreetName]: the exact pass, then the fuzzy pass                *)
(* ------------------------------------------------------------------------- *)

(** Case analysis on a window size between 2 and 6. *)
Ltac each_window size :=
  let C := fresh "C" in
  assert (C : size = 6 \/ size = 5 \/ size = 4 \/ size = 3 \/ size = 2) by lia;
  destruct C as [-> | [-> | [-> | [-> | ->]]]].

Lemma windowSizes_range (size : nat) : In size windowSizes <-> 2 <= size <= 6.
Proof.
  unfold windowSizes. cbn [In]. lia.
Qed.

Section StreetNameFacts.

Variable StreetNames : Obj.t (list string).
Variable StreetSuffixes : Obj.t string.
Variable didYouMean : string -> list string -> nat -> option string.

Local Abbreviation exactPass := (exactMatch StreetNames).
Local Abbreviation fuzzyPass := (fuzzyMatch StreetNames didYouMean).
Local Abbreviation tokensOf := (streetTokens StreetSuffixes).
Local Abbreviation format := (formatStreetName StreetNames StreetSuffixes didYouMean).

Lemma exactMatch_iff (tokens : list string) (indexes : list nat) :
  exactPass tokens indexes = true <->
  exists size, In size indexes /\ isDefined (Obj.get (window tokens size) StreetNames) = true.
Proof.
  induction indexes as [|index rest IH]; cbn [exactMatch].
  - split; [discriminate | intros (size & [] & _)].
  - cbn [In]. fold (window tokens index).
    destruct (isDefined (Obj.get (window tokens index) StreetNames)) eqn:E.
    + split; [|reflexivity]. intros _. exists index. auto.
    + rewrite IH. split.
      * intros (size & Hin & Hd). exists size. auto.
      * intros (size & [<- | Hin] & Hd); [congruence|]. exists size. auto.
Qed.

Lemma exactMatch_none (tokens : list string) (indexes : list nat) :
  exactPass tokens indexes = false <->
  forall size, In size indexes ->
               isDefined (Obj.get (window tokens size) StreetNames) = false.
Proof.
  split.
  - intros H size Hin.
    destruct (isDefined (Obj.get (window tokens size) StreetNames)) eqn:E; [|reflexivity].
    assert (T : exactPass tokens indexes = true) by (apply exactMatch_iff; eauto).
    congruence.
  - intro H. destruct (exactPass tokens indexes) eqn:E; [|reflexivity].
    apply exactMatch_iff in E. destruct E as (size & Hin & Hd).
    rewrite (H size Hin) in Hd. discriminate.
Qed.

(** The fuzzy loop returns at the first window, in the order of the loop, that
    has a close street name. *)
Lemma fuzzyMatch_first (tokens : list string) (earlier later : list nat) (size : nat)
    (streetNameMatch : string) :
  Forall (fun index =>
            didYouMean (window tokens index) (Obj.keys StreetNames) (7 - index) = None)
         earlier ->
  didYouMean (window tokens size) (Obj.keys StreetNames) (7 - size) = Some streetNameMatch ->
  fuzzyPass tokens (earlier ++ size :: later)%list =
  Some (Js.trim (Js.join " " (Js.spliceLast size tokens) ++ " " ++ streetNameMatch)).
Proof.
  intros Hearlier Hsize. induction Hearlier as [|index earlier Hi _ IH]; cbn [app fuzzyMatch].
  - fold (window tokens size). rewrite Hsize. reflexivity.
  - fold (window tokens index). rewrite Hi. exact IH.
Qed.

Lemma fuzzyMatch_none (tokens : list string) (indexes : list nat) :
  Forall (fun index =>
            didYouMean (window tokens index) (Obj.keys StreetNames) (7 - index) = None)
         indexes ->
  fuzzyPass tokens indexes = None.
Proof.
  intro H. induction H as [|index rest Hi _ IH]; cbn [fuzzyMatch]; [reflexivity|].
  fold (window tokens index). rewrite Hi. exact IH.
Qed.

(** The sizes the loop tries before [size]. *)
Lemma windowSizes_split (size : nat) :
  2 <= size <= 6 ->
  exists earlier later,
    windowSizes = (earlier ++ size :: later)%list /\
    forall index, In index earlier -> size < index <= 6.
Proof.
  intro H. unfold windowSizes. each_window size.
  - exists [], [5; 4; 3; 2]. split; [reflexivity|]. intros index [].
  - exists [6], [4; 3; 2]. split; [reflexivity|]. cbn [In]. lia.
  - exists [6; 5], [3; 2]. split; [reflexivity|]. cbn [In]. lia.
  - exists [6; 5; 4], [2]. split; [reflexivity|]. cbn [In]. lia.
  - exists [6; 5; 4; 3], []. split; [reflexivity|]. cbn [In]. lia.
Qed.

(** C4.  [formatStreetName] first looks for a trailing window of 6 down to 2
    tokens that is a street name, and returns the whole token sequence when
    there is one.  Only when no window is a street name does it ask the
    matcher, for the same windows from 6 down to 2 and with the threshold
    7 - size, and the largest window with a match is replaced by the matched
    name, the tokens before it being kept.  When neither pass finds a window
    it returns the text unchanged. *)
Theorem formatStreetName_passes (text : string) :
  ((exists size, 2 <= size <= 6 /\
                 isDefined (Obj.get (window (tokensOf text) size) StreetNames) = true) ->
   format text = Js.join " " (tokensOf text)) /\
  ((forall size, 2 <= size <= 6 ->
                 isDefined (Obj.get (window (tokensOf text) size) StreetNames) = false) ->
   (forall size streetNameMatch,
      2 <= size <= 6 ->
      didYouMean (window (tokensOf text) size) (Obj.keys StreetNames) (7 - size)
        = Some streetNameMatch ->
      (forall larger, size < larger <= 6 ->
         didYouMean (window (tokensOf text) larger) (Obj.keys StreetNames) (7 - larger)
           = None) ->
      format text =
        Js.trim (Js.join " " (Js.spliceLast size (tokensOf text)) ++ " " ++ streetNameMatch)) /\
   ((forall size, 2 <= size <= 6 ->
       didYouMean (window (tokensOf text) size) (Obj.keys StreetNames) (7 - size) = None) ->
    format text = text)).
Proof.
  unfold formatStreetName. split.
  - intros (size & Hr & Hd).
    assert (E : exactPass (tokensOf text) windowSizes = true).
    { apply exactMatch_iff. exists size. split; [apply windowSizes_range, Hr | exact Hd]. }
    rewrite E. reflexivity.
  - intro Hnone.
    assert (E : exactPass (tokensOf text) windowSizes = false).
    { apply exactMatch_none. intros size Hin. apply Hnone, windowSizes_range, Hin. }
    rewrite E. split.
    + intros size streetNameMatch Hr Hm Hlarger.
      destruct (windowSizes_split size Hr) as (earlier & later & -> & Hearlier).
      rewrite (fuzzyMatch_first (tokensOf text) earlier later size streetNameMatch);
        [reflexivity | | exact Hm].
      apply Forall_forall. intros index Hin. apply Hlarger, Hearlier, Hin.
    + intro Hfuzzy. rewrite fuzzyMatch_none; [reflexivity|].
      apply Forall_forall. intros index Hin. apply Hfuzzy, windowSizes_range, Hin.
Qed.

End StreetNameFacts.

Lemma formatStreetName_passes_witness :
  Sample.formatStreetName "12 Main St" = "12 MAIN STREET" /\
  Sample.formatStreetName "12 MIAN ST" = "12 MAIN STREET" /\
  Sample.formatStreetName " 7 Nowhere Close" = " 7 Nowhere Close".
Proof.
  pose proof (formatStreetName_passes Sample.StreetNames Sample.StreetSuffixes
                Sample.didYouMean "12 Main St") as [Hexact _].
  pose proof (formatStreetName_passes Sample.StreetNames Sample.StreetSuffixes
                Sample.didYouMean "12 MIAN ST") as [_ Hfuzzy].
  pose proof (formatStreetName_passes Sample.StreetNames Sample.StreetSuffixes
                Sample.didYouMean " 7 Nowhere Close") as [_ Hnone].
  unfold Sample.formatStreetName. split; [|split].
  - rewrite Hexact; [reflexivity|]. exists 2. split; [lia | reflexivity].
  - assert (N : forall size, 2 <= size <= 6 ->
                  isDefined (Obj.get (window (streetTokens Sample.StreetSuffixes "12 MIAN ST") size)
                                     Sample.StreetNames) = false).
    { intros size Hr. each_window size; reflexivity. }
    rewrite (proj1 (Hfuzzy N) 2 "MAIN STREET"); [reflexivity | lia | vm_compute; reflexivity |].
    intros larger Hr. each_window larger; try lia; vm_compute; reflexivity.
  - assert (N : forall size, 2 <= size <= 6 ->
                  isDefined (Obj.get (window (streetTokens Sample.StreetSuffixes " 7 Nowhere Close")
                                             size) Sample.StreetNames) = false).
    { intros size Hr. each_window size; reflexivity. }
    rewrite (proj2 (Hnone N)); [reflexivity|].
    intros size Hr. each_window size; vm_compute; reflexivity.
Defined.

(* ------------------------------------------------------------------------- *)
(** ** Further properties: geometry                                           *)
(* ------------------------------------------------------------------------- *)

(** The sides of a rectangle [intersect] builds in its first branch. *)
Lemma intersect_sides (s1 w1 s2 w2 : Q) :
  (Qmax s1 s2 <= Qmin (s1 + w1) (s2 + w2) ->
   0 <= Qmin (s1 + w1) (s2 + w2) - Qmax s1 s2 /\
   Qmin (s1 + w1) (s2 + w2) - Qmax s1 s2 <= w1 /\
   Qmin (s1 + w1) (s2 + w2) - Qmax s1 s2 <= w2)%Q.
Proof.
  intro H.
  destruct (Q.min_spec (s1 + w1) (s2 + w2)) as [[? Hm] | [? Hm]];
  destruct (Q.max_spec s1 s2) as [[? HM] | [? HM]];
  rewrite Hm, HM in *; repeat split; lra.
Qed.

(** X1.  [intersect] is commutative: the two orders of the arguments give
    rectangles with equal co-ordinates and sizes. *)
Theorem intersect_commutative (a b : Rectangle) :
  sameRectangle (intersect a b) (intersect b a).
Proof.
  unfold intersect, sameRectangle.
  assert (C : Qle_bool (Qmax (x b) (x a)) (Qmin (x b + width b) (x a + width a)) &&
              Qle_bool (Qmax (y b) (y a)) (Qmin (y b + height b) (y a + height a)) =
              Qle_bool (Qmax (x a) (x b)) (Qmin (x a + width a) (x b + width b)) &&
              Qle_bool (Qmax (y a) (y b)) (Qmin (y a + height a) (y b + height b))).
  { rewrite (Q.max_comm (x b) (x a)), (Q.max_comm (y b) (y a)),
            (Q.min_comm (x b + width b) (x a + width a)),
            (Q.min_comm (y b + height b) (y a + height a)).
    reflexivity. }
  rewrite C. clear C.
  destruct (Qle_bool (Qmax (x a) (x b)) (Qmin (x a + width a) (x b + width b)) &&
            Qle_bool (Qmax (y a) (y b)) (Qmin (y a + height a) (y b + height b)));
    cbn [x y width height]; [|repeat split; reflexivity].
  split; [apply Q.max_comm|]. split; [apply Q.max_comm|].
  split.
  - rewrite (Q.max_comm (x b) (x a)), (Q.min_comm (x b + width b) (x a + width a)).
    reflexivity.
  - rewrite (Q.max_comm (y b) (y a)), (Q.min_comm (y b + height b) (y a + height a)).
    reflexivity.
Qed.

(** X4.  The horizontal overlap of two rectangles does not depend on the
    order of the arguments. *)
Theorem getHorizontalOverlapPercentage_symmetric (r1 r2 : option Rectangle) :
  (getHorizontalOverlapPercentage r1 r2 == getHorizontalOverlapPercentage r2 r1)%Q.
Proof.
  destruct r1 as [a|], r2 as [b|]; try reflexivity.
  unfold getHorizontalOverlapPercentage.
  destruct (Qle_bool (x b + width b) (x a)), (Qle_bool (x a + width a) (x b)),
           (Qeq_bool (width a) 0), (Qeq_bool (width b) 0); cbn [orb]; try reflexivity.
  rewrite (Q.min_comm (x b + width b) (x a + width a)), (Q.max_comm (x b) (x a)),
          (Q.max_comm (x b + width b) (x a + width a)), (Q.min_comm (x b) (x a)).
  reflexivity.
Qed.

(* ------------------------------------------------------------------------- *)
(** ** Further properties: cells and rows of the grid                         *)
(* ------------------------------------------------------------------------- *)

Lemma insertSorted_Permutation {A} (cmp : A -> A -> Z) (a : A) (l : list A) :
  Permutation (Js.insertSorted cmp a l) (a :: l).
Proof.
  induction l as [|b l IH]; cbn [Js.insertSorted]; [reflexivity|].
  destruct (cmp a b <=? 0)%Z; [reflexivity|].
  rewrite IH. apply perm_swap.
Qed.

Lemma sort_Permutation {A} (cmp : A -> A -> Z) (l : list A) :
  Permutation (Js.sort cmp l) l.
Proof.
  unfold Js.sort. induction l as [|a l IH]; cbn [fold_right]; [reflexivity|].
  rewrite insertSorted_Permutation, IH. reflexivity.
Qed.



Lemma addToRows_spec (cell : Grid.Cell) (rows : list (list Grid.Cell)) :
  Forall rowAround rows ->
  Forall rowAround (Grid.addToRows cell rows) /\
  Permutation (concat (Grid.addToRows cell rows)) (cell :: concat rows).
Proof.
  intro H. induction H as [|row rest Hrow Hrest [IHa IHp]]; cbn [Grid.addToRows].
  - split; [|reflexivity]. constructor; [|constructor].
    cbn [rowAround]. constructor; [|constructor].
    setoid_replace (y (Grid.cellBounds cell) - y (Grid.cellBounds cell))%Q with 0%Q by ring.
    reflexivity.
  - destruct (Grid.sameRow row cell) eqn:E.
    + split.
      * constructor; [|exact Hrest].
        destruct row as [|first others]; [contradiction|]. cbn [rowAround app] in *.
        change (first :: (others ++ [cell])%list) with ((first :: others) ++ [cell])%list.
        apply Forall_app. split; [exact Hrow|]. constructor; [|constructor].
        cbn [Grid.sameRow] in E. apply Qlt_bool_iff, E.
      * cbn [concat]. rewrite <- app_assoc. cbn [app].
        rewrite <- Permutation_middle. reflexivity.
    + split; [constructor; assumption|].
      cbn [concat]. rewrite IHp. rewrite <- Permutation_middle. reflexivity.
Qed.

Lemma groupRows_fold (cells : list Grid.Cell) :
  forall rows : list (list Grid.Cell),
  Forall rowAround rows ->
  Forall rowAround (fold_left (fun rows cell => Grid.addToRows cell rows) cells rows) /\
  Permutation (concat (fold_left (fun rows cell => Grid.addToRows cell rows) cells rows))
              (concat rows ++ cells)%list.
Proof.
  induction cells as [|cell rest IH]; intros rows H; cbn [fold_left].
  - rewrite app_nil_r. split; [exact H | reflexivity].
  - destruct (addToRows_spec cell rows H) as [Ha Hp].
    destruct (IH _ Ha) as [Hr Hq]. split; [exact Hr|].
    rewrite Hq, Hp. cbn [app]. apply Permutation_middle.
Qed.

Lemma groupRows_empty_iff (cells : list Grid.Cell) :
  Grid.groupRows cells = [] <-> cells = [].
Proof.
  unfold Grid.groupRows.
  destruct (groupRows_fold cells [] (Forall_nil _)) as [_ Hp]. cbn [concat app] in Hp.
  split.
  - intro E. rewrite E in Hp. cbn [concat] in Hp. apply Permutation_nil. exact Hp.
  - intros ->. reflexivity.
Qed.

(** X6.  Grouping puts every cell in exactly one row: the rows, laid end to
    end, are a rearrangement of the cells.  No row is empty, every cell of a
    row is within 2 units of the y of the row's first cell, and there are no
    rows exactly when there are no cells. *)
Theorem groupRows_partitions (cells : list Grid.Cell) :
  Permutation (concat (Grid.groupRows cells)) cells /\
  Forall rowAround (Grid.groupRows cells) /\
  (Grid.groupRows cells = [] <-> cells = []).
Proof.
  destruct (groupRows_fold cells [] (Forall_nil _)) as [Hr Hp]. cbn [concat app] in Hp.
  split; [exact Hp|]. split; [exact Hr | apply groupRows_empty_iff].
Qed.

Lemma concat_Permutation {A} (l l' : list (list A)) :
  Permutation l l' -> Permutation (concat l) (concat l').
Proof.
  intro H. induction H as [|a l l' _ IH|a b l|l l' l'' _ IH1 _ IH2]; cbn [concat].
  - reflexivity.
  - rewrite IH. reflexivity.
  - rewrite !app_assoc. apply Permutation_app_tail, Permutation_app_comm.
  - rewrite IH1. exact IH2.
Qed.

(** Sorting the rows, and the cells of each row, still hands every cell to the
    row loop exactly once. *)
Lemma sortRows_Permutation (rows : list (list Grid.Cell)) :
  Permutation (concat (Grid.sortRows rows)) (concat rows).
Proof.
  unfold Grid.sortRows.
  transitivity (concat (Js.sort Grid.rowComparer rows)).
  - induction (Js.sort Grid.rowComparer rows) as [|row rest IH]; [reflexivity|].
    cbn [map concat]. rewrite IH, sort_Permutation. reflexivity.
  - apply concat_Permutation, sort_Permutation.
Qed.

(* ------------------------------------------------------------------------- *)
(** ** Further properties: empty addresses                                    *)
(* ------------------------------------------------------------------------- *)

Lemma append_empty (a b : string) : a ++ b = "" -> a = "" /\ b = "".
Proof. destruct a; cbn [append]; [auto | discriminate]. Qed.

Lemma trimEnd_empty (s : string) : Js.trimEnd s = "" -> allWhiteSpace s = true.
Proof.
  induction s as [|c s IH]; cbn [Js.trimEnd allWhiteSpace]; [reflexivity|].
  destruct (Js.trimEnd s) as [|d r]; [|discriminate].
  destruct (Js.isWhiteSpace c); [|discriminate]. intros _. apply IH. reflexivity.
Qed.

Lemma trimStart_allWhiteSpace (s : string) :
  allWhiteSpace (Js.trimStart s) = allWhiteSpace s.
Proof.
  induction s as [|c s IH]; cbn [Js.trimStart allWhiteSpace]; [reflexivity|].
  destruct (Js.isWhiteSpace c) eqn:E; [exact IH|].
  cbn [allWhiteSpace]. rewrite E. reflexivity.
Qed.

Lemma trimStart_blank (s : string) : allWhiteSpace s = true -> Js.trimStart s = "".
Proof.
  induction s as [|c s IH]; cbn [Js.trimStart allWhiteSpace]; [reflexivity|].
  intro H. apply andb_true_iff in H. destruct H as [Hc Hs]. rewrite Hc. apply IH, Hs.
Qed.

(** [trim] gives the empty string exactly on a blank string. *)
Lemma trim_empty_iff (s : string) : Js.trim s = "" <-> allWhiteSpace s = true.
Proof.
  unfold Js.trim. split.
  - intro H. apply trimEnd_empty in H. rewrite trimStart_allWhiteSpace in H. exact H.
  - intro H. rewrite (trimStart_blank s H). reflexivity.
Qed.

Lemma allWhiteSpace_hasChar (c : ascii) (s : string) :
  Js.isWhiteSpace c = false -> hasChar c s = true -> allWhiteSpace s = false.
Proof.
  intro Hc. induction s as [|d s IH]; cbn [hasChar allWhiteSpace]; [discriminate|].
  intro H. apply orb_true_iff in H. destruct H as [H | H].
  - apply Ascii.eqb_eq in H. subst d. rewrite Hc. reflexivity.
  - rewrite (IH H). apply andb_false_r.
Qed.

Lemma replaceAll_empty (pat rep s : string) :
  rep <> "" -> Js.replaceAll pat rep s = "" -> s = "".
Proof.
  intros Hrep. unfold Js.replaceAll. destruct s as [|c s]; [reflexivity|].
  cbn [Js.replaceAllFrom]. destruct (String.prefix pat (String c s)); [|discriminate].
  intro H. apply append_empty in H. destruct H as [H _]. contradiction.
Qed.

Lemma expandTerraces_empty (s : string) : expandTerraces s = "" -> s = "".
Proof.
  unfold expandTerraces. intro H.
  repeat (apply replaceAll_empty in H; [|discriminate]). exact H.
Qed.

Lemma lastIndexOf_nonempty (c : ascii) (s : string) (i : nat) :
  Js.lastIndexOf c s = Some i -> s <> "".
Proof. destruct s; [discriminate|]. intros _. discriminate. Qed.

Lemma lastIndexOf_hasChar (c : ascii) (s : string) :
  hasChar c s = true -> exists i, Js.lastIndexOf c s = Some i.
Proof.
  induction s as [|d s IH]; cbn [hasChar Js.lastIndexOf]; [discriminate|].
  destruct (Js.lastIndexOf c s) as [i|]; [intros _; eauto|].
  destruct (Ascii.eqb d c); [intros _; eauto|].
  intro H. destruct (IH H) as (i & Hi). discriminate.
Qed.

Section AddressEmptiness.

Variable StreetNames : Obj.t (list string).
Variable StreetSuffixes : Obj.t string.
Variable SuburbNames : Obj.t string.
Variable didYouMean : string -> list string -> nat -> option string.

Local Abbreviation format :=
  (formatAddress StreetNames StreetSuffixes SuburbNames didYouMean).

Lemma formatAddress_empty_trim (address : string) :
  format address = "" -> Js.trim address = "".
Proof.
  unfold formatAddress.
  destruct (Js.lastIndexOf "," (expandTerraces (Js.trim address))) as [i|] eqn:E.
  - destruct (didYouMean _ _ 2) as [suburb|].
    + intro H. apply append_empty in H. destruct H as [_ H]. discriminate H.
    + intro H. apply lastIndexOf_nonempty in E. contradiction.
  - apply expandTerraces_empty.
Qed.

(** X7.  [formatAddress] returns the empty string exactly when its input is
    blank (empty, or white space only): whatever the dictionaries and the
    matcher answer, any other input gives a non-empty address. *)
Theorem formatAddress_empty_iff (address : string) :
  format address = "" <-> allWhiteSpace address = true.
Proof.
  rewrite <- trim_empty_iff. split.
  - apply formatAddress_empty_trim.
  - unfold formatAddress. intros ->. reflexivity.
Qed.

(** An address with a comma in it is never formatted to the empty string. *)
Lemma formatAddress_comma_nonempty (address : string) :
  hasChar "," address = true -> format address <> "".
Proof.
  intros Hc H. apply formatAddress_empty_trim, trim_empty_iff in H.
  rewrite (allWhiteSpace_hasChar "," address eq_refl Hc) in H. discriminate.
Qed.

End AddressEmptiness.

(* ------------------------------------------------------------------------- *)
(** ** Further properties: the rows grid mode accepts                         *)
(* ------------------------------------------------------------------------- *)

Section GridAcceptance.

Variable StreetNames : Obj.t (list string).
Variable StreetSuffixes : Obj.t string.
Variable SuburbNames : Obj.t string.
Variable didYouMean : string -> list string -> nat -> option string.
Variable moment : string -> string -> option string.
Variable today : string.

Local Abbreviation processRow :=
  (Grid.processRow StreetNames StreetSuffixes SuburbNames didYouMean moment today).

(** X8.  Grid mode adds a record for a row exactly when the row has an
    application-number cell whose text the pattern accepts, a street-name cell
    and a suburb cell, and the street and suburb texts are not empty.  The
    test on a blank formatted address rejects no row: an address built from a
    street and a suburb is never blank. *)
Theorem processRow_accepts_iff (url : string) (hs : Grid.Headings) (row : list Grid.Cell) :
  isDefined (fst (processRow url hs row)) = true <->
  exists numberCell streetCell suburbCell,
    Grid.alignedCell (Grid.applicationNumberHeadingCell hs) row = Some numberCell /\
    Js.testApplicationNumber (Grid.applicationNumberText numberCell) = true /\
    Grid.alignedCell (Grid.streetNameHeadingCell hs) row = Some streetCell /\
    Grid.alignedCell (Grid.suburbNameHeadingCell hs) row = Some suburbCell /\
    joinText (Grid.elements streetCell) <> "" /\
    joinText (Grid.elements suburbCell) <> "".
Proof.
  unfold Grid.processRow.
  destruct (Grid.alignedCell (Grid.applicationNumberHeadingCell hs) row) as [numberCell|];
    [|split; [discriminate | intros (? & ? & ? & H & _); discriminate H]].
  destruct (Js.testApplicationNumber (Grid.applicationNumberText numberCell)) eqn:T;
    cbn [negb];
    [|split; [discriminate | intros (n & ? & ? & H & H' & _); injection H as <-; congruence]].
  destruct (Grid.alignedCell (Grid.streetNameHeadingCell hs) row) as [streetCell|];
    [|split; [discriminate | intros (? & ? & ? & _ & _ & H & _); discriminate H]].
  destruct (Grid.alignedCell (Grid.suburbNameHeadingCell hs) row) as [suburbCell|];
    [|split; [discriminate | intros (? & ? & ? & _ & _ & _ & H & _); discriminate H]].
  destruct (String.eqb (joinText (Grid.elements streetCell)) "") eqn:Es.
  { apply String.eqb_eq in Es. split; [discriminate|].
    intros (? & s & ? & _ & _ & H & _ & Hn & _). injection H as <-. contradiction. }
  destruct (String.eqb (joinText (Grid.elements suburbCell)) "") eqn:Eb.
  { apply String.eqb_eq in Eb. split; [discriminate|].
    intros (? & ? & b & _ & _ & _ & H & _ & Hn). injection H as <-. contradiction. }
  apply String.eqb_neq in Es, Eb.
  destruct (String.eqb (formatAddress _ _ _ _ _) "") eqn:Ea.
  { exfalso. apply String.eqb_eq in Ea. revert Ea.
    apply formatAddress_comma_nonempty.
    rewrite hasChar_append. cbn [hasChar append]. rewrite orb_true_r. reflexivity. }
  split; [|reflexivity]. intros _. exists numberCell, streetCell, suburbCell.
  repeat split; assumption.
Qed.

End GridAcceptance.

(* ------------------------------------------------------------------------- *)
(** ** Further properties: the records of column mode                         *)
(* ------------------------------------------------------------------------- *)

Lemma get_None_iff {V} (key : string) (o : Obj.t V) :
  Obj.get key o = None <-> ~ In key (map fst o).
Proof.
  induction o as [|[k w] o IH]; cbn [Obj.get map fst In]; [tauto|].
  destruct (String.eqb k key) eqn:E.
  - apply String.eqb_eq in E. split; [discriminate | intro H; exfalso; apply H; auto].
  - apply String.eqb_neq in E. rewrite IH. tauto.
Qed.

Lemma set_keys {V} (key : string) (v : V) (o : Obj.t V) :
  map fst (Obj.set key v o) =
  if isDefined (Obj.get key o) then map fst o else (map fst o ++ [key])%list.
Proof.
  induction o as [|[k w] o IH]; cbn [Obj.set Obj.get map fst]; [reflexivity|].
  destruct (String.eqb k key) eqn:E; [reflexivity|].
  cbn [map fst]. rewrite IH. destruct (isDefined (Obj.get key o)); reflexivity.
Qed.

Lemma set_NoDup {V} (key : string) (v : V) (o : Obj.t V) :
  NoDup (map fst o) -> NoDup (map fst (Obj.set key v o)).
Proof.
  intro H. rewrite set_keys. destruct (Obj.get key o) eqn:G; cbn [isDefined]; [exact H|].
  apply get_None_iff in G.
  apply (Permutation_NoDup (l := key :: map fst o)).
  - apply Permutation_cons_append.
  - constructor; assumption.
Qed.

Lemma filter_partition_Permutation {A} (p : A -> bool) (l : list A) :
  Permutation (filter p l ++ filter (fun a => negb (p a)) l)%list l.
Proof.
  induction l as [|a l IH]; cbn [filter]; [reflexivity|].
  destruct (p a); cbn [negb app].
  - rewrite IH. reflexivity.
  - rewrite <- Permutation_middle, IH. reflexivity.
Qed.

(** Enumeration lists every property once. *)
Lemma entries_Permutation {V} (o : Obj.t V) : Permutation (Obj.entries o) o.
Proof.
  unfold Obj.entries. rewrite sort_Permutation. apply filter_partition_Permutation.
Qed.

Lemma kept_numbers_NoDup (keep : DevelopmentApplication -> bool)
    (held : list DevelopmentApplication) :
  NoDup (map applicationNumber held) ->
  NoDup (map applicationNumber (filter keep held)).
Proof.
  induction held as [|d held IH]; cbn [map filter]; [auto|].
  intro H. apply NoDup_cons_iff in H. destruct H as [Hn Hl].
  destruct (keep d); [|auto]. cbn [map]. constructor; [|auto].
  intro Hin. apply Hn. apply in_map_iff in Hin. destruct Hin as (b & E & Hb).
  apply filter_In in Hb. apply in_map_iff. exists b. tauto.
Qed.

Lemma removeWhiteSpace_clean (c : ascii) (s : string) :
  Js.isWhiteSpace c = true -> hasChar c (Js.removeWhiteSpace s) = false.
Proof.
  intro Hc. unfold Js.removeWhiteSpace.
  induction s as [|d s IH]; cbn [Js.filterString hasChar]; [reflexivity|].
  destruct (Js.isWhiteSpace d) eqn:Ed; cbn [negb]; [exact IH|].
  cbn [hasChar]. rewrite IH, orb_false_r.
  destruct (Ascii.eqb d c) eqn:E; [|reflexivity].
  apply Ascii.eqb_eq in E. congruence.
Qed.

Lemma anchorNumber_clean (c : ascii) (anchor : Element) :
  Js.isWhiteSpace c = true -> hasChar c (anchorNumber anchor) = false.
Proof.
  intro Hc. unfold anchorNumber. apply hasChar_trim, removeWhiteSpace_clean, Hc.
Qed.

Section ColumnRecords.

Variable StreetNames : Obj.t (list string).
Variable StreetSuffixes : Obj.t string.
Variable SuburbNames : Obj.t string.
Variable didYouMean : string -> list string -> nat -> option string.
Variable moment : string -> string -> option string.
Variable today : string.

Local Abbreviation parsePdf :=
  (Column.parsePdf StreetNames StreetSuffixes SuburbNames didYouMean moment today).
Local Abbreviation parsePages :=
  (Column.parsePages StreetNames StreetSuffixes SuburbNames didYouMean moment today).
Local Abbreviation records :=
  (columnRecords StreetNames StreetSuffixes SuburbNames didYouMean moment today).
Local Abbreviation mergeAll :=
  (mergeSteps StreetNames StreetSuffixes SuburbNames didYouMean moment today).

(** The keys of the store stay distinct, and none holds white space. *)
Lemma mergeAll_keys (url : string) (steps : list Step) :
  forall das : Obj.t DevelopmentApplication,
  NoDup (map fst das) ->
  Forall (fun e => forall c, Js.isWhiteSpace c = true -> hasChar c (fst e) = false) das ->
  NoDup (map fst (mergeAll url steps das)) /\
  Forall (fun e => forall c, Js.isWhiteSpace c = true -> hasChar c (fst e) = false)
         (mergeAll url steps das).
Proof.
  induction steps as [|s steps IH]; intros das Hn Hc; [split; assumption|].
  cbn [mergeSteps fold_left]. apply IH.
  - unfold mergeStep, Column.mergeRow. apply set_NoDup, Hn.
  - unfold mergeStep, Column.mergeRow. apply set_Forall; [exact Hc|].
    cbn [fst]. rewrite stepValues_number. intros c Hw. apply anchorNumber_clean, Hw.
Qed.

Lemma records_numbers (url : string) (pages : list (list Element)) :
  map applicationNumber (records url pages) =
  map fst (Obj.entries (mergeAll url (fst (documentPasses pages Column.noHeadings)) [])).
Proof.
  rewrite records_passes. unfold Obj.values. rewrite map_map.
  apply map_ext_in. intros e Hin. apply (proj1 (entries_In _ _)) in Hin.
  pose proof (mergeAll_stored StreetNames StreetSuffixes SuburbNames didYouMean moment today
                url (fst (documentPasses pages Column.noHeadings)) [] (Forall_nil _)) as S.
  rewrite Forall_forall in S. exact (proj1 (S _ Hin)).
Qed.

(** X9.  Column mode returns at most one record for an application number:
    the application numbers of the returned records are pairwise distinct. *)
Theorem columnParsePdf_distinct_numbers (url : string) (pages : list (list Element)) :
  NoDup (map applicationNumber (fst (parsePdf url pages))).
Proof.
  destruct (parsePdf_unfold StreetNames StreetSuffixes SuburbNames didYouMean moment today
              url pages) as [Hk _].
  rewrite Hk, filterApplications_kept. apply kept_numbers_NoDup.
  rewrite records_numbers.
  destruct (mergeAll_keys url (fst (documentPasses pages Column.noHeadings)) []
              (NoDup_nil _) (Forall_nil _)) as [Hn _].
  apply (Permutation_NoDup (l := map fst
           (mergeAll url (fst (documentPasses pages Column.noHeadings)) []))); [|exact Hn].
  apply Permutation_map. symmetry. apply entries_Permutation.
Qed.

(** X10.  The application number of a record column mode returns holds no
    white-space character, whatever the text of its anchor was. *)
Theorem columnParsePdf_numbers_clean (url : string) (pages : list (list Element))
    (d : DevelopmentApplication) (c : ascii) :
  In d (fst (parsePdf url pages)) ->
  Js.isWhiteSpace c = true ->
  hasChar c (applicationNumber d) = false.
Proof.
  intros Hin Hc.
  apply (columnParsePdf_In StreetNames StreetSuffixes SuburbNames didYouMean moment today)
    in Hin.
  destruct (mergeAll_keys url (fst (documentPasses pages Column.noHeadings)) []
              (NoDup_nil _) (Forall_nil _)) as [_ Hk].
  rewrite Forall_forall in Hk. exact (Hk _ Hin c Hc).
Qed.

Lemma filterApplications_accounts (previous : option string)
    (das : list DevelopmentApplication) :
  List.length (fst (Column.filterApplications previous das)) +
  List.length (snd (Column.filterApplications previous das)) = List.length das.
Proof.
  revert previous. induction das as [|d das IH]; intro previous; [reflexivity|].
  cbn [Column.filterApplications].
  destruct (String.eqb (applicationNumber d) "").
  - specialize (IH previous).
    destruct (Column.filterApplications previous das) as [kept log].
    cbn [fst snd List.length] in *. lia.
  - destruct (String.eqb (address d) "").
    + specialize (IH previous).
      destruct (Column.filterApplications previous das) as [kept log].
      cbn [fst snd List.length] in *. lia.
    + specialize (IH (Some (applicationNumber d))).
      destruct (Column.filterApplications (Some (applicationNumber d)) das) as [kept log].
      cbn [fst snd List.length] in *. lia.
Qed.

Lemma parsePages_log (url : string) (numPages : nat) (pages : list (list Element)) :
  forall (pageIndex : nat) (st : Column.State),
  List.length (snd (parsePages url numPages pageIndex pages st)) = List.length pages.
Proof.
  induction pages as [|page rest IH]; intros pageIndex st; [reflexivity|].
  cbn [Column.parsePages].
  specialize (IH (S pageIndex)
                 (Column.parsePage StreetNames StreetSuffixes SuburbNames didYouMean moment
                                   today url page st)).
  destruct (parsePages url numPages (S pageIndex) rest _) as [st' log].
  cbn [snd List.length] in *. rewrite IH. reflexivity.
Qed.

(** X11.  The log of a column-mode parse holds one line for the document, one
    line for each page and one line for each record that is dropped: every
    held record is either returned or logged, never both and never neither. *)
Theorem columnParsePdf_log_accounts (url : string) (pages : list (list Element)) :
  List.length (fst (parsePdf url pages)) + List.length (snd (parsePdf url pages)) =
  1 + List.length pages + List.length (records url pages).
Proof.
  unfold Column.parsePdf, columnRecords.
  pose proof (parsePages_log url (List.length pages) pages 0 Column.initialState) as Hl.
  destruct (parsePages url (List.length pages) 0 pages Column.initialState) as [st pageLog].
  cbn [fst snd] in *.
  pose proof (filterApplications_accounts None
                (Obj.values (Column.developmentApplications st))) as Ha.
  destruct (Column.filterApplications None (Obj.values (Column.developmentApplications st)))
    as [kept filterLog].
  cbn [fst snd List.length] in *. rewrite length_app. lia.
Qed.

End ColumnRecords.

Lemma columnParsePdf_numbers_clean_witness :
  hasChar " " "371/001/19" = false.
Proof.
  refine (columnParsePdf_numbers_clean
            Sample.StreetNames Sample.StreetSuffixes Sample.SuburbNames Sample.didYouMean
            Sample.moment Sample.today Sample.url [SampleDocument.shedPage]
            (mkApplication "371/001/19" "12 MAIN STREET, CUMMINS SA 5631" "Shed" Sample.url
                           CommentUrl Sample.today "2019-01-03"
                           "Lot 5, Plan D1234, Hundred CUMMINS") " " _ eq_refl).
  vm_compute. left. reflexivity.
Defined.

(* ------------------------------------------------------------------------- *)
(** ** Further properties: [getRandom] and the documents [main] selects       *)
(* ------------------------------------------------------------------------- *)




Lemma existsb_eqb_In (u : string) (l : list string) :
  existsb (String.eqb u) l = true <-> In u l.
Proof.
  rewrite existsb_exists. split.
  - intros (v & Hin & E). apply String.eqb_eq in E. subst v. exact Hin.
  - intro Hin. exists u. split; [exact Hin | apply String.eqb_refl].
Qed.

Lemma collect_step_spec (hrefs : list string) :
  forall pdfUrls : list string,
  NoDup pdfUrls ->
  let collected :=
    fold_left (fun pdfUrls pdfUrl =>
                 if isRegisterPdf pdfUrl && negb (existsb (String.eqb pdfUrl) pdfUrls)
                 then (pdfUrls ++ [pdfUrl])%list else pdfUrls) hrefs pdfUrls in
  NoDup collected /\
  (forall u, In u collected <-> In u pdfUrls \/ (In u hrefs /\ isRegisterPdf u = true)).
Proof.
  induction hrefs as [|href rest IH]; intros pdfUrls Hn; cbn [fold_left].
  - split; [exact Hn|]. intro u. cbn [In]. tauto.
  - destruct (isRegisterPdf href) eqn:R; cbn [andb].
    + destruct (existsb (String.eqb href) pdfUrls) eqn:E; cbn [negb].
      * apply existsb_eqb_In in E. destruct (IH pdfUrls Hn) as [Hd Hi].
        split; [exact Hd|]. intro u. rewrite Hi. cbn [In].
        split; [tauto|]. intros [H | [[<- | H] Hr]]; auto.
      * assert (Hnew : ~ In href pdfUrls).
        { intro Hin. apply existsb_eqb_In in Hin. congruence. }
        assert (Hn' : NoDup (pdfUrls ++ [href])%list).
        { apply (Permutation_NoDup (l := href :: pdfUrls)).
          - apply Permutation_cons_append.
          - constructor; assumption. }
        destruct (IH _ Hn') as [Hd Hi]. split; [exact Hd|].
        intro u. rewrite Hi, in_app_iff. cbn [In].
        split; [|tauto]. intros [[H | [<- | []]] | [H Hr]]; auto.
    + destruct (IH pdfUrls Hn) as [Hd Hi]. split; [exact Hd|].
      intro u. rewrite Hi. cbn [In]. split; [tauto|].
      intros [H | [[<- | H] Hr]]; auto. congruence.
Qed.

Lemma existsb_rev {A} (f : A -> bool) (l : list A) : existsb f (rev l) = existsb f l.
Proof.
  induction l as [|a l IH]; [reflexivity|].
  cbn [rev existsb]. rewrite existsb_app, IH. cbn [existsb].
  rewrite orb_false_r. apply orb_comm.
Qed.

Lemma collect_front_rev (hrefs : list string) :
  forall pdfUrls : list string,
  fold_left (fun pdfUrls pdfUrl =>
               if isRegisterPdf pdfUrl && negb (existsb (String.eqb pdfUrl) pdfUrls)
               then pdfUrl :: pdfUrls else pdfUrls) hrefs (rev pdfUrls) =
  rev (fold_left (fun pdfUrls pdfUrl =>
                    if isRegisterPdf pdfUrl && negb (existsb (String.eqb pdfUrl) pdfUrls)
                    then (pdfUrls ++ [pdfUrl])%list else pdfUrls) hrefs pdfUrls).
Proof.
  induction hrefs as [|href rest IH]; intro pdfUrls; cbn [fold_left]; [reflexivity|].
  rewrite existsb_rev.
  destruct (isRegisterPdf href && negb (existsb (String.eqb href) pdfUrls)).
  - rewrite <- IH. rewrite rev_app_distr. reflexivity.
  - apply IH.
Qed.

Lemma firstIndex_seen (u : string) (seen rest : list string) :
  In u seen -> firstIndex u (seen ++ rest) < List.length seen.
Proof.
  induction seen as [|href seen IH]; intro Hin; [destruct Hin|].
  cbn [app firstIndex List.length]. destruct (String.eqb href u) eqn:E; [lia|].
  destruct Hin as [-> | Hin]; [rewrite String.eqb_refl in E; discriminate|].
  specialize (IH Hin). lia.
Qed.

Lemma firstIndex_new (u : string) (seen rest : list string) :
  ~ In u seen -> firstIndex u (seen ++ u :: rest) = List.length seen.
Proof.
  induction seen as [|href seen IH]; intro Hn; cbn [app firstIndex List.length].
  - rewrite String.eqb_refl. reflexivity.
  - destruct (String.eqb href u) eqn:E.
    + apply String.eqb_eq in E. subst href. exfalso. apply Hn. left. reflexivity.
    + rewrite IH; [reflexivity|]. intro Hin. apply Hn. right. exact Hin.
Qed.

Lemma StronglySorted_snoc {A} (R : A -> A -> Prop) (l : list A) (a : A) :
  StronglySorted R l -> Forall (fun b => R b a) l -> StronglySorted R (l ++ [a]).
Proof.
  induction 1 as [|b l Hs IH Hb]; intro F; cbn [app].
  - constructor; constructor.
  - constructor.
    + apply IH, (Forall_inv_tail F).
    + apply Forall_app. split; [exact Hb|]. constructor; [exact (Forall_inv F) | constructor].
Qed.

(** The loop keeps the addresses in the order of their first appearance:
    [seen] are the links already passed, [pdfUrls] what they have given. *)
Lemma collect_order (todo : list string) :
  forall seen pdfUrls : list string,
  (forall u, In u pdfUrls -> In u seen) ->
  (forall u, In u seen -> isRegisterPdf u = true -> In u pdfUrls) ->
  StronglySorted (appearsBefore (seen ++ todo)) pdfUrls ->
  StronglySorted (appearsBefore (seen ++ todo))
    (fold_left (fun pdfUrls pdfUrl =>
                  if isRegisterPdf pdfUrl && negb (existsb (String.eqb pdfUrl) pdfUrls)
                  then (pdfUrls ++ [pdfUrl])%list else pdfUrls) todo pdfUrls).
Proof.
  induction todo as [|href rest IH]; intros seen pdfUrls Hseen Hall Hsorted; [exact Hsorted|].
  cbn [fold_left].
  replace (seen ++ href :: rest)%list with ((seen ++ [href]) ++ rest)%list in *
    by (rewrite <- app_assoc; reflexivity).
  destruct (isRegisterPdf href) eqn:R; cbn [andb].
  - destruct (existsb (String.eqb href) pdfUrls) eqn:E; cbn [negb].
    + apply existsb_eqb_In in E. apply IH; [| |exact Hsorted].
      * intros u Hu. apply in_or_app. left. apply Hseen, Hu.
      * intros u Hu Hr. apply in_app_or in Hu. destruct Hu as [Hu | [<- | []]]; auto.
    + assert (Hnew : ~ In href seen).
      { intro Hin. apply (Hall _ Hin) in R. apply existsb_eqb_In in R. congruence. }
      apply IH.
      * intros u Hu. apply in_app_or in Hu. apply in_or_app.
        destruct Hu as [Hu | Hu]; [left; apply Hseen, Hu | right; exact Hu].
      * intros u Hu Hr. apply in_app_or in Hu. apply in_or_app.
        destruct Hu as [Hu | Hu]; [left; apply Hall; assumption | right; exact Hu].
      * apply StronglySorted_snoc; [exact Hsorted|].
        apply Forall_forall. intros u Hu. unfold appearsBefore.
        rewrite <- app_assoc. cbn [app].
        rewrite (firstIndex_new href seen rest Hnew).
        apply firstIndex_seen, Hseen, Hu.
  - apply IH; [| |exact Hsorted].
    + intros u Hu. apply in_or_app. left. apply Hseen, Hu.
    + intros u Hu Hr. apply in_app_or in Hu.
      destruct Hu as [Hu | [<- | []]]; [auto | congruence].
Qed.

(** X13.  The addresses [main] collects are the addresses of the page that
    name a register PDF, each once.  scraper.ts keeps them in the order of
    their first appearance on the page: of two collected addresses, the one
    that appears first among the links comes first.  The grid parser keeps
    them in the reverse order. *)
Theorem collectPdfUrls_spec (hrefs : list string) :
  NoDup (collectPdfUrls hrefs) /\
  (forall u, In u (collectPdfUrls hrefs) <-> In u hrefs /\ isRegisterPdf u = true) /\
  StronglySorted (appearsBefore hrefs) (collectPdfUrls hrefs) /\
  collectPdfUrlsFront hrefs = rev (collectPdfUrls hrefs).
Proof.
  unfold collectPdfUrls, collectPdfUrlsFront.
  destruct (collect_step_spec hrefs [] (NoDup_nil _)) as [Hd Hi].
  split; [exact Hd|]. split; [|split].
  - intro u. rewrite Hi. cbn [In]. tauto.
  - apply (collect_order hrefs [] []).
    + intros u [].
    + intros u [].
    + constructor.
  - apply (collect_front_rev hrefs []).
Qed.

Example collectPdfUrls_sample :
  collectPdfUrls ["/a/Register-2019.pdf"; "/about"; "/a/register-2018.PDF";
                  "/a/Register-2019.pdf"; "/a/minutes.pdf"]
    = ["/a/Register-2019.pdf"; "/a/register-2018.PDF"] /\
  collectPdfUrlsFront ["/a/Register-2019.pdf"; "/about"; "/a/register-2018.PDF";
                       "/a/Register-2019.pdf"; "/a/minutes.pdf"]
    = ["/a/register-2018.PDF"; "/a/Register-2019.pdf"].
Proof. vm_compute. split; reflexivity. Qed.





(* ------------------------------------------------------------------------- *)
(** ** Further properties: the cells [parseCells] builds                      *)
(* ------------------------------------------------------------------------- *)

Lemma adjacent_length {A} (l : list A) : List.length (adjacent l) = List.length l - 1.
Proof.
  induction l as [|a [|b l] IH]; [reflexivity | reflexivity|].
  cbn [adjacent List.length] in *. lia.
Qed.

Lemma constructCells_length (horizontalLines verticalLines : list Rectangle) :
  List.length (constructCells horizontalLines verticalLines) =
  (List.length horizontalLines - 1) * (List.length verticalLines - 1).
Proof.
  unfold constructCells. rewrite <- !adjacent_length.
  induction (adjacent horizontalLines) as [|[h nh] pairs IH]; [reflexivity|].
  cbn [flat_map List.length]. rewrite length_app, length_map, IH. reflexivity.
Qed.

Lemma sort_length {A} (cmp : A -> A -> Z) (l : list A) :
  List.length (Js.sort cmp l) = List.length l.
Proof. apply Permutation_length, sort_Permutation. Qed.

(** An array sorted with a comparer that orders by a rational key is in
    ascending order of the key. *)
Lemma insertSorted_key {A} (key : A -> Q) (cmp : A -> A -> Z) (a : A) (l : list A) :
  (forall a b, (cmp a b <=? 0)%Z = Qle_bool (key a) (key b)) ->
  StronglySorted (fun a b => (key a <= key b)%Q) l ->
  StronglySorted (fun a b => (key a <= key b)%Q) (Js.insertSorted cmp a l).
Proof.
  intros Hcmp H. induction H as [|b l Hl IH Hb]; cbn [Js.insertSorted].
  - constructor; constructor.
  - rewrite Hcmp. destruct (Qle_bool (key a) (key b)) eqn:E.
    + apply Qle_bool_iff in E. constructor; [constructor; assumption|].
      constructor; [exact E|]. rewrite Forall_forall in *. intros c Hc.
      apply Qle_trans with (key b); [exact E | apply Hb, Hc].
    + apply Qle_bool_false_iff in E. constructor; [exact IH|].
      rewrite Forall_forall in *. intros c Hc. apply insertSorted_In in Hc.
      destruct Hc as [-> | Hc]; [apply Qlt_le_weak, E | apply Hb, Hc].
Qed.

Lemma sort_key {A} (key : A -> Q) (cmp : A -> A -> Z) (l : list A) :
  (forall a b, (cmp a b <=? 0)%Z = Qle_bool (key a) (key b)) ->
  StronglySorted (fun a b => (key a <= key b)%Q) (Js.sort cmp l).
Proof.
  intro Hcmp. unfold Js.sort. induction l as [|a l IH]; cbn [fold_right].
  - constructor.
  - apply insertSorted_key; assumption.
Qed.

Lemma xComparer_key (a b : Rectangle) : (xComparer a b <=? 0)%Z = Qle_bool (x a) (x b).
Proof.
  unfold xComparer, Qlt_bool.
  destruct (Qle_bool (x a) (x b)) eqn:E; cbn [negb]; [|reflexivity].
  destruct (Qle_bool (x b) (x a)); reflexivity.
Qed.

Lemma yComparer_key (a b : Rectangle) : (yComparer a b <=? 0)%Z = Qle_bool (y a) (y b).
Proof.
  unfold yComparer, Qlt_bool.
  destruct (Qle_bool (y a) (y b)) eqn:E; cbn [negb]; [|reflexivity].
  destruct (Qle_bool (y b) (y a)); reflexivity.
Qed.

Lemma adjacent_sorted {A} (key : A -> Q) (l : list A) :
  StronglySorted (fun a b => (key a <= key b)%Q) l ->
  Forall (fun pair => (key (fst pair) <= key (snd pair))%Q) (adjacent l).
Proof.
  intro H. induction H as [|a l Hl IH Ha]; [constructor|].
  destruct l as [|b l]; [constructor|]. cbn [adjacent]. constructor; [|exact IH].
  cbn [fst snd]. apply (Forall_inv Ha).
Qed.

Lemma constructCells_sizes (horizontalLines verticalLines : list Rectangle) :
  Forall (fun pair => (y (fst pair) <= y (snd pair))%Q) (adjacent horizontalLines) ->
  Forall (fun pair => (x (fst pair) <= x (snd pair))%Q) (adjacent verticalLines) ->
  Forall (fun cell : Grid.Cell =>
            Grid.elements cell = [] /\
            (0 <= width (Grid.cellBounds cell))%Q /\ (0 <= height (Grid.cellBounds cell))%Q)
         (constructCells horizontalLines verticalLines).
Proof.
  intros Hh Hv. unfold constructCells. apply Forall_flat_map.
  rewrite Forall_forall in *. intros [h nh] Hin. apply Forall_map.
  rewrite Forall_forall. intros [v nv] Hin'.
  specialize (Hh _ Hin). specialize (Hv _ Hin'). cbn [fst snd] in *.
  cbn [Grid.elements Grid.cellBounds width height]. split; [reflexivity|]. split; lra.
Qed.

(** X15.  [parseCells] builds the full grid: one cell for every pair of
    neighbouring horizontal lines and every pair of neighbouring vertical
    lines, so none at all when there are fewer than two lines of either kind.
    Every cell starts with no elements, and its width and height are not
    negative. *)
Theorem parseCells_grid (lines : list Rectangle) :
  List.length (parseCells lines) =
    (List.length (filter isHorizontalLine lines) - 1) *
    (List.length (filter isVerticalLine lines) - 1) /\
  Forall (fun cell : Grid.Cell =>
            Grid.elements cell = [] /\
            (0 <= width (Grid.cellBounds cell))%Q /\ (0 <= height (Grid.cellBounds cell))%Q)
         (parseCells lines).
Proof.
  unfold parseCells. split.
  - rewrite constructCells_length. unfold horizontalLinesOf, verticalLinesOf.
    rewrite !sort_length. reflexivity.
  - apply constructCells_sizes.
    + apply (adjacent_sorted y), sort_key, yComparer_key.
    + apply (adjacent_sorted x), sort_key, xComparer_key.
Qed.

Lemma pushToOwner_length (element : Element) (cells : list Grid.Cell) :
  List.length (Grid.pushToOwner element cells) = List.length cells.
Proof.
  induction cells as [|cell rest IH]; [reflexivity|].
  cbn [Grid.pushToOwner]. destruct (Grid.owns element cell); cbn [List.length]; congruence.
Qed.

Lemma allocatedCells_length (page : Grid.Page) :
  List.length (Grid.allocatedCells page) = List.length (Grid.pageCells page).
Proof.
  unfold Grid.allocatedCells, Grid.allocateElements, Grid.sortedCells.
  generalize (Grid.sortedElements page) as elements.
  assert (G : forall elements cells,
             List.length (fold_left (fun cells element => Grid.pushToOwner element cells)
                                    elements cells) = List.length cells).
  { induction elements as [|e es IH]; intro cells; cbn [fold_left]; [reflexivity|].
    rewrite IH. apply pushToOwner_length. }
  intro elements. rewrite G, sort_length, length_map. reflexivity.
Qed.

Section GridLines.

Variable StreetNames : Obj.t (list string).
Variable StreetSuffixes : Obj.t string.
Variable SuburbNames : Obj.t string.
Variable didYouMean : string -> list string -> nat -> option string.
Variable moment : string -> string -> option string.
Variable today : string.

Local Abbreviation parsePage :=
  (Grid.parsePage StreetNames StreetSuffixes SuburbNames didYouMean moment today).

(** X16.  A page is skipped for want of rows exactly when its lines give fewer
    than two horizontal lines or fewer than two vertical lines.  The page then
    adds no record and logs one line: that no development applications can be
    parsed from the page because no rows were found, followed by the dump of
    its elements, which shows the text of every element between square
    brackets, whatever text the page holds. *)
Theorem parsePage_few_lines (url : string) (lines : list Rectangle)
    (elements : list Element) :
  (Grid.groupRows (Grid.allocatedCells (Grid.mkPage (parseCells lines) elements)) = [] <->
   List.length (filter isHorizontalLine lines) <= 1 \/
   List.length (filter isVerticalLine lines) <= 1) /\
  (List.length (filter isHorizontalLine lines) <= 1 \/
   List.length (filter isVerticalLine lines) <= 1 ->
   parsePage url (Grid.mkPage (parseCells lines) elements) =
   ([], ["No development applications can be parsed from the current page because " ++
         "no rows were found (based on the grid)." ++ "  Elements: " ++
         bracketedTexts (Grid.sortedElements (Grid.mkPage (parseCells lines) elements))]) /\
   forall element,
     In element elements ->
     exists line,
       snd (parsePage url (Grid.mkPage (parseCells lines) elements)) = [line] /\
       includes ("[" ++ text element ++ "]") line = true).
Proof.
  assert (E : Grid.groupRows (Grid.allocatedCells (Grid.mkPage (parseCells lines) elements))
              = [] <->
              List.length (filter isHorizontalLine lines) <= 1 \/
              List.length (filter isVerticalLine lines) <= 1).
  { rewrite groupRows_empty_iff, <- length_zero_iff_nil, allocatedCells_length.
    cbn [Grid.pageCells]. unfold parseCells.
    rewrite constructCells_length. unfold horizontalLinesOf, verticalLinesOf.
    rewrite !sort_length. nia. }
  split; [exact E|]. intro H. apply E in H.
  assert (P : parsePage url (Grid.mkPage (parseCells lines) elements) =
              ([], ["No development applications can be parsed from the current page because " ++
                    "no rows were found (based on the grid)." ++ "  Elements: " ++
                    bracketedTexts
                      (Grid.sortedElements (Grid.mkPage (parseCells lines) elements))])).
  { unfold Grid.parsePage. rewrite H, skipped_line. reflexivity. }
  split; [exact P|]. intros element Hin. rewrite P. cbn [snd].
  eexists. split; [reflexivity|].
  rewrite <- !string_append_assoc.
  apply (dump_includes (Grid.mkPage (parseCells lines) elements)). exact Hin.
Qed.

End GridLines.

Lemma parsePage_few_lines_witness :
  Grid.parsePage Sample.StreetNames Sample.StreetSuffixes Sample.SuburbNames
                 Sample.didYouMean Sample.moment Sample.today Sample.url
                 (Grid.mkPage (parseCells [mkRectangle 0 780 500 1; mkRectangle 0 0 1 800])
                              SampleDocument.gridHeadings) =
  ([], ["No development applications can be parsed from the current page because no rows were found (based on the grid).  Elements: [D/A Number][Street Name][Town][Proposal]"]).
Proof.
  rewrite (proj1 (proj2 (parsePage_few_lines
                   Sample.StreetNames Sample.StreetSuffixes Sample.SuburbNames
                   Sample.didYouMean Sample.moment Sample.today Sample.url
                   [mkRectangle 0 780 500 1; mkRectangle 0 0 1 800]
                   SampleDocument.gridHeadings)
                   (or_introl (le_n 1)))).
  vm_compute. reflexivity.
Defined.

Example parseCells_sample :
  parseCells [mkRectangle 0 740 500 1; mkRectangle 0 800 500 1; mkRectangle 0 760 500 1;
              mkRectangle 0 780 500 1; mkRectangle 250 740 1 60; mkRectangle 0 740 1 60;
              mkRectangle 100 740 1 60; mkRectangle 500 740 1 60; mkRectangle 350 740 1 60;
              mkRectangle 40 900 30 30]
  = SampleDocument.gridCells.
Proof. vm_compute. reflexivity. Qed.

(* ------------------------------------------------------------------------- *)
(** ** Further properties: [readAddressInformation]                           *)
(* ------------------------------------------------------------------------- *)

Lemma upperChar_comma (c : ascii) : Ascii.eqb (Js.upperChar c) "," = Ascii.eqb c ",".
Proof. destruct c as [[] [] [] [] [] [] [] []]; reflexivity. Qed.

Lemma hasChar_toUpperCase (s : string) :
  hasChar "," (Js.toUpperCase s) = hasChar "," s.
Proof.
  unfold Js.toUpperCase. induction s as [|c s IH]; [reflexivity|].
  cbn [Js.mapString hasChar]. rewrite upperChar_comma, IH. reflexivity.
Qed.

(** [split] gives a second token exactly when the separator occurs. *)
Lemma split_second (sep : ascii) (s : string) :
  match Js.split sep s with
  | _ :: _ :: _ => hasChar sep s = true
  | _ => hasChar sep s = false
  end.
Proof.
  induction s as [|c s IH]; [reflexivity|].
  cbn [Js.split hasChar]. destruct (Ascii.eqb c sep) eqn:E.
  - destruct (Js.split sep s) as [|t ts] eqn:S; [|reflexivity].
    destruct s; cbn [Js.split] in S; [discriminate|].
    destruct (Ascii.eqb a sep); [discriminate|].
    destruct (Js.split sep s); discriminate.
  - cbn [orb]. destruct (Js.split sep s) as [|t [|t' ts]]; exact IH.
Qed.

Lemma lineFields_None_iff (line : string) :
  lineFields line = None <-> hasChar "," line = false.
Proof.
  unfold lineFields. pose proof (split_second "," (Js.toUpperCase line)) as H.
  rewrite hasChar_toUpperCase in H.
  destruct (Js.split "," (Js.toUpperCase line)) as [|t [|t' ts]].
  - tauto.
  - tauto.
  - split; [discriminate | congruence].
Qed.

Lemma readStreetNames_None_iff (lines : list string) :
  forall StreetNames : Obj.t (list string),
  readStreetNames lines StreetNames = None <->
  exists line, In line lines /\ hasChar "," line = false.
Proof.
  induction lines as [|line rest IH]; intro StreetNames; cbn [readStreetNames].
  - split; [discriminate | intros (? & [] & _)].
  - destruct (lineFields line) as [[street suburb]|] eqn:E.
    + rewrite IH. split.
      * intros (l & Hin & Hc). exists l. split; [right; exact Hin | exact Hc].
      * intros (l & [<- | Hin] & Hc); [|eauto].
        apply lineFields_None_iff in Hc. congruence.
    + split; [|reflexivity]. intros _. exists line.
      split; [left; reflexivity | apply lineFields_None_iff, E].
Qed.

Lemma readStreetSuffixes_None_iff (lines : list string) :
  forall StreetSuffixes : Obj.t string,
  readStreetSuffixes lines StreetSuffixes = None <->
  exists line, In line lines /\ hasChar "," line = false.
Proof.
  induction lines as [|line rest IH]; intro StreetSuffixes; cbn [readStreetSuffixes].
  - split; [discriminate | intros (? & [] & _)].
  - destruct (lineFields line) as [[abbreviation suffix]|] eqn:E.
    + rewrite IH. split.
      * intros (l & Hin & Hc). exists l. split; [right; exact Hin | exact Hc].
      * intros (l & [<- | Hin] & Hc); [|eauto].
        apply lineFields_None_iff in Hc. congruence.
    + split; [|reflexivity]. intros _. exists line.
      split; [left; reflexivity | apply lineFields_None_iff, E].
Qed.

Lemma readSuburbNames_None_iff (lines : list string) :
  forall SuburbNames : Obj.t string,
  readSuburbNames lines SuburbNames = None <->
  exists line, In line lines /\ hasChar "," line = false.
Proof.
  induction lines as [|line rest IH]; intro SuburbNames; cbn [readSuburbNames].
  - split; [discriminate | intros (? & [] & _)].
  - destruct (lineFields line) as [[suburb suffix]|] eqn:E.
    + rewrite IH. split.
      * intros (l & Hin & Hc). exists l. split; [right; exact Hin | exact Hc].
      * intros (l & [<- | Hin] & Hc); [|eauto].
        apply lineFields_None_iff in Hc. congruence.
    + split; [|reflexivity]. intros _. exists line.
      split; [left; reflexivity | apply lineFields_None_iff, E].
Qed.

Lemma filterString_allWhiteSpace (p : ascii -> bool) (s : string) :
  allWhiteSpace s = true -> allWhiteSpace (Js.filterString p s) = true.
Proof.
  induction s as [|c s IH]; cbn [Js.filterString allWhiteSpace]; [reflexivity|].
  intro H. apply andb_true_iff in H. destruct H as [Hc Hs].
  destruct (p c); [cbn [allWhiteSpace]; rewrite Hc|]; apply IH, Hs.
Qed.

Lemma fileLines_blank (content : string) :
  allWhiteSpace content = true -> fileLines content = [""].
Proof.
  intro H. unfold fileLines.
  rewrite (proj2 (trim_empty_iff _) (filterString_allWhiteSpace _ _ H)). reflexivity.
Qed.

(** X17.  [readAddressInformation] throws exactly when some line of one of
    the three files, as split from the trimmed content, holds no comma; in
    particular it throws when a file is empty or blank. *)
Theorem readAddressInformation_fails_iff (streetNames streetSuffixes suburbNames : string) :
  (readAddressInformation streetNames streetSuffixes suburbNames = None <->
   exists line,
     (In line (fileLines streetNames) \/ In line (fileLines streetSuffixes) \/
      In line (fileLines suburbNames)) /\
     hasChar "," line = false) /\
  (allWhiteSpace streetNames = true \/ allWhiteSpace streetSuffixes = true \/
   allWhiteSpace suburbNames = true ->
   readAddressInformation streetNames streetSuffixes suburbNames = None).
Proof.
  assert (E : readAddressInformation streetNames streetSuffixes suburbNames = None <->
              exists line,
                (In line (fileLines streetNames) \/ In line (fileLines streetSuffixes) \/
                 In line (fileLines suburbNames)) /\
                hasChar "," line = false).
  { unfold readAddressInformation.
    pose proof (readStreetNames_None_iff (fileLines streetNames) []) as H1.
    pose proof (readStreetSuffixes_None_iff (fileLines streetSuffixes) []) as H2.
    pose proof (readSuburbNames_None_iff (fileLines suburbNames) []) as H3.
    destruct (readStreetNames (fileLines streetNames) []) as [streets|].
    - destruct (readStreetSuffixes (fileLines streetSuffixes) []) as [suffixes|].
      + destruct (readSuburbNames (fileLines suburbNames) []) as [suburbs|].
        * split; [discriminate|]. intros (line & [H | [H | H]] & Hc).
          -- assert (F : Some streets = None) by (apply H1; eauto). discriminate F.
          -- assert (F : Some suffixes = None) by (apply H2; eauto). discriminate F.
          -- assert (F : Some suburbs = None) by (apply H3; eauto). discriminate F.
        * split; [|reflexivity]. intros _.
          destruct (proj1 H3 eq_refl) as (line & Hin & Hc). exists line. auto.
      + split; [|reflexivity]. intros _.
        destruct (proj1 H2 eq_refl) as (line & Hin & Hc). exists line. auto.
    - split; [|reflexivity]. intros _.
      destruct (proj1 H1 eq_refl) as (line & Hin & Hc). exists line. auto. }
  split; [exact E|]. intro H. apply E. exists "". split; [|reflexivity].
  destruct H as [H | [H | H]]; rewrite (fileLines_blank _ H); cbn [In]; auto.
Qed.

Lemma addStreet_get (StreetNames : Obj.t (list string)) (streetName suburbName key : string) :
  Obj.get key (addStreet StreetNames streetName suburbName) =
  if String.eqb streetName key
  then Some (match Obj.get key StreetNames with Some l => l | None => [] end
             ++ [suburbName])%list
  else Obj.get key StreetNames.
Proof.
  unfold addStreet. destruct (String.eqb streetName key) eqn:E.
  - apply String.eqb_eq in E. subst key.
    destruct (Obj.get streetName StreetNames); apply get_set_same.
  - apply String.eqb_neq in E.
    destruct (Obj.get streetName StreetNames); apply get_set_other; congruence.
Qed.

Lemma readStreetNames_get (lines : list string) (key : string) :
  forall StreetNames result : Obj.t (list string),
  readStreetNames lines StreetNames = Some result ->
  Obj.get key StreetNames <> Some [] ->
  Obj.get key result <> Some [] /\
  match Obj.get key result with Some l => l | None => [] end =
  (match Obj.get key StreetNames with Some l => l | None => [] end
   ++ suburbsOf key lines)%list.
Proof.
  induction lines as [|line rest IH]; intros StreetNames result; cbn [readStreetNames suburbsOf flat_map].
  - intros E Hne. injection E as <-. rewrite app_nil_r. auto.
  - destruct (lineFields line) as [[street suburb]|]; [|discriminate].
    intros E Hne.
    assert (Hne' : Obj.get key (addStreet StreetNames street suburb) <> Some []).
    { rewrite addStreet_get. destruct (String.eqb street key); [|exact Hne].
      intro H. injection H as H. apply app_eq_nil in H. destruct H as [_ H].
      discriminate H. }
    destruct (IH _ _ E Hne') as [Hr Hl]. split; [exact Hr|].
    fold (suburbsOf key rest). rewrite Hl, addStreet_get.
    destruct (String.eqb street key); [|reflexivity].
    rewrite <- app_assoc. reflexivity.
Qed.

(** X18.  When the street names are read, the dictionary gives for a street
    the suburbs of all the lines that name it, in the order of the lines, and
    nothing for a street that no line names. *)
Theorem readStreetNames_lookup (lines : list string) (result : Obj.t (list string))
    (streetName : string) :
  readStreetNames lines [] = Some result ->
  Obj.get streetName result =
    match suburbsOf streetName lines with
    | [] => None
    | suburbs => Some suburbs
    end.
Proof.
  intro E.
  destruct (readStreetNames_get lines streetName [] result E) as [Hne Hl]; [discriminate|].
  cbn [Obj.get app] in Hl. rewrite <- Hl.
  destruct (Obj.get streetName result) as [[|s l]|]; [contradiction | reflexivity | reflexivity].
Qed.

Lemma readStreetNames_lookup_witness :
  Obj.get "MAIN STREET" [("MAIN STREET", ["CUMMINS"; "BOSTON"]); ("BRATTEN WAY", ["CUMMINS"])]
  = Some ["CUMMINS"; "BOSTON"].
Proof.
  exact (readStreetNames_lookup
           ["Main Street, Cummins"; "Bratten Way,Cummins"; "main street , Boston"]
           [("MAIN STREET", ["CUMMINS"; "BOSTON"]); ("BRATTEN WAY", ["CUMMINS"])]
           "MAIN STREET" eq_refl).
Defined.

Lemma addSuburb_get (SuburbNames : Obj.t string) (suburbName suffix key : string) :
  Obj.get key (addSuburb SuburbNames suburbName suffix) =
  if writesSuburb suburbName key then Some suffix else Obj.get key SuburbNames.
Proof.
  unfold addSuburb, writesSuburb. cbn [String.length].
  destruct (String.prefix "MOUNT " suburbName); cbn [andb].
  - destruct (String.eqb ("MT. " ++ Js.drop 6 suburbName) key) eqn:E3.
    { apply String.eqb_eq in E3. subst key. rewrite !orb_true_r. apply get_set_same. }
    apply String.eqb_neq in E3. rewrite get_set_other by congruence.
    destruct (String.eqb ("MT." ++ Js.drop 6 suburbName) key) eqn:E2.
    { apply String.eqb_eq in E2. subst key. rewrite !orb_true_r. apply get_set_same. }
    apply String.eqb_neq in E2. rewrite get_set_other by congruence.
    destruct (String.eqb ("MT " ++ Js.drop 6 suburbName) key) eqn:E1.
    { apply String.eqb_eq in E1. subst key. rewrite !orb_true_r. apply get_set_same. }
    apply String.eqb_neq in E1. rewrite get_set_other by congruence.
    rewrite !orb_false_r.
    destruct (String.eqb suburbName key) eqn:E0.
    + apply String.eqb_eq in E0. subst key. apply get_set_same.
    + apply String.eqb_neq in E0. apply get_set_other. congruence.
  - rewrite orb_false_r. destruct (String.eqb suburbName key) eqn:E0.
    + apply String.eqb_eq in E0. subst key. apply get_set_same.
    + apply String.eqb_neq in E0. apply get_set_other. congruence.
Qed.

Lemma readSuburbNames_get (lines : list string) (key : string) :
  forall (SuburbNames result : Obj.t string),
  readSuburbNames lines SuburbNames = Some result ->
  Obj.get key result =
  fold_left (fun found line =>
               match lineFields line with
               | Some (suburbName, suffix) =>
                   if writesSuburb suburbName key then Some suffix else found
               | None => found
               end) lines (Obj.get key SuburbNames).
Proof.
  induction lines as [|line rest IH]; intros SuburbNames result; cbn [readSuburbNames fold_left].
  - intro E. injection E as <-. reflexivity.
  - destruct (lineFields line) as [[suburb suffix]|]; [|discriminate].
    intro E. rewrite (IH _ _ E), addSuburb_get. reflexivity.
Qed.

(** X19.  When the suburb names are read, the dictionary gives for a key the
    suffix of the last line that assigns it, and nothing when no line does: a
    line assigns its own name and, when the name starts with "MOUNT ", the
    spellings "MT ", "MT." and "MT. " of it, so a later line overrides an
    earlier one also through an abbreviated spelling. *)
Theorem readSuburbNames_lookup (lines : list string) (result : Obj.t string) (key : string) :
  readSuburbNames lines [] = Some result ->
  Obj.get key result = lastSuburbWrite key lines.
Proof.
  intro E. rewrite (readSuburbNames_get lines key [] result E). reflexivity.
Qed.

Lemma readSuburbNames_lookup_witness :
  Obj.get "MT. HOPE"
    [("MOUNT HOPE", "MOUNT HOPE SA 5607"); ("MT HOPE", "MOUNT HOPE SA 5607");
     ("MT.HOPE", "MOUNT HOPE SA 5607"); ("MT. HOPE", "MOUNT HOPE SA 5607");
     ("CUMMINS", "CUMMINS SA 5631")]
  = Some "MOUNT HOPE SA 5607".
Proof.
  exact (readSuburbNames_lookup
           ["Mount Hope,Mount Hope SA 5607"; "Cummins, Cummins SA 5631"]
           [("MOUNT HOPE", "MOUNT HOPE SA 5607"); ("MT HOPE", "MOUNT HOPE SA 5607");
            ("MT.HOPE", "MOUNT HOPE SA 5607"); ("MT. HOPE", "MOUNT HOPE SA 5607");
            ("CUMMINS", "CUMMINS SA 5631")]
           "MT. HOPE" eq_refl).
Defined.

